(** * The MongoDB persistence layer of the user service (package mongodb)

    A shallow embedding of db/mongodb: the ObjectID codec, the storage
    records MongoUser / MongoAddress / MongoCard, and the repository
    operations CreateUser, CreateCard, CreateAddress, GetUser, GetCard,
    GetAddress, GetUserAttributes and Delete, written as functions over an
    explicit database state.

    The three collections are finite maps from [_id] to document.  Every
    call into the driver is recorded in a log and may fail for a storage
    reason; which calls fail is fixed by an oracle the theorems quantify
    over; a deadline that expires is one such failure.  Go functions that
    mutate their argument through a pointer return the value the caller
    observes afterwards.  A nil slice and an empty one are both the empty
    list, so [users.User{}] and [users.New()] are the same value here. *)

From Stdlib Require Import NArith List Bool.
From Stdlib.Strings Require Import String Ascii Byte.
From stdpp Require Import base decidable countable option list gmap fin_maps strings.

Local Open Scope string_scope.
Local Open Scope list_scope.

(** ** primitive.ObjectID *)

Module primitive.

#[global] Instance byte_eq_dec : EqDecision byte := Byte.byte_eq_dec.

#[global] Instance byte_countable : Countable byte :=
  inj_countable Byte.to_N Byte.of_N Byte.of_to_N.

(** [type ObjectID [12]byte] *)
Definition ObjectID : Type := { bs : list byte | length bs = 12 }.

#[global] Instance ObjectID_eq_dec : EqDecision ObjectID := _.
#[global] Instance ObjectID_countable : Countable ObjectID := _.

(** encoding/hex: the table "0123456789abcdef" *)
Definition hextable (n : N) : ascii :=
  if (n <? 10)%N then ascii_of_N (48 + n) else ascii_of_N (87 + n).

(** encoding/hex fromHexChar: both cases of the letters are accepted. *)
Definition fromHexChar (c : ascii) : option N :=
  let n := N_of_ascii c in
  if ((48 <=? n) && (n <=? 57))%N then Some (n - 48)%N
  else if ((97 <=? n) && (n <=? 102))%N then Some (n - 87)%N
  else if ((65 <=? n) && (n <=? 70))%N then Some (n - 55)%N
  else None.

Fixpoint EncodeToString (bs : list byte) : string :=
  match bs with
  | [] => ""
  | b :: bs' =>
      String (hextable (Byte.to_N b / 16))
        (String (hextable (Byte.to_N b mod 16)) (EncodeToString bs'))
  end.

Fixpoint DecodeString (s : string) : option (list byte) :=
  match s with
  | "" => Some []
  | String _ "" => None
  | String c1 (String c2 s') =>
      match fromHexChar c1, fromHexChar c2 with
      | Some hi, Some lo =>
          match Byte.of_N (16 * hi + lo), DecodeString s' with
          | Some b, Some bs => Some (b :: bs)
          | _, _ => None
          end
      | _, _ => None
      end
  end.

(** [func (id ObjectID) Hex() string] *)
Definition Hex (id : ObjectID) : string := EncodeToString (proj1_sig id).

(** [func ObjectIDFromHex(s string) (ObjectID, error)]: the length must be
    24 and every character a hexadecimal digit; [None] is the error. *)
Definition ObjectIDFromHex (s : string) : option ObjectID :=
  if decide (String.length s = 24) then
    match DecodeString s with
    | Some bs =>
        match decide (length bs = 12) with
        | left H => Some (exist _ bs H)
        | right _ => None
        end
    | None => None
    end
  else None.

(** [func IsValidObjectID(s string) bool] *)
Definition IsValidObjectID (s : string) : bool :=
  match ObjectIDFromHex s with Some _ => true | None => false end.

End primitive.
Import primitive.

(** ** The domain entities (package users) *)

Module users.

(** Modelled from the spec: the declaration of [users.Address] (section 3:
    identifier, street, city, postal code, country). *)
Record Address : Type := mkAddress {
  Address_ID : string;
  Street : string;
  City : string;
  PostCode : string;
  Country : string
}.

(** Modelled from the spec: the declaration of [users.Card] (section 3:
    identifier, long number, expiry, CCV). *)
Record Card : Type := mkCard {
  Card_ID : string;
  LongNum : string;
  Expires : string;
  CCV : string
}.

(** Modelled from the spec: the declaration of [users.User] (section 3).
    The links are kept as (relation, href) pairs. *)
Record User : Type := mkUser {
  FirstName : string;
  LastName : string;
  Username : string;
  Password : string;
  Addresses : list Address;
  Cards : list Card;
  UserID : string;
  Links : list (string * string)
}.

(** Modelled from the spec: [users.New], the empty user. *)
Definition New : User := mkUser "" "" "" "" [] [] "" [].

Definition zeroAddress : Address := mkAddress "" "" "" "" "".
Definition zeroCard : Card := mkCard "" "" "" "".

Definition Address_withID (a : Address) (id : string) : Address :=
  mkAddress id (Street a) (City a) (PostCode a) (Country a).

Definition Card_withID (c : Card) (id : string) : Card :=
  mkCard id (LongNum c) (Expires c) (CCV c).

Definition User_withAddresses (u : User) (l : list Address) : User :=
  mkUser (FirstName u) (LastName u) (Username u) (Password u)
         l (Cards u) (UserID u) (Links u).

Definition User_withCards (u : User) (l : list Card) : User :=
  mkUser (FirstName u) (LastName u) (Username u) (Password u)
         (Addresses u) l (UserID u) (Links u).

Definition User_withUserID (u : User) (id : string) : User :=
  mkUser (FirstName u) (LastName u) (Username u) (Password u)
         (Addresses u) (Cards u) id (Links u).

End users.
Import users.

(** ** Errors, storage records and the database state *)

#[local] Set Warnings "-register-all".
Inductive error : Type :=
| ErrInvalidHexID                       (* the package's own "Invalid Id Hex" *)
| ErrInvalidHex                         (* primitive.ErrInvalidHex *)
| ErrNoDocuments                        (* mongo.ErrNoDocuments: nothing matched *)
| ErrDuplicateKey                       (* the unique index on username refused the write *)
| ErrBackend (code : N)                 (* any other driver failure: network, deadline, server *)
| ErrAttributes (carderr addrerr : option error).
                                        (* fmt.Errorf("attribute errors: %v %v", carderr, addrerr) *)
#[local] Set Warnings "+register-all".

(** A failing driver call: the error it reports and, for a cursor that is
    being drained, how many documents were decoded before it failed. *)
Record Fault : Type := mkFault { f_code : N; f_done : nat }.

Definition backend (ft : Fault) : error := ErrBackend (f_code ft).

(** The calls the package makes into the driver. *)
Inductive Call : Type :=
| CReplaceOne (coll : string) (id : ObjectID)
| CFindOne (coll : string) (id : ObjectID)
| CFind (coll : string) (ids : list ObjectID)
| CAll (coll : string)
| CDeleteMany (coll : string) (ids : list ObjectID)
| CDeleteOne (coll : string) (id : ObjectID)
| CUpdateOne (uid : ObjectID) (op attr : string) (id : ObjectID)
| CUpdateMany (op attr : string) (id : ObjectID).

Record MongoUser : Type := mkMongoUser {
  MU_User : User;
  MU_ID : ObjectID;
  AddressIDs : list ObjectID;
  CardIDs : list ObjectID
}.

Record MongoAddress : Type := mkMongoAddress {
  MA_Address : Address;
  MA_ID : ObjectID
}.

Record MongoCard : Type := mkMongoCard {
  MC_Card : Card;
  MC_ID : ObjectID
}.

(** Modelled from the spec: the bson tags of [users.User].  A customer
    document holds the scalar fields and the two reference lists; the
    embedded address and card lists and the string identifier are not
    serialised (section 4.2). *)
Record CustomerDoc : Type := mkCustomerDoc {
  d_firstName : string;
  d_lastName : string;
  d_username : string;
  d_password : string;
  d_links : list (string * string);
  d_addresses : list ObjectID;
  d_cards : list ObjectID
}.

Definition marshalUser (mu : MongoUser) : CustomerDoc :=
  let u := MU_User mu in
  mkCustomerDoc (FirstName u) (LastName u) (Username u) (Password u) (Links u)
                (AddressIDs mu) (CardIDs mu).

(** Decoding a customer document into [mu]: the fields the document has are
    overwritten, the others keep the value [mu] had. *)
Definition unmarshalUser (mu : MongoUser) (id : ObjectID) (d : CustomerDoc) : MongoUser :=
  let u := MU_User mu in
  mkMongoUser
    (mkUser (d_firstName d) (d_lastName d) (d_username d) (d_password d)
            (Addresses u) (Cards u) (UserID u) (d_links d))
    id (d_addresses d) (d_cards d).

Record Mongo : Type := mkMongo {
  customers : gmap ObjectID CustomerDoc;
  addresses : gmap ObjectID Address;
  cards : gmap ObjectID Card;
  usernameIndex : bool;     (* the unique index of EnsureIndexes is in place *)
  noid : nat;               (* ObjectIDs generated so far *)
  ncall : nat;              (* driver calls made so far *)
  calls : list Call         (* the driver calls made, oldest first *)
}.

Definition with_customers (x : gmap ObjectID CustomerDoc) (m : Mongo) : Mongo :=
  mkMongo x (addresses m) (cards m) (usernameIndex m) (noid m) (ncall m) (calls m).

Definition with_addresses (x : gmap ObjectID Address) (m : Mongo) : Mongo :=
  mkMongo (customers m) x (cards m) (usernameIndex m) (noid m) (ncall m) (calls m).

Definition with_cards (x : gmap ObjectID Card) (m : Mongo) : Mongo :=
  mkMongo (customers m) (addresses m) x (usernameIndex m) (noid m) (ncall m) (calls m).

Definition NilObjectID : ObjectID :=
  exist _ [x00; x00; x00; x00; x00; x00; x00; x00; x00; x00; x00; x00] eq_refl.

(** [oid, _ := primitive.ObjectIDFromHex(s)] *)
Definition fromHex_ (s : string) : ObjectID := default NilObjectID (ObjectIDFromHex s).

(** The update operators on a customer document.  The package only ever
    names the fields "addresses" and "cards". *)
Definition addToSet (attr : string) (id : ObjectID) (d : CustomerDoc) : CustomerDoc :=
  if decide (attr = "addresses") then
    if decide (id ∈ d_addresses d) then d
    else mkCustomerDoc (d_firstName d) (d_lastName d) (d_username d) (d_password d)
           (d_links d) (d_addresses d ++ [id]) (d_cards d)
  else if decide (attr = "cards") then
    if decide (id ∈ d_cards d) then d
    else mkCustomerDoc (d_firstName d) (d_lastName d) (d_username d) (d_password d)
           (d_links d) (d_addresses d) (d_cards d ++ [id])
  else d.

Definition pull (attr : string) (id : ObjectID) (d : CustomerDoc) : CustomerDoc :=
  if decide (attr = "addresses") then
    mkCustomerDoc (d_firstName d) (d_lastName d) (d_username d) (d_password d)
      (d_links d) (filter (λ x, x ≠ id) (d_addresses d)) (d_cards d)
  else if decide (attr = "cards") then
    mkCustomerDoc (d_firstName d) (d_lastName d) (d_username d) (d_password d)
      (d_links d) (d_addresses d) (filter (λ x, x ≠ id) (d_cards d))
  else d.

(** Another customer already has this username. *)
Definition usernameTaken (name : string) (id : ObjectID)
    (cs : gmap ObjectID CustomerDoc) : bool :=
  existsb (λ kd, bool_decide (kd.1 ≠ id) && bool_decide (d_username kd.2 = name))
          (map_to_list cs).

(** The documents a [{"_id": {"$in": ids}}] filter selects, and those it
    leaves. *)
Definition selectIn {D} (ids : list ObjectID) (coll : gmap ObjectID D) : gmap ObjectID D :=
  filter (λ kd, kd.1 ∈ ids) coll.

Definition dropIn {D} (ids : list ObjectID) (coll : gmap ObjectID D) : gmap ObjectID D :=
  filter (λ kd, kd.1 ∉ ids) coll.

(** The state once the driver call [c] has been issued. *)
Definition logged (c : Call) (m : Mongo) : Mongo :=
  mkMongo (customers m) (addresses m) (cards m) (usernameIndex m)
          (noid m) (S (ncall m)) (calls m ++ [c]).

(** ** The driver and the repository *)

Section Repository.

(** The identifiers [primitive.NewObjectID] hands out, in order, and the
    fate of each driver call, in order ([None]: the call goes through). *)
Variable NewObjectID_at : nat → ObjectID.
Variable fault_at : nat → option Fault.

Definition NewObjectID (m : Mongo) : ObjectID * Mongo :=
  (NewObjectID_at (noid m),
   mkMongo (customers m) (addresses m) (cards m) (usernameIndex m)
           (S (noid m)) (ncall m) (calls m)).

(** Every driver call is logged and draws its outcome from the oracle.  A
    failed call leaves the collections as they were. *)
Definition call (c : Call) (m : Mongo) : option Fault * Mongo :=
  (fault_at (ncall m), logged c m).

(** [coll.ReplaceOne(ctx, bson.M{"_id": doc.ID}, doc, upsert)] *)
Definition ReplaceOne_cards (mc : MongoCard) (m : Mongo) : option error * Mongo :=
  let '(f, m) := call (CReplaceOne "cards" (MC_ID mc)) m in
  match f with
  | Some ft => (Some (backend ft), m)
  | None => (None, with_cards (<[MC_ID mc := MC_Card mc]> (cards m)) m)
  end.

Definition ReplaceOne_addresses (ma : MongoAddress) (m : Mongo) : option error * Mongo :=
  let '(f, m) := call (CReplaceOne "addresses" (MA_ID ma)) m in
  match f with
  | Some ft => (Some (backend ft), m)
  | None => (None, with_addresses (<[MA_ID ma := MA_Address ma]> (addresses m)) m)
  end.

Definition ReplaceOne_customers (mu : MongoUser) (m : Mongo) : option error * Mongo :=
  let '(f, m) := call (CReplaceOne "customers" (MU_ID mu)) m in
  match f with
  | Some ft => (Some (backend ft), m)
  | None =>
      if usernameIndex m && usernameTaken (Username (MU_User mu)) (MU_ID mu) (customers m)
      then (Some ErrDuplicateKey, m)
      else (None, with_customers (<[MU_ID mu := marshalUser mu]> (customers m)) m)
  end.

(** [coll.FindOne(ctx, bson.M{"_id": id}).Decode(&doc)] on the collection
    [coll], called [name]. *)
Definition FindOne {D} (name : string) (coll : gmap ObjectID D) (id : ObjectID)
    (m : Mongo) : (error + D) * Mongo :=
  let '(f, m) := call (CFindOne name id) m in
  match f with
  | Some ft => (inl (backend ft), m)
  | None =>
      match coll !! id with
      | Some d => (inr d, m)
      | None => (inl ErrNoDocuments, m)
      end
  end.

(** [coll.Find(ctx, bson.M{"_id": bson.M{"$in": ids}})]: the cursor over
    the matching documents. *)
Definition Find {D} (name : string) (coll : gmap ObjectID D) (ids : list ObjectID)
    (m : Mongo) : (error + list (ObjectID * D)) * Mongo :=
  let '(f, m) := call (CFind name ids) m in
  match f with
  | Some ft => (inl (backend ft), m)
  | None => (inr (map_to_list (selectIn ids coll)), m)
  end.

(** [cursor.All(ctx, &docs)]: when draining fails, [docs] holds the
    documents decoded so far. *)
Definition All {D} (name : string) (cursor : list (ObjectID * D))
    (m : Mongo) : list (ObjectID * D) * option error * Mongo :=
  let '(f, m) := call (CAll name) m in
  match f with
  | Some ft => (take (f_done ft) cursor, Some (backend ft), m)
  | None => (cursor, None, m)
  end.

(** [Collection(name).DeleteMany(ctx, bson.M{"_id": bson.M{"$in": ids}})].
    A collection the package never writes to holds no document. *)
Definition DeleteMany (name : string) (ids : list ObjectID)
    (m : Mongo) : option error * Mongo :=
  let '(f, m) := call (CDeleteMany name ids) m in
  match f with
  | Some ft => (Some (backend ft), m)
  | None =>
      (None,
       if decide (name = "customers") then with_customers (dropIn ids (customers m)) m
       else if decide (name = "addresses") then with_addresses (dropIn ids (addresses m)) m
       else if decide (name = "cards") then with_cards (dropIn ids (cards m)) m
       else m)
  end.

(** [Collection(name).DeleteOne(ctx, bson.M{"_id": id})]: deleting
    nothing is not an error. *)
Definition DeleteOne (name : string) (id : ObjectID) (m : Mongo) : option error * Mongo :=
  let '(f, m) := call (CDeleteOne name id) m in
  match f with
  | Some ft => (Some (backend ft), m)
  | None =>
      (None,
       if decide (name = "customers") then with_customers (delete id (customers m)) m
       else if decide (name = "addresses") then with_addresses (delete id (addresses m)) m
       else if decide (name = "cards") then with_cards (delete id (cards m)) m
       else m)
  end.

(** [customers.UpdateOne(ctx, bson.M{"_id": uid}, bson.M{"$addToSet": bson.M{attr: id}})]:
    matching no customer is not an error. *)
Definition UpdateOne_addToSet (uid : ObjectID) (attr : string) (id : ObjectID)
    (m : Mongo) : option error * Mongo :=
  let '(f, m) := call (CUpdateOne uid "$addToSet" attr id) m in
  match f with
  | Some ft => (Some (backend ft), m)
  | None => (None, with_customers (alter (addToSet attr id) uid (customers m)) m)
  end.

(** [customers.UpdateMany(ctx, bson.M{}, bson.M{"$pull": bson.M{attr: id}})] *)
Definition UpdateMany_pull (attr : string) (id : ObjectID)
    (m : Mongo) : option error * Mongo :=
  let '(f, m) := call (CUpdateMany "$pull" attr id) m in
  match f with
  | Some ft => (Some (backend ft), m)
  | None => (None, with_customers (pull attr id <$> customers m) m)
  end.

(** [func New() MongoUser] *)
Definition New : MongoUser := mkMongoUser users.New NilObjectID [] [].

(** [func (mu *MongoUser) AddUserIDs()] *)
Definition AddUserIDs (mu : MongoUser) : MongoUser :=
  let u := MU_User mu in
  let u := User_withAddresses u
             (Addresses u ++ map (λ id, Address_withID zeroAddress (Hex id)) (AddressIDs mu)) in
  let u := User_withCards u
             (Cards u ++ map (λ id, Card_withID zeroCard (Hex id)) (CardIDs mu)) in
  let u := User_withUserID u (Hex (MU_ID mu)) in
  mkMongoUser u (MU_ID mu) (AddressIDs mu) (CardIDs mu).

(** [func (ma *MongoAddress) AddID()] and [func (mc *MongoCard) AddID()] *)
Definition MongoAddress_AddID (ma : MongoAddress) : MongoAddress :=
  mkMongoAddress (Address_withID (MA_Address ma) (Hex (MA_ID ma))) (MA_ID ma).

Definition MongoCard_AddID (mc : MongoCard) : MongoCard :=
  mkMongoCard (Card_withID (MC_Card mc) (Hex (MC_ID mc))) (MC_ID mc).

(** [func (m *Mongo) createCards(ctx, cs []users.Card) ([]primitive.ObjectID, error)].
    The loop writes the new identifier into [cs[k]]; the slice shares its
    backing array with the caller's, so the list the caller sees afterwards
    is returned first.  At the first failing write the loop stops with the
    identifiers created so far. *)
Fixpoint createCards (cs : list Card) (m : Mongo)
    : list Card * list ObjectID * option error * Mongo :=
  match cs with
  | [] => ([], [], None, m)
  | ca :: rest =>
      let '(id, m) := NewObjectID m in
      let mc := mkMongoCard ca id in
      let '(err, m) := ReplaceOne_cards mc m in
      match err with
      | Some e => (ca :: rest, [], Some e, m)
      | None =>
          let '(rest', ids, err', m) := createCards rest m in
          (Card_withID ca (Hex id) :: rest', id :: ids, err', m)
      end
  end.

(** [func (m *Mongo) createAddresses(ctx, as []users.Address) ([]primitive.ObjectID, error)] *)
Fixpoint createAddresses (adrs : list Address) (m : Mongo)
    : list Address * list ObjectID * option error * Mongo :=
  match adrs with
  | [] => ([], [], None, m)
  | a :: rest =>
      let '(id, m) := NewObjectID m in
      let ma := mkMongoAddress a id in
      let '(err, m) := ReplaceOne_addresses ma m in
      match err with
      | Some e => (a :: rest, [], Some e, m)
      | None =>
          let '(rest', ids, err', m) := createAddresses rest m in
          (Address_withID a (Hex id) :: rest', id :: ids, err', m)
      end
  end.

(** [func (m *Mongo) cleanAttributes(mu MongoUser) error]: both results of
    [DeleteMany] are discarded and the function returns [nil]. *)
Definition cleanAttributes (mu : MongoUser) (m : Mongo) : option error * Mongo :=
  let '(_, m) := DeleteMany "addresses" (AddressIDs mu) m in
  let '(_, m) := DeleteMany "cards" (CardIDs mu) m in
  (None, m).

(** [func (m *Mongo) CreateUser(u *users.User) error].  The first
    component is [*u] as the caller finds it when the call returns:
    [mu.User = *u] copies the struct, not the two backing arrays, so the
    identifiers written by [createCards] and [createAddresses] are visible
    on every path, and [*u = mu.User] is reached on the last one only. *)
Definition CreateUser (u : User) (m : Mongo) : User * option error * Mongo :=
  let '(id, m) := NewObjectID m in
  let '(cs, cardIDs, carderr, m) := createCards (Cards u) m in
  let '(adrs, addressIDs, addrerr, m) := createAddresses (Addresses u) m in
  let u := User_withAddresses (User_withCards u cs) adrs in
  let mu := mkMongoUser u id addressIDs cardIDs in
  let '(err, m) := ReplaceOne_customers mu m in
  match err with
  | Some e =>
      let '(_, m) := cleanAttributes mu m in
      (u, Some e, m)
  | None =>
      let mu := mkMongoUser (User_withUserID (MU_User mu) (Hex (MU_ID mu)))
                            (MU_ID mu) (AddressIDs mu) (CardIDs mu) in
      match carderr, addrerr with
      | None, None => (MU_User mu, None, m)
      | _, _ => (u, Some (ErrAttributes carderr addrerr), m)
      end
  end.

(** [func (m *Mongo) appendAttributeId(attr string, id primitive.ObjectID, userid string) error] *)
Definition appendAttributeId (attr : string) (id : ObjectID) (userid : string)
    (m : Mongo) : option error * Mongo :=
  match ObjectIDFromHex userid with
  | None => (Some ErrInvalidHex, m)
  | Some uid => UpdateOne_addToSet uid attr id m
  end.

(** [func (m *Mongo) GetUser(id string) (users.User, error)] *)
Definition GetUser (id : string) (m : Mongo) : User * option error * Mongo :=
  match ObjectIDFromHex id with
  | None => (users.New, Some ErrInvalidHexID, m)
  | Some uid =>
      let '(r, m) := FindOne "customers" (customers m) uid m in
      match r with
      | inl e => (users.New, Some e, m)
      | inr d => (MU_User (AddUserIDs (unmarshalUser New uid d)), None, m)
      end
  end.

(** The two validation loops of [GetUserAttributes]: the identifiers of
    the list, or [None] at the first one that is not a valid ObjectID. *)
Fixpoint addrIds (l : list Address) : option (list ObjectID) :=
  match l with
  | [] => Some []
  | a :: l' =>
      if IsValidObjectID (Address_ID a) then
        match addrIds l' with
        | Some ids => Some (fromHex_ (Address_ID a) :: ids)
        | None => None
        end
      else None
  end.

Fixpoint cardIds (l : list Card) : option (list ObjectID) :=
  match l with
  | [] => Some []
  | c :: l' =>
      if IsValidObjectID (Card_ID c) then
        match cardIds l' with
        | Some ids => Some (fromHex_ (Card_ID c) :: ids)
        | None => None
        end
      else None
  end.

Definition decodeAddress (kd : ObjectID * Address) : Address :=
  MA_Address (MongoAddress_AddID (mkMongoAddress kd.2 kd.1)).

Definition decodeCard (kd : ObjectID * Card) : Card :=
  MC_Card (MongoCard_AddID (mkMongoCard kd.2 kd.1)).

(** [func (m *Mongo) GetUserAttributes(u *users.User) error]; the first
    component is [*u] when the call returns.  The error of [cursor.All] is
    dropped, and whatever was decoded replaces the list. *)
Definition GetUserAttributes (u : User) (m : Mongo) : User * option error * Mongo :=
  match addrIds (Addresses u) with
  | None => (u, Some ErrInvalidHexID, m)
  | Some ids =>
      let '(r, m) := Find "addresses" (addresses m) ids m in
      let '(u, m) :=
        match r with
        | inl _ => (u, m)
        | inr cursorA =>
            let '(ma, _, m) := All "addresses" cursorA m in
            (User_withAddresses u (map decodeAddress ma), m)
        end in
      match cardIds (Cards u) with
      | None => (u, Some ErrInvalidHexID, m)
      | Some ids =>
          let '(r, m) := Find "cards" (cards m) ids m in
          let '(u, m) :=
            match r with
            | inl _ => (u, m)
            | inr cursorC =>
                let '(mc, _, m) := All "cards" cursorC m in
                (User_withCards u (map decodeCard mc), m)
            end in
          (u, None, m)
      end
  end.

(** [func (m *Mongo) GetCard(id string) (users.Card, error)] *)
Definition GetCard (id : string) (m : Mongo) : Card * option error * Mongo :=
  if negb (IsValidObjectID id) then (zeroCard, Some ErrInvalidHexID, m)
  else
    let cid := fromHex_ id in
    let '(r, m) := FindOne "cards" (cards m) cid m in
    match r with
    | inl e => (zeroCard, Some e, m)
    | inr d => (decodeCard (cid, d), None, m)
    end.

(** [func (m *Mongo) GetAddress(id string) (users.Address, error)] *)
Definition GetAddress (id : string) (m : Mongo) : Address * option error * Mongo :=
  if negb (IsValidObjectID id) then (zeroAddress, Some ErrInvalidHexID, m)
  else
    let aid := fromHex_ id in
    let '(r, m) := FindOne "addresses" (addresses m) aid m in
    match r with
    | inl e => (zeroAddress, Some e, m)
    | inr d => (decodeAddress (aid, d), None, m)
    end.

(** [func (m *Mongo) CreateCard(ca *users.Card, userid string) error]; the
    first component is [*ca] when the call returns. *)
Definition CreateCard (ca : Card) (userid : string) (m : Mongo)
    : Card * option error * Mongo :=
  if bool_decide (userid ≠ "") && negb (IsValidObjectID userid)
  then (ca, Some ErrInvalidHexID, m)
  else
    let '(id, m) := NewObjectID m in
    let mc := mkMongoCard ca id in
    let '(err, m) := ReplaceOne_cards mc m in
    match err with
    | Some e => (ca, Some e, m)
    | None =>
        let '(err, m) :=
          if bool_decide (userid ≠ "") then appendAttributeId "cards" (MC_ID mc) userid m
          else (None, m) in
        match err with
        | Some e => (ca, Some e, m)
        | None => (MC_Card (MongoCard_AddID mc), err, m)
        end
    end.

(** [func (m *Mongo) CreateAddress(a *users.Address, userid string) error] *)
Definition CreateAddress (a : Address) (userid : string) (m : Mongo)
    : Address * option error * Mongo :=
  if bool_decide (userid ≠ "") && negb (IsValidObjectID userid)
  then (a, Some ErrInvalidHexID, m)
  else
    let '(id, m) := NewObjectID m in
    let ma := mkMongoAddress a id in
    let '(err, m) := ReplaceOne_addresses ma m in
    match err with
    | Some e => (a, Some e, m)
    | None =>
        let '(err, m) :=
          if bool_decide (userid ≠ "") then appendAttributeId "addresses" (MA_ID ma) userid m
          else (None, m) in
        match err with
        | Some e => (a, Some e, m)
        | None => (MA_Address (MongoAddress_AddID ma), None, m)
        end
    end.

(** [func (m *Mongo) Delete(entity, id string) error] *)
Definition Delete (entity id : string) (m : Mongo) : option error * Mongo :=
  if negb (IsValidObjectID id) then (Some ErrInvalidHexID, m)
  else
    let oid := fromHex_ id in
    if decide (entity = "customers") then
      let '(u, err, m) := GetUser id m in
      match err with
      | Some e => (Some e, m)
      | None =>
          let aids := omap (λ a, ObjectIDFromHex (Address_ID a)) (Addresses u) in
          let cids := omap (λ c, ObjectIDFromHex (Card_ID c)) (Cards u) in
          let '(_, m) := DeleteMany "addresses" aids m in
          let '(_, m) := DeleteMany "cards" cids m in
          DeleteOne entity oid m
      end
    else
      let '(_, m) := UpdateMany_pull entity oid m in
      DeleteOne entity oid m.

End Repository.

(** ** The rest of the repository: queries, unlinking, index and ping *)

(** The state once a driver call that carries no ObjectID has been made (a
    scan of a collection, a query by username, closing a cursor, the index
    build, the ping).  [Call] has no entry for these: they are counted, and
    draw their outcome from the oracle like the others, but not listed. *)
Definition counted (m : Mongo) : Mongo :=
  mkMongo (customers m) (addresses m) (cards m) (usernameIndex m)
          (noid m) (S (ncall m)) (calls m).

Definition with_usernameIndex (b : bool) (m : Mongo) : Mongo :=
  mkMongo (customers m) (addresses m) (cards m) b (noid m) (ncall m) (calls m).

(** No two customers share a username. *)
Definition usernamesUnique (cs : gmap ObjectID CustomerDoc) : bool :=
  bool_decide (NoDup (map (λ kd, d_username kd.2) (map_to_list cs))).

Section Queries.

Variable fault_at : nat → option Fault.

Definition call_unlisted (m : Mongo) : option Fault * Mongo :=
  (fault_at (ncall m), counted m).

(** [customers.UpdateOne(ctx, bson.M{"_id": uid}, bson.M{"$pull": bson.M{attr: id}})] *)
Definition UpdateOne_pull (uid : ObjectID) (attr : string) (id : ObjectID)
    (m : Mongo) : option error * Mongo :=
  let '(f, m) := call fault_at (CUpdateOne uid "$pull" attr id) m in
  match f with
  | Some ft => (Some (backend ft), m)
  | None => (None, with_customers (alter (pull attr id) uid (customers m)) m)
  end.

(** [func (m *Mongo) removeAttributeId(attr string, id primitive.ObjectID, userid string) error] *)
Definition removeAttributeId (attr : string) (id : ObjectID) (userid : string)
    (m : Mongo) : option error * Mongo :=
  match ObjectIDFromHex userid with
  | None => (Some ErrInvalidHex, m)
  | Some uid => UpdateOne_pull uid attr id m
  end.

(** [customers.FindOne(ctx, bson.M{"username": name}).Decode(&mu)]: the
    first customer, in the order of the collection, that has the username. *)
Definition FindOne_username (name : string) (m : Mongo)
    : (error + ObjectID * CustomerDoc) * Mongo :=
  let '(f, m) := call_unlisted m in
  match f with
  | Some ft => (inl (backend ft), m)
  | None =>
      match list_find (λ kd, d_username kd.2 = name) (map_to_list (customers m)) with
      | Some (_, kd) => (inr kd, m)
      | None => (inl ErrNoDocuments, m)
      end
  end.

(** [func (m *Mongo) GetUserByName(name string) (users.User, error)] *)
Definition GetUserByName (name : string) (m : Mongo) : User * option error * Mongo :=
  let '(r, m) := FindOne_username name m in
  match r with
  | inl e => (users.New, Some e, m)
  | inr kd => (MU_User (AddUserIDs (unmarshalUser New kd.1 kd.2)), None, m)
  end.

(** [coll.Find(ctx, bson.M{})]: the cursor over the whole collection. *)
Definition FindAll {D} (coll : gmap ObjectID D) (m : Mongo)
    : (error + list (ObjectID * D)) * Mongo :=
  let '(f, m) := call_unlisted m in
  match f with
  | Some ft => (inl (backend ft), m)
  | None => (inr (map_to_list coll), m)
  end.

(** [defer cursor.Close(ctx)]: made when the function returns, its result
    dropped. *)
Definition Close (m : Mongo) : Mongo := (call_unlisted m).2.

(** [func (m *Mongo) GetUsers() ([]users.User, error)] *)
Definition GetUsers (m : Mongo) : list User * option error * Mongo :=
  let '(r, m) := FindAll (customers m) m in
  match r with
  | inl e => ([], Some e, m)
  | inr cursor =>
      let '(mus, err, m) := All fault_at "customers" cursor m in
      match err with
      | Some e => ([], Some e, Close m)
      | None =>
          (map (λ kd, MU_User (AddUserIDs (unmarshalUser New kd.1 kd.2))) mus,
           None, Close m)
      end
  end.

(** [func (m *Mongo) GetCards() ([]users.Card, error)] *)
Definition GetCards (m : Mongo) : list Card * option error * Mongo :=
  let '(r, m) := FindAll (cards m) m in
  match r with
  | inl e => ([], Some e, m)
  | inr cursor =>
      let '(mcs, err, m) := All fault_at "cards" cursor m in
      match err with
      | Some e => ([], Some e, Close m)
      | None => (map decodeCard mcs, None, Close m)
      end
  end.

(** [func (m *Mongo) GetAddresses() ([]users.Address, error)] *)
Definition GetAddresses (m : Mongo) : list Address * option error * Mongo :=
  let '(r, m) := FindAll (addresses m) m in
  match r with
  | inl e => ([], Some e, m)
  | inr cursor =>
      let '(mas, err, m) := All fault_at "addresses" cursor m in
      match err with
      | Some e => ([], Some e, Close m)
      | None => (map decodeAddress mas, None, Close m)
      end
  end.

(** [func (m *Mongo) EnsureIndexes() error]: building the unique index on
    username fails when two customers already share one; building it again
    is accepted. *)
Definition EnsureIndexes (m : Mongo) : option error * Mongo :=
  let '(f, m) := call_unlisted m in
  match f with
  | Some ft => (Some (backend ft), m)
  | None =>
      if usernameIndex m then (None, m)
      else if usernamesUnique (customers m) then (None, with_usernameIndex true m)
      else (Some ErrDuplicateKey, m)
  end.

(** [func (m *Mongo) Ping() error] *)
Definition Ping (m : Mongo) : option error * Mongo :=
  let '(f, m) := call_unlisted m in
  match f with
  | Some ft => (Some (backend ft), m)
  | None => (None, m)
  end.

End Queries.

(** The records, the index flag and the identifier supply of [m'] are those
    of [m]: nothing was written between the two states. *)
Definition same_records (m m' : Mongo) : Prop :=
  customers m' = customers m ∧ addresses m' = addresses m ∧ cards m' = cards m ∧
  usernameIndex m' = usernameIndex m ∧ noid m' = noid m.

(** The user that GetUser, GetUserByName and GetUsers build from the
    customer document [d] stored under [k]: decoded into [New()], then
    [AddUserIDs]. *)
Definition fetched (k : ObjectID) (d : CustomerDoc) : User :=
  MU_User (AddUserIDs (unmarshalUser New k d)).

(** Nothing was added between [m] and [m']: every address and card record
    of [m'] is a record of [m], and every customer of [m'] is a customer of
    [m] with the same scalar fields and no reference it did not have. *)
Definition only_removes (m m' : Mongo) : Prop :=
  addresses m' ⊆ addresses m ∧ cards m' ⊆ cards m ∧
  (∀ k d', customers m' !! k = Some d' →
     ∃ d, customers m !! k = Some d ∧
          d_firstName d' = d_firstName d ∧ d_lastName d' = d_lastName d ∧
          d_username d' = d_username d ∧ d_password d' = d_password d ∧
          d_links d' = d_links d ∧
          d_addresses d' ⊆ d_addresses d ∧ d_cards d' ⊆ d_cards d) ∧
  usernameIndex m' = usernameIndex m ∧ noid m' = noid m.

(** ** Sample data: identifiers, oracles and stores used in the examples *)

Definition oid (b : byte) : ObjectID :=
  exist _ [x00; x00; x00; x00; x00; x00; x00; x00; x00; x00; x00; b] eq_refl.

(** An identifier source that counts up from 1. *)
Definition counting (n : nat) : ObjectID :=
  oid (default xff (Byte.of_nat (S n))).

Definition healthy : nat → option Fault := λ _, None.

(** The [k]th driver call fails, all others go through. *)
Definition failing_at (k : nat) (ft : Fault) : nat → option Fault :=
  λ n, if decide (n = k) then Some ft else None.

Definition emptyMongo : Mongo := mkMongo ∅ ∅ ∅ true 0 0 [].

Definition mainSt : Address := mkAddress "" "Main St" "Springfield" "12345" "US".
Definition elmSt : Address := mkAddress "" "Elm St" "Shelbyville" "54321" "US".
Definition visa : Card := mkCard "" "4111111111111111" "12/30" "123".

Definition alice : User := mkUser "Alice" "A" "alice" "pw" [mainSt] [visa] "" [].

(** The store once alice has been created on a healthy backend: her record
    is under [counting 0], her card under [counting 1] and her address under
    [counting 2]. *)
Definition aliceStore : Mongo := (CreateUser counting healthy alice emptyMongo).2.

(** alice as GetUser returns her: placeholders in both lists. *)
Definition aliceFetched : User := (GetUser healthy (Hex (counting 0)) aliceStore).1.1.

(** The same user with a malformed identifier in her card list. *)
Definition aliceBadCard : User :=
  User_withCards aliceFetched [Card_withID zeroCard "not-an-id"].

(** And with a malformed identifier in her address list. *)
Definition aliceBadAddress : User :=
  User_withAddresses aliceFetched [Address_withID zeroAddress "not-an-id"].

(** A storage failure with error code 7 that strikes before any document
    has been decoded. *)
Definition outage : Fault := mkFault 7 0.

(** The driver calls number [n], ..., [n + k - 1] all go through. *)
Definition goes_through (fault_at : nat → option Fault) (n k : nat) : Prop :=
  ∀ i, i < k → fault_at (i + n) = None.

(** A store like [aliceStore] on which the unique index has not been built
    yet, and an empty one. *)
Definition aliceStoreNoIndex : Mongo := with_usernameIndex false aliceStore.
Definition emptyNoIndex : Mongo := with_usernameIndex false emptyMongo.

(** The customer document of alice in [aliceStore]. *)
Definition aliceDoc : CustomerDoc :=
  mkCustomerDoc "Alice" "A" "alice" "pw" [] [counting 2] [counting 1].

(** * Properties *)

(** ** The identifier codec *)

Lemma hex_byte_roundtrip (b : byte) :
  match fromHexChar (hextable (Byte.to_N b / 16)),
        fromHexChar (hextable (Byte.to_N b mod 16)) with
  | Some hi, Some lo => Byte.of_N (16 * hi + lo)
  | _, _ => None
  end = Some b.
Proof. destruct b; vm_compute; reflexivity. Qed.

Lemma DecodeString_EncodeToString (bs : list byte) :
  DecodeString (EncodeToString bs) = Some bs.
Proof.
  induction bs as [|b bs IH]; [reflexivity|].
  cbn [EncodeToString DecodeString].
  pose proof (hex_byte_roundtrip b) as Hb.
  destruct (fromHexChar (hextable (Byte.to_N b / 16))) as [hi|]; [|discriminate].
  destruct (fromHexChar (hextable (Byte.to_N b mod 16))) as [lo|]; [|discriminate].
  rewrite Hb, IH. reflexivity.
Qed.

Lemma length_EncodeToString (bs : list byte) :
  String.length (EncodeToString bs) = 2 * length bs.
Proof.
  induction bs as [|b bs IH]; [reflexivity|].
  cbn [EncodeToString String.length length]. rewrite IH. lia.
Qed.

Lemma ObjectIDFromHex_Hex (id : ObjectID) : ObjectIDFromHex (Hex id) = Some id.
Proof.
  destruct id as [bs Hlen]. unfold ObjectIDFromHex, Hex. cbn [proj1_sig].
  rewrite decide_True by (rewrite length_EncodeToString, Hlen; reflexivity).
  rewrite DecodeString_EncodeToString.
  destruct (decide (length bs = 12)) as [H|H]; [|contradiction].
  f_equal. apply (sig_eq_pi (λ l : list byte, length l = 12)). reflexivity.
Qed.

Lemma IsValidObjectID_Hex (id : ObjectID) : IsValidObjectID (Hex id) = true.
Proof. unfold IsValidObjectID. rewrite ObjectIDFromHex_Hex. reflexivity. Qed.

Lemma fromHex_Hex (id : ObjectID) : fromHex_ (Hex id) = id.
Proof. unfold fromHex_. rewrite ObjectIDFromHex_Hex. reflexivity. Qed.

Lemma Hex_inj (a b : ObjectID) : Hex a = Hex b → a = b.
Proof.
  intros H. pose proof (ObjectIDFromHex_Hex a) as Ha.
  rewrite H, ObjectIDFromHex_Hex in Ha. congruence.
Qed.

Lemma IsValidObjectID_false (s : string) :
  ObjectIDFromHex s = None → IsValidObjectID s = false.
Proof. unfold IsValidObjectID. intros ->. reflexivity. Qed.

Lemma IsValidObjectID_true (s : string) (id : ObjectID) :
  ObjectIDFromHex s = Some id → IsValidObjectID s = true ∧ fromHex_ s = id.
Proof. unfold IsValidObjectID, fromHex_. intros ->. split; reflexivity. Qed.

Lemma empty_string_invalid : ObjectIDFromHex "" = None.
Proof. reflexivity. Qed.

Section Properties.

Variable gen : nat → ObjectID.
Variable flt : nat → option Fault.

(** C9: a malformed identifier makes GetUser, GetCard, GetAddress and
    Delete (for any entity kind) fail with ErrInvalidHexID, and CreateCard
    and CreateAddress too when it is passed as a non-empty userid; each of
    them returns the database state it was given, so no driver call was
    made and no record read or written before the format check. *)
Theorem malformed_id_is_rejected_first
    (s entity : string) (ca : Card) (a : Address) (m : Mongo) :
  ObjectIDFromHex s = None →
  GetUser flt s m = (users.New, Some ErrInvalidHexID, m) ∧
  GetCard flt s m = (zeroCard, Some ErrInvalidHexID, m) ∧
  GetAddress flt s m = (zeroAddress, Some ErrInvalidHexID, m) ∧
  Delete flt entity s m = (Some ErrInvalidHexID, m) ∧
  (s ≠ "" →
   CreateCard gen flt ca s m = (ca, Some ErrInvalidHexID, m) ∧
   CreateAddress gen flt a s m = (a, Some ErrInvalidHexID, m)).
Proof.
  intros Hbad. pose proof (IsValidObjectID_false s Hbad) as Hv.
  unfold GetUser, GetCard, GetAddress, Delete, CreateCard, CreateAddress.
  rewrite Hbad, Hv. cbn [negb].
  repeat split; try reflexivity;
    rewrite bool_decide_eq_true_2 by assumption; reflexivity.
Qed.

(** ** The driver calls, one equation each *)

Lemma FindOne_through {D} name (coll : gmap ObjectID D) id m :
  flt (ncall m) = None →
  FindOne flt name coll id m =
    (match coll !! id with Some d => inr d | None => inl ErrNoDocuments end,
     logged (CFindOne name id) m).
Proof. intros H. unfold FindOne, call. rewrite H. destruct (coll !! id); reflexivity. Qed.

Lemma DeleteMany_through name ids m :
  flt (ncall m) = None →
  DeleteMany flt name ids m =
    (None,
     let m := logged (CDeleteMany name ids) m in
     if decide (name = "customers") then with_customers (dropIn ids (customers m)) m
     else if decide (name = "addresses") then with_addresses (dropIn ids (addresses m)) m
     else if decide (name = "cards") then with_cards (dropIn ids (cards m)) m
     else m).
Proof. intros H. unfold DeleteMany, call. rewrite H. reflexivity. Qed.

Lemma DeleteMany_failed name ids m ft :
  flt (ncall m) = Some ft →
  DeleteMany flt name ids m = (Some (backend ft), logged (CDeleteMany name ids) m).
Proof. intros H. unfold DeleteMany, call. rewrite H. reflexivity. Qed.

Lemma DeleteOne_through name id m :
  flt (ncall m) = None →
  DeleteOne flt name id m =
    (None,
     let m := logged (CDeleteOne name id) m in
     if decide (name = "customers") then with_customers (delete id (customers m)) m
     else if decide (name = "addresses") then with_addresses (delete id (addresses m)) m
     else if decide (name = "cards") then with_cards (delete id (cards m)) m
     else m).
Proof. intros H. unfold DeleteOne, call. rewrite H. reflexivity. Qed.

Lemma DeleteOne_calls name id m :
  calls (DeleteOne flt name id m).2 = calls m ++ [CDeleteOne name id].
Proof.
  unfold DeleteOne, call. destruct (flt (ncall m)); [reflexivity|].
  cbn [snd]. repeat case_decide; reflexivity.
Qed.

Lemma DeleteOne_error name id m :
  (DeleteOne flt name id m).1 ≠ Some ErrNoDocuments.
Proof. unfold DeleteOne, call. destruct (flt (ncall m)); cbn; discriminate. Qed.

Lemma DeleteMany_calls name ids m :
  calls (DeleteMany flt name ids m).2 = calls m ++ [CDeleteMany name ids] ∧
  ncall (DeleteMany flt name ids m).2 = S (ncall m).
Proof.
  unfold DeleteMany, call. destruct (flt (ncall m)); [split; reflexivity|].
  cbn [snd]. repeat case_decide; split; reflexivity.
Qed.

Lemma UpdateMany_pull_through attr id m :
  flt (ncall m) = None →
  UpdateMany_pull flt attr id m =
    (None, let m := logged (CUpdateMany "$pull" attr id) m in
           with_customers (pull attr id <$> customers m) m).
Proof. intros H. unfold UpdateMany_pull, call. rewrite H. reflexivity. Qed.

Lemma UpdateMany_pull_calls attr id m :
  calls (UpdateMany_pull flt attr id m).2 = calls m ++ [CUpdateMany "$pull" attr id] ∧
  ncall (UpdateMany_pull flt attr id m).2 = S (ncall m).
Proof.
  unfold UpdateMany_pull, call. destruct (flt (ncall m)); split; reflexivity.
Qed.

(** ** Placeholders and identifier lists *)

Lemma omap_address_placeholders (l : list ObjectID) :
  omap (λ a, ObjectIDFromHex (Address_ID a))
       (map (λ id, Address_withID zeroAddress (Hex id)) l) = l.
Proof.
  induction l as [|x l IH]; [reflexivity|].
  cbn [map omap list_omap]. cbn [Address_withID Address_ID].
  rewrite ObjectIDFromHex_Hex. f_equal. exact IH.
Qed.

Lemma omap_card_placeholders (l : list ObjectID) :
  omap (λ c, ObjectIDFromHex (Card_ID c))
       (map (λ id, Card_withID zeroCard (Hex id)) l) = l.
Proof.
  induction l as [|x l IH]; [reflexivity|].
  cbn [map omap list_omap]. cbn [Card_withID Card_ID].
  rewrite ObjectIDFromHex_Hex. f_equal. exact IH.
Qed.

Lemma GetUser_found id uid d m :
  ObjectIDFromHex id = Some uid → flt (ncall m) = None →
  customers m !! uid = Some d →
  GetUser flt id m =
    (MU_User (AddUserIDs (unmarshalUser New uid d)), None,
     logged (CFindOne "customers" uid) m).
Proof.
  intros Hid Hf Hd. unfold GetUser. rewrite Hid, FindOne_through, Hd by assumption.
  reflexivity.
Qed.

Lemma GetUser_missing id uid m :
  ObjectIDFromHex id = Some uid → flt (ncall m) = None →
  customers m !! uid = None →
  GetUser flt id m =
    (users.New, Some ErrNoDocuments, logged (CFindOne "customers" uid) m).
Proof.
  intros Hid Hf Hd. unfold GetUser. rewrite Hid, FindOne_through, Hd by assumption.
  reflexivity.
Qed.

Lemma lookup_dropIn_elem {D} (ids : list ObjectID) (coll : gmap ObjectID D) id :
  id ∈ ids → dropIn ids coll !! id = None.
Proof.
  intros Hin. unfold dropIn. apply map_lookup_filter_None. right.
  intros d _ Hn. cbn in Hn. contradiction.
Qed.

Lemma GetAddress_missing (id : ObjectID) m :
  flt (ncall m) = None → addresses m !! id = None →
  (GetAddress flt (Hex id) m).1 = (zeroAddress, Some ErrNoDocuments).
Proof.
  intros Hf Hd. unfold GetAddress.
  rewrite IsValidObjectID_Hex, fromHex_Hex. cbn [negb].
  rewrite FindOne_through, Hd by assumption. reflexivity.
Qed.

Lemma GetCard_missing (id : ObjectID) m :
  flt (ncall m) = None → cards m !! id = None →
  (GetCard flt (Hex id) m).1 = (zeroCard, Some ErrNoDocuments).
Proof.
  intros Hf Hd. unfold GetCard.
  rewrite IsValidObjectID_Hex, fromHex_Hex. cbn [negb].
  rewrite FindOne_through, Hd by assumption. reflexivity.
Qed.

(** ** Delete *)

Lemma goes_through_0 n k : goes_through flt n (S k) → flt n = None.
Proof. intros H. apply (H 0). lia. Qed.

Lemma goes_through_S n k : goes_through flt n (S k) → goes_through flt (S n) k.
Proof.
  intros H i Hi. replace (i + S n) with (S i + n) by lia. apply H. lia.
Qed.

Lemma Delete_customers_found id uid d m :
  ObjectIDFromHex id = Some uid → flt (ncall m) = None →
  customers m !! uid = Some d →
  Delete flt "customers" id m =
    let m := logged (CFindOne "customers" uid) m in
    let m := (DeleteMany flt "addresses" (d_addresses d) m).2 in
    let m := (DeleteMany flt "cards" (d_cards d) m).2 in
    DeleteOne flt "customers" uid m.
Proof.
  intros Hid Hf Hd. unfold Delete.
  destruct (IsValidObjectID_true _ _ Hid) as [-> ->]. cbn [negb].
  rewrite decide_True by reflexivity.
  rewrite (GetUser_found _ _ _ _ Hid Hf Hd).
  cbn [AddUserIDs unmarshalUser New MU_User MU_ID AddressIDs CardIDs
       User_withUserID User_withCards User_withAddresses Addresses Cards
       users.New app].
  rewrite omap_address_placeholders, omap_card_placeholders.
  cbv zeta.
  destruct (DeleteMany flt "addresses" _ _) as [e1 m1]. cbn [snd].
  destruct (DeleteMany flt "cards" _ _) as [e2 m2]. reflexivity.
Qed.

(** C3: deleting a customer.  With a well-formed id and a fetch that meets
    no storage failure: when no customer has the id, Delete fails with
    ErrNoDocuments having issued the fetch only, and the three collections
    are as before; when the customer exists, Delete issues, in this order,
    a DeleteMany for all its address references, a DeleteMany for all its
    card references and the DeleteOne of the customer; when these go
    through, the customer and every linked record are gone, and a later
    GetAddress or GetCard on any linked id fails with ErrNoDocuments. *)
Theorem Delete_customers_cascades (id : string) (uid : ObjectID) (m : Mongo) :
  ObjectIDFromHex id = Some uid →
  flt (ncall m) = None →
  match customers m !! uid with
  | None =>
      ∃ m', Delete flt "customers" id m = (Some ErrNoDocuments, m') ∧
            customers m' = customers m ∧ addresses m' = addresses m ∧
            cards m' = cards m ∧
            calls m' = calls m ++ [CFindOne "customers" uid]
  | Some d =>
      ∃ err m', Delete flt "customers" id m = (err, m') ∧
        calls m' = calls m ++ [CFindOne "customers" uid;
                               CDeleteMany "addresses" (d_addresses d);
                               CDeleteMany "cards" (d_cards d);
                               CDeleteOne "customers" uid] ∧
        (goes_through flt (S (ncall m)) 3 →
         err = None ∧
         customers m' = delete uid (customers m) ∧
         addresses m' = dropIn (d_addresses d) (addresses m) ∧
         cards m' = dropIn (d_cards d) (cards m) ∧
         (flt (ncall m') = None →
          (∀ a, a ∈ d_addresses d →
                (GetAddress flt (Hex a) m').1 = (zeroAddress, Some ErrNoDocuments)) ∧
          (∀ c, c ∈ d_cards d →
                (GetCard flt (Hex c) m').1 = (zeroCard, Some ErrNoDocuments))))
  end.
Proof.
  intros Hid Hf. destruct (customers m !! uid) as [d|] eqn:Hd.
  - rewrite (Delete_customers_found _ _ _ _ Hid Hf Hd). cbv zeta.
    set (m1 := logged (CFindOne "customers" uid) m).
    destruct (DeleteMany_calls "addresses" (d_addresses d) m1) as [Hc2 Hn2].
    set (m2 := (DeleteMany flt "addresses" (d_addresses d) m1).2) in *.
    destruct (DeleteMany_calls "cards" (d_cards d) m2) as [Hc3 Hn3].
    set (m3 := (DeleteMany flt "cards" (d_cards d) m2).2) in *.
    pose proof (DeleteOne_calls "customers" uid m3) as Hc4.
    destruct (DeleteOne flt "customers" uid m3) as [err m4] eqn:E4.
    cbn [snd] in Hc4. exists err, m4. split; [reflexivity|]. split.
    { rewrite Hc4, Hc3, Hc2. subst m1. cbn [logged calls].
      rewrite <- !app_assoc. reflexivity. }
    intros Hgo.
    assert (H1 : flt (ncall m1) = None) by exact (goes_through_0 _ _ Hgo).
    assert (H2 : flt (ncall m2) = None).
    { rewrite Hn2. exact (goes_through_0 _ _ (goes_through_S _ _ Hgo)). }
    assert (H3 : flt (ncall m3) = None).
    { rewrite Hn3, Hn2.
      exact (goes_through_0 _ _ (goes_through_S _ _ (goes_through_S _ _ Hgo))). }
    rewrite (DeleteOne_through _ _ _ H3) in E4.
    subst m3. rewrite (DeleteMany_through _ _ _ H2) in E4.
    subst m2. rewrite (DeleteMany_through _ _ _ H1) in E4.
    injection E4 as <- <-. cbn.
    split; [reflexivity|]. split; [reflexivity|].
    split; [reflexivity|]. split; [reflexivity|].
    intros Hnext. split.
    + intros a Ha. apply GetAddress_missing; [exact Hnext|].
      cbn. apply lookup_dropIn_elem, Ha.
    + intros c Hc. apply GetCard_missing; [exact Hnext|].
      cbn. apply lookup_dropIn_elem, Hc.
  - unfold Delete. destruct (IsValidObjectID_true _ _ Hid) as [-> _]. cbn [negb].
    rewrite decide_True by reflexivity.
    rewrite (GetUser_missing _ _ _ Hid Hf Hd).
    eexists. split; [reflexivity|]. repeat split; reflexivity.
Qed.

Lemma Delete_attribute_unfold entity id oid m :
  entity ≠ "customers" → ObjectIDFromHex id = Some oid →
  Delete flt entity id m =
    DeleteOne flt entity oid (UpdateMany_pull flt entity oid m).2.
Proof.
  intros Hne Hid. unfold Delete.
  destruct (IsValidObjectID_true _ _ Hid) as [-> ->]. cbn [negb].
  rewrite decide_False by exact Hne.
  destruct (UpdateMany_pull flt entity oid m) as [e1 m1]. reflexivity.
Qed.

Lemma pull_addresses oid d :
  d_addresses (pull "addresses" oid d) = filter (λ x, x ≠ oid) (d_addresses d) ∧
  d_cards (pull "addresses" oid d) = d_cards d ∧
  d_firstName (pull "addresses" oid d) = d_firstName d ∧
  d_lastName (pull "addresses" oid d) = d_lastName d ∧
  d_username (pull "addresses" oid d) = d_username d ∧
  d_password (pull "addresses" oid d) = d_password d ∧
  d_links (pull "addresses" oid d) = d_links d.
Proof. repeat split; reflexivity. Qed.

Lemma pull_cards oid d :
  d_cards (pull "cards" oid d) = filter (λ x, x ≠ oid) (d_cards d) ∧
  d_addresses (pull "cards" oid d) = d_addresses d ∧
  d_firstName (pull "cards" oid d) = d_firstName d ∧
  d_lastName (pull "cards" oid d) = d_lastName d ∧
  d_username (pull "cards" oid d) = d_username d ∧
  d_password (pull "cards" oid d) = d_password d ∧
  d_links (pull "cards" oid d) = d_links d.
Proof. repeat split; reflexivity. Qed.

Lemma filter_ne_absent (oid : ObjectID) (l : list ObjectID) :
  oid ∉ l → filter (λ x, x ≠ oid) l = l.
Proof.
  intros Hn. induction l as [|x l IH]; [reflexivity|].
  apply not_elem_of_cons in Hn as [Hx Hl].
  rewrite filter_cons_True by congruence. f_equal. exact (IH Hl).
Qed.

Lemma pull_addresses_absent oid d :
  oid ∉ d_addresses d → pull "addresses" oid d = d.
Proof.
  intros Hn. pose proof (pull_addresses oid d) as (H1 & H2 & H3 & H4 & H5 & H6 & H7).
  rewrite (filter_ne_absent _ _ Hn) in H1.
  destruct d, (pull "addresses" oid _). cbn in *. congruence.
Qed.

Lemma pull_cards_absent oid d :
  oid ∉ d_cards d → pull "cards" oid d = d.
Proof.
  intros Hn. pose proof (pull_cards oid d) as (H1 & H2 & H3 & H4 & H5 & H6 & H7).
  rewrite (filter_ne_absent _ _ Hn) in H1.
  destruct d, (pull "cards" oid _). cbn in *. congruence.
Qed.

(** C4: deleting an address or a card.  With a well-formed id, Delete
    issues the UpdateMany that pulls the id from the matching reference
    list of all customers and then the DeleteOne of the record.  When both
    go through: every customer holds its former references minus that id,
    in their former order, and all its other fields as before; a customer
    that did not hold the id is unchanged; the record is deleted from its
    collection and the other collection is untouched. *)
Theorem Delete_attribute_pulls_reference_first (id : string) (oid : ObjectID) (m : Mongo) :
  ObjectIDFromHex id = Some oid →
  (∃ err m', Delete flt "addresses" id m = (err, m') ∧
     calls m' = calls m ++ [CUpdateMany "$pull" "addresses" oid;
                            CDeleteOne "addresses" oid] ∧
     (goes_through flt (ncall m) 2 →
      err = None ∧
      addresses m' = delete oid (addresses m) ∧ cards m' = cards m ∧
      ∀ k, match customers m !! k with
           | None => customers m' !! k = None
           | Some d =>
               ∃ d', customers m' !! k = Some d' ∧
                 d_addresses d' = filter (λ x, x ≠ oid) (d_addresses d) ∧
                 d_cards d' = d_cards d ∧
                 d_username d' = d_username d ∧ d_password d' = d_password d ∧
                 d_firstName d' = d_firstName d ∧ d_lastName d' = d_lastName d ∧
                 d_links d' = d_links d ∧
                 (oid ∉ d_addresses d → d' = d)
           end)) ∧
  (∃ err m', Delete flt "cards" id m = (err, m') ∧
     calls m' = calls m ++ [CUpdateMany "$pull" "cards" oid;
                            CDeleteOne "cards" oid] ∧
     (goes_through flt (ncall m) 2 →
      err = None ∧
      cards m' = delete oid (cards m) ∧ addresses m' = addresses m ∧
      ∀ k, match customers m !! k with
           | None => customers m' !! k = None
           | Some d =>
               ∃ d', customers m' !! k = Some d' ∧
                 d_cards d' = filter (λ x, x ≠ oid) (d_cards d) ∧
                 d_addresses d' = d_addresses d ∧
                 d_username d' = d_username d ∧ d_password d' = d_password d ∧
                 d_firstName d' = d_firstName d ∧ d_lastName d' = d_lastName d ∧
                 d_links d' = d_links d ∧
                 (oid ∉ d_cards d → d' = d)
           end)).
Proof.
  intros Hid. split.
  - rewrite (Delete_attribute_unfold "addresses" id oid m) by (discriminate || exact Hid).
    destruct (UpdateMany_pull_calls "addresses" oid m) as [Hc1 Hn1].
    pose proof (DeleteOne_calls "addresses" oid (UpdateMany_pull flt "addresses" oid m).2) as Hc2.
    destruct (DeleteOne flt "addresses" oid _) as [err m2] eqn:E2.
    exists err, m2. split; [reflexivity|]. split.
    { cbn [snd] in Hc2. rewrite Hc2, Hc1, <- app_assoc. reflexivity. }
    intros Hgo.
    assert (H0 : flt (ncall m) = None) by exact (goes_through_0 _ _ Hgo).
    assert (H1 : flt (S (ncall m)) = None)
      by exact (goes_through_0 _ _ (goes_through_S _ _ Hgo)).
    rewrite (UpdateMany_pull_through _ _ _ H0) in E2.
    rewrite DeleteOne_through in E2 by exact H1.
    injection E2 as <- <-. cbn.
    split; [reflexivity|]. split; [reflexivity|]. split; [reflexivity|].
    intros k. rewrite lookup_fmap.
    destruct (customers m !! k) as [d|]; [|reflexivity].
    exists (pull "addresses" oid d). split; [reflexivity|].
    repeat split; try reflexivity. apply pull_addresses_absent.
  - rewrite (Delete_attribute_unfold "cards" id oid m) by (discriminate || exact Hid).
    destruct (UpdateMany_pull_calls "cards" oid m) as [Hc1 Hn1].
    pose proof (DeleteOne_calls "cards" oid (UpdateMany_pull flt "cards" oid m).2) as Hc2.
    destruct (DeleteOne flt "cards" oid _) as [err m2] eqn:E2.
    exists err, m2. split; [reflexivity|]. split.
    { cbn [snd] in Hc2. rewrite Hc2, Hc1, <- app_assoc. reflexivity. }
    intros Hgo.
    assert (H0 : flt (ncall m) = None) by exact (goes_through_0 _ _ Hgo).
    assert (H1 : flt (S (ncall m)) = None)
      by exact (goes_through_0 _ _ (goes_through_S _ _ Hgo)).
    rewrite (UpdateMany_pull_through _ _ _ H0) in E2.
    rewrite DeleteOne_through in E2 by exact H1.
    injection E2 as <- <-. cbn.
    split; [reflexivity|]. split; [reflexivity|]. split; [reflexivity|].
    intros k. rewrite lookup_fmap.
    destruct (customers m !! k) as [d|]; [|reflexivity].
    exists (pull "cards" oid d). split; [reflexivity|].
    repeat split; try reflexivity. apply pull_cards_absent.
Qed.

(** C5, amended: deleting with a well-formed id that has no record.  For
    customers the fetch finds nothing and Delete fails with ErrNoDocuments.
    For addresses and for cards Delete never reports ErrNoDocuments: when
    its two driver calls go through it returns no error, and the address
    and card collections are as before. *)
Theorem Delete_of_missing_record (id : string) (oid : ObjectID) (m : Mongo) :
  ObjectIDFromHex id = Some oid →
  (customers m !! oid = None → flt (ncall m) = None →
   (Delete flt "customers" id m).1 = Some ErrNoDocuments) ∧
  (addresses m !! oid = None →
   (Delete flt "addresses" id m).1 ≠ Some ErrNoDocuments ∧
   (goes_through flt (ncall m) 2 →
    ∃ m', Delete flt "addresses" id m = (None, m') ∧
          addresses m' = addresses m ∧ cards m' = cards m)) ∧
  (cards m !! oid = None →
   (Delete flt "cards" id m).1 ≠ Some ErrNoDocuments ∧
   (goes_through flt (ncall m) 2 →
    ∃ m', Delete flt "cards" id m = (None, m') ∧
          addresses m' = addresses m ∧ cards m' = cards m)).
Proof.
  intros Hid. split; [|split].
  - intros Hd Hf. unfold Delete.
    destruct (IsValidObjectID_true _ _ Hid) as [-> _]. cbn [negb].
    rewrite decide_True by reflexivity.
    rewrite (GetUser_missing _ _ _ Hid Hf Hd). reflexivity.
  - intros Hd.
    rewrite (Delete_attribute_unfold "addresses" id oid m) by (discriminate || exact Hid).
    split; [apply DeleteOne_error|]. intros Hgo.
    assert (H0 : flt (ncall m) = None) by exact (goes_through_0 _ _ Hgo).
    assert (H1 : flt (S (ncall m)) = None)
      by exact (goes_through_0 _ _ (goes_through_S _ _ Hgo)).
    rewrite (UpdateMany_pull_through _ _ _ H0).
    rewrite DeleteOne_through by exact H1.
    eexists. split; [reflexivity|]. cbn. split; [|reflexivity].
    apply delete_id, Hd.
  - intros Hd.
    rewrite (Delete_attribute_unfold "cards" id oid m) by (discriminate || exact Hid).
    split; [apply DeleteOne_error|]. intros Hgo.
    assert (H0 : flt (ncall m) = None) by exact (goes_through_0 _ _ Hgo).
    assert (H1 : flt (S (ncall m)) = None)
      by exact (goes_through_0 _ _ (goes_through_S _ _ Hgo)).
    rewrite (UpdateMany_pull_through _ _ _ H0).
    rewrite DeleteOne_through by exact H1.
    eexists. split; [reflexivity|]. cbn. split; [reflexivity|].
    apply delete_id, Hd.
Qed.

(** ** CreateCard and CreateAddress *)

Lemma ReplaceOne_cards_through mc m :
  flt (ncall m) = None →
  ReplaceOne_cards flt mc m =
    (None, let m := logged (CReplaceOne "cards" (MC_ID mc)) m in
           with_cards (<[MC_ID mc := MC_Card mc]> (cards m)) m).
Proof. intros H. unfold ReplaceOne_cards, call. rewrite H. reflexivity. Qed.

Lemma ReplaceOne_addresses_through ma m :
  flt (ncall m) = None →
  ReplaceOne_addresses flt ma m =
    (None, let m := logged (CReplaceOne "addresses" (MA_ID ma)) m in
           with_addresses (<[MA_ID ma := MA_Address ma]> (addresses m)) m).
Proof. intros H. unfold ReplaceOne_addresses, call. rewrite H. reflexivity. Qed.

Lemma UpdateOne_addToSet_through uid attr id m :
  flt (ncall m) = None →
  UpdateOne_addToSet flt uid attr id m =
    (None, let m := logged (CUpdateOne uid "$addToSet" attr id) m in
           with_customers (alter (addToSet attr id) uid (customers m)) m).
Proof. intros H. unfold UpdateOne_addToSet, call. rewrite H. reflexivity. Qed.

Lemma valid_userid_nonempty userid uid :
  ObjectIDFromHex userid = Some uid →
  bool_decide (userid ≠ "") = true ∧ IsValidObjectID userid = true.
Proof.
  intros Hid. split.
  - apply bool_decide_eq_true_2. intros ->. rewrite empty_string_invalid in Hid.
    discriminate.
  - apply (IsValidObjectID_true _ _ Hid).
Qed.

(** C10: creating a card or an address for a well-formed userid that no
    customer has.  When the two driver calls go through, CreateCard (and
    CreateAddress alike) returns no error and hands back the entity with
    its new identifier; the record is stored under that identifier, the
    $addToSet update is issued for the userid and matches nothing, and the
    customers collection is exactly as before. *)
Theorem Create_attribute_for_unknown_user
    (ca : Card) (a : Address) (userid : string) (uid : ObjectID) (m : Mongo) :
  ObjectIDFromHex userid = Some uid →
  customers m !! uid = None →
  goes_through flt (ncall m) 2 →
  (∃ m', CreateCard gen flt ca userid m
           = (Card_withID ca (Hex (gen (noid m))), None, m') ∧
         cards m' = <[gen (noid m) := ca]> (cards m) ∧
         customers m' = customers m ∧ addresses m' = addresses m ∧
         calls m' = calls m ++ [CReplaceOne "cards" (gen (noid m));
                                CUpdateOne uid "$addToSet" "cards" (gen (noid m))]) ∧
  (∃ m', CreateAddress gen flt a userid m
           = (Address_withID a (Hex (gen (noid m))), None, m') ∧
         addresses m' = <[gen (noid m) := a]> (addresses m) ∧
         customers m' = customers m ∧ cards m' = cards m ∧
         calls m' = calls m ++ [CReplaceOne "addresses" (gen (noid m));
                                CUpdateOne uid "$addToSet" "addresses" (gen (noid m))]).
Proof.
  intros Hid Hnone Hgo.
  assert (H0 : flt (ncall m) = None) by exact (goes_through_0 _ _ Hgo).
  assert (H1 : flt (S (ncall m)) = None)
    by exact (goes_through_0 _ _ (goes_through_S _ _ Hgo)).
  destruct (valid_userid_nonempty _ _ Hid) as [Hne Hv].
  split.
  - unfold CreateCard. rewrite Hne, Hv. cbn [negb andb NewObjectID].
    rewrite ReplaceOne_cards_through by exact H0. cbv zeta.
    unfold appendAttributeId. rewrite Hid.
    rewrite UpdateOne_addToSet_through by exact H1.
    eexists. split; [reflexivity|]. cbn.
    split; [reflexivity|]. split; [apply alter_id', Hnone|].
    split; [reflexivity|]. rewrite <- app_assoc. reflexivity.
  - unfold CreateAddress. rewrite Hne, Hv. cbn [negb andb NewObjectID].
    rewrite ReplaceOne_addresses_through by exact H0. cbv zeta.
    unfold appendAttributeId. rewrite Hid.
    rewrite UpdateOne_addToSet_through by exact H1.
    eexists. split; [reflexivity|]. cbn.
    split; [reflexivity|]. split; [apply alter_id', Hnone|].
    split; [reflexivity|]. rewrite <- app_assoc. reflexivity.
Qed.

(** ** CreateUser *)

Lemma createCards_done cs : ∀ m cs' ids m',
  createCards gen flt cs m = (cs', ids, None, m') →
  length ids = length cs ∧
  map Card_ID cs' = map Hex ids ∧
  calls m' = calls m ++ map (CReplaceOne "cards") ids ∧
  customers m' = customers m ∧ addresses m' = addresses m.
Proof.
  induction cs as [|ca rest IH]; intros m cs' ids m' H.
  - injection H as <- <- <-. rewrite app_nil_r. repeat split; reflexivity.
  - cbn [createCards NewObjectID] in H.
    unfold ReplaceOne_cards, call in H. cbn [MC_ID MC_Card] in H.
    destruct (flt _) as [ft|]; [discriminate|].
    destruct (createCards gen flt rest _) as [[[rest' ids'] err'] m''] eqn:E.
    injection H as <- <- -> <-.
    apply IH in E as (Hl & Hid & Hc & Hcu & Ha).
    cbn [length map Card_withID Card_ID]. rewrite Hl, Hid, Hc, Hcu, Ha.
    cbn. rewrite <- app_assoc. repeat split; reflexivity.
Qed.

Lemma createAddresses_done adrs : ∀ m adrs' ids m',
  createAddresses gen flt adrs m = (adrs', ids, None, m') →
  length ids = length adrs ∧
  map Address_ID adrs' = map Hex ids ∧
  calls m' = calls m ++ map (CReplaceOne "addresses") ids ∧
  customers m' = customers m ∧ cards m' = cards m.
Proof.
  induction adrs as [|a rest IH]; intros m adrs' ids m' H.
  - injection H as <- <- <-. rewrite app_nil_r. repeat split; reflexivity.
  - cbn [createAddresses NewObjectID] in H.
    unfold ReplaceOne_addresses, call in H. cbn [MA_ID MA_Address] in H.
    destruct (flt _) as [ft|]; [discriminate|].
    destruct (createAddresses gen flt rest _) as [[[rest' ids'] err'] m''] eqn:E.
    injection H as <- <- -> <-.
    apply IH in E as (Hl & Hid & Hc & Hcu & Ha).
    cbn [length map Address_withID Address_ID]. rewrite Hl, Hid, Hc, Hcu, Ha.
    cbn. rewrite <- app_assoc. repeat split; reflexivity.
Qed.

Lemma ReplaceOne_customers_failed mu m e m' :
  ReplaceOne_customers flt mu m = (Some e, m') →
  m' = logged (CReplaceOne "customers" (MU_ID mu)) m.
Proof.
  unfold ReplaceOne_customers, call. destruct (flt _) as [ft|].
  - intros H. injection H as _ <-. reflexivity.
  - destruct (_ && _); intros H; [|discriminate].
    injection H as _ <-. reflexivity.
Qed.

Lemma DeleteMany_addresses ids m :
  DeleteMany flt "addresses" ids m =
    match flt (ncall m) with
    | Some ft => (Some (backend ft), logged (CDeleteMany "addresses" ids) m)
    | None => (None, with_addresses (dropIn ids (addresses m))
                       (logged (CDeleteMany "addresses" ids) m))
    end.
Proof. unfold DeleteMany, call. destruct (flt (ncall m)); reflexivity. Qed.

Lemma DeleteMany_cards ids m :
  DeleteMany flt "cards" ids m =
    match flt (ncall m) with
    | Some ft => (Some (backend ft), logged (CDeleteMany "cards" ids) m)
    | None => (None, with_cards (dropIn ids (cards m))
                       (logged (CDeleteMany "cards" ids) m))
    end.
Proof. unfold DeleteMany, call. destruct (flt (ncall m)); reflexivity. Qed.

Lemma cleanAttributes_effect mu m :
  ∃ m', cleanAttributes flt mu m = (None, m') ∧
    calls m' = calls m ++ [CDeleteMany "addresses" (AddressIDs mu);
                           CDeleteMany "cards" (CardIDs mu)] ∧
    customers m' = customers m ∧
    (flt (ncall m) = None → ∀ id, id ∈ AddressIDs mu → addresses m' !! id = None) ∧
    (flt (S (ncall m)) = None → ∀ id, id ∈ CardIDs mu → cards m' !! id = None).
Proof.
  unfold cleanAttributes. rewrite DeleteMany_addresses.
  destruct (flt (ncall m)) as [f1|] eqn:E1; rewrite DeleteMany_cards;
    cbn [logged ncall with_addresses];
    destruct (flt (S (ncall m))) as [f2|] eqn:E2;
    (eexists; split; [reflexivity|]); cbn; rewrite <- app_assoc;
    (split; [reflexivity|]); (split; [reflexivity|]); split;
    intros Hf; try discriminate; intros id Hin; apply lookup_dropIn_elem, Hin.
Qed.

(** C1: when createCards and createAddresses both return no error and
    the upsert of the customer record then fails with [e], CreateUser
    issues a DeleteMany for all address identifiers and a DeleteMany for
    all card identifiers it has just written, one per embedded entity,
    and returns [e] itself, whatever the two deletes report; a delete
    that goes through leaves none of those records behind, and no
    customer record has been written. *)
Theorem CreateUser_failed_upsert_cleans_up
    (u : User) (m : Mongo) (cs : list Card) (cids : list ObjectID) (m1 : Mongo)
    (adrs : list Address) (aids : list ObjectID) (m2 : Mongo)
    (e : error) (m3 : Mongo) :
  createCards gen flt (Cards u) (NewObjectID gen m).2 = (cs, cids, None, m1) →
  createAddresses gen flt (Addresses u) m1 = (adrs, aids, None, m2) →
  ReplaceOne_customers flt
    (mkMongoUser (User_withAddresses (User_withCards u cs) adrs)
                 (NewObjectID gen m).1 aids cids) m2 = (Some e, m3) →
  ∃ u' m', CreateUser gen flt u m = (u', Some e, m') ∧
    length cids = length (Cards u) ∧ length aids = length (Addresses u) ∧
    calls m3 = calls m ++ map (CReplaceOne "cards") cids
                       ++ map (CReplaceOne "addresses") aids
                       ++ [CReplaceOne "customers" (gen (noid m))] ∧
    calls m' = calls m3 ++ [CDeleteMany "addresses" aids; CDeleteMany "cards" cids] ∧
    (flt (ncall m3) = None → ∀ id, id ∈ aids → addresses m' !! id = None) ∧
    (flt (S (ncall m3)) = None → ∀ id, id ∈ cids → cards m' !! id = None) ∧
    customers m' = customers m.
Proof.
  intros Hc Ha Hr. unfold CreateUser.
  destruct (NewObjectID gen m) as [uid m0] eqn:E0.
  cbn [fst snd] in Hc, Hr. rewrite Hc, Ha, Hr.
  unfold NewObjectID in E0. injection E0 as <- <-.
  destruct (cleanAttributes_effect
              (mkMongoUser (User_withAddresses (User_withCards u cs) adrs)
                           (gen (noid m)) aids cids) m3)
    as (m' & Hcl & Hcalls & Hcust & Hda & Hdc).
  rewrite Hcl. exists (User_withAddresses (User_withCards u cs) adrs), m'.
  split; [reflexivity|].
  apply createCards_done in Hc as (Hl1 & _ & Hc1 & Hcu1 & _).
  apply createAddresses_done in Ha as (Hl2 & _ & Hc2 & Hcu2 & _).
  pose proof (ReplaceOne_customers_failed _ _ _ _ Hr) as ->.
  cbn [AddressIDs CardIDs MU_ID logged calls customers ncall] in *.
  split; [exact Hl1|]. split; [exact Hl2|]. split.
  { rewrite Hc2, Hc1. cbn. rewrite <- !app_assoc. reflexivity. }
  split; [exact Hcalls|]. split; [exact Hda|]. split; [exact Hdc|].
  rewrite Hcust, Hcu2, Hcu1. reflexivity.
Qed.

(** ** GetUserAttributes *)

Lemma addrIds_valid (l : list Address) :
  Forall (λ a, IsValidObjectID (Address_ID a) = true) l →
  addrIds l = Some (map (λ a, fromHex_ (Address_ID a)) l).
Proof.
  induction 1 as [|a l Ha _ IH]; [reflexivity|].
  cbn [addrIds map]. rewrite Ha, IH. reflexivity.
Qed.

Lemma cardIds_valid (l : list Card) :
  Forall (λ c, IsValidObjectID (Card_ID c) = true) l →
  cardIds l = Some (map (λ c, fromHex_ (Card_ID c)) l).
Proof.
  induction 1 as [|c l Hc _ IH]; [reflexivity|].
  cbn [cardIds map]. rewrite Hc, IH. reflexivity.
Qed.

Lemma addrIds_invalid (l : list Address) :
  Exists (λ a, IsValidObjectID (Address_ID a) = false) l → addrIds l = None.
Proof.
  induction 1 as [a l Ha|a l _ IH]; cbn [addrIds].
  - rewrite Ha. reflexivity.
  - rewrite IH. destruct (IsValidObjectID _); reflexivity.
Qed.

Lemma cardIds_invalid (l : list Card) :
  Exists (λ c, IsValidObjectID (Card_ID c) = false) l → cardIds l = None.
Proof.
  induction 1 as [c l Hc|c l _ IH]; cbn [cardIds].
  - rewrite Hc. reflexivity.
  - rewrite IH. destruct (IsValidObjectID _); reflexivity.
Qed.

Lemma Find_eq {D} name (coll : gmap ObjectID D) ids m :
  Find flt name coll ids m =
    (match flt (ncall m) with
     | Some ft => inl (backend ft)
     | None => inr (map_to_list (selectIn ids coll))
     end, logged (CFind name ids) m).
Proof. unfold Find, call. destruct (flt (ncall m)); reflexivity. Qed.

Lemma All_eq {D} name (cursor : list (ObjectID * D)) m :
  All flt name cursor m =
    (match flt (ncall m) with
     | Some ft => take (f_done ft) cursor
     | None => cursor
     end,
     match flt (ncall m) with Some ft => Some (backend ft) | None => None end,
     logged (CAll name) m).
Proof. unfold All, call. destruct (flt (ncall m)); reflexivity. Qed.

Lemma elem_of_selected {D} (ids : list ObjectID) (coll : gmap ObjectID D) kd :
  kd ∈ map_to_list (selectIn ids coll) ↔ kd.1 ∈ ids ∧ coll !! kd.1 = Some kd.2.
Proof.
  destruct kd as [k d]. rewrite elem_of_map_to_list. unfold selectIn.
  rewrite map_lookup_filter_Some. cbn. tauto.
Qed.

Lemma elem_of_resolved_addresses ids (coll : gmap ObjectID Address) a :
  a ∈ map decodeAddress (map_to_list (selectIn ids coll)) ↔
  ∃ id d, id ∈ ids ∧ coll !! id = Some d ∧ a = Address_withID d (Hex id).
Proof.
  rewrite list_elem_of_In, in_map_iff. split.
  - intros ([k d] & <- & Hin). apply list_elem_of_In, elem_of_selected in Hin.
    exists k, d. cbn in Hin. destruct Hin. repeat split; assumption.
  - intros (k & d & Hin & Hd & ->). exists (k, d). split; [reflexivity|].
    apply list_elem_of_In, elem_of_selected. cbn. split; assumption.
Qed.

Lemma elem_of_resolved_cards ids (coll : gmap ObjectID Card) c :
  c ∈ map decodeCard (map_to_list (selectIn ids coll)) ↔
  ∃ id d, id ∈ ids ∧ coll !! id = Some d ∧ c = Card_withID d (Hex id).
Proof.
  rewrite list_elem_of_In, in_map_iff. split.
  - intros ([k d] & <- & Hin). apply list_elem_of_In, elem_of_selected in Hin.
    exists k, d. cbn in Hin. destruct Hin. repeat split; assumption.
  - intros (k & d & Hin & Hd & ->). exists (k, d). split; [reflexivity|].
    apply list_elem_of_In, elem_of_selected. cbn. split; assumption.
Qed.

Lemma NoDup_map_Hex (l : list ObjectID) : NoDup l → NoDup (map Hex l).
Proof.
  induction 1 as [|x l Hx _ IH]; cbn [map]; constructor; [|exact IH].
  rewrite list_elem_of_In, in_map_iff. intros (y & Hy & Hin).
  apply Hex_inj in Hy as ->. apply Hx, list_elem_of_In, Hin.
Qed.

Lemma NoDup_resolved_addresses ids (coll : gmap ObjectID Address) :
  NoDup (map Address_ID (map decodeAddress (map_to_list (selectIn ids coll)))).
Proof.
  rewrite map_map. cbn [decodeAddress MongoAddress_AddID MA_Address MA_ID
                        Address_withID Address_ID].
  rewrite <- (map_map fst Hex). apply NoDup_map_Hex.
  apply (NoDup_fst_map_to_list (selectIn ids coll)).
Qed.

Lemma NoDup_resolved_cards ids (coll : gmap ObjectID Card) :
  NoDup (map Card_ID (map decodeCard (map_to_list (selectIn ids coll)))).
Proof.
  rewrite map_map. cbn [decodeCard MongoCard_AddID MC_Card MC_ID
                        Card_withID Card_ID].
  rewrite <- (map_map fst Hex). apply NoDup_map_Hex.
  apply (NoDup_fst_map_to_list (selectIn ids coll)).
Qed.

(** C7: resolving a user whose address and card entries all carry
    well-formed identifiers, when the four driver calls go through.
    GetUserAttributes returns no error; the new address list holds, once
    each, exactly the stored records whose identifier is named in the old
    list, each with its identifier filled in, and likewise for cards; an
    identifier with no record contributes nothing.  The other fields of
    the user and the three collections are unchanged. *)
Theorem GetUserAttributes_resolves_existing (u : User) (m : Mongo) :
  Forall (λ a, IsValidObjectID (Address_ID a) = true) (Addresses u) →
  Forall (λ c, IsValidObjectID (Card_ID c) = true) (Cards u) →
  goes_through flt (ncall m) 4 →
  ∃ u' m', GetUserAttributes flt u m = (u', None, m') ∧
    (∀ a, a ∈ Addresses u' ↔
          ∃ a0 d, a0 ∈ Addresses u ∧
                  addresses m !! fromHex_ (Address_ID a0) = Some d ∧
                  a = Address_withID d (Hex (fromHex_ (Address_ID a0)))) ∧
    (∀ c, c ∈ Cards u' ↔
          ∃ c0 d, c0 ∈ Cards u ∧
                  cards m !! fromHex_ (Card_ID c0) = Some d ∧
                  c = Card_withID d (Hex (fromHex_ (Card_ID c0)))) ∧
    NoDup (map Address_ID (Addresses u')) ∧ NoDup (map Card_ID (Cards u')) ∧
    FirstName u' = FirstName u ∧ LastName u' = LastName u ∧
    Username u' = Username u ∧ Password u' = Password u ∧
    UserID u' = UserID u ∧ Links u' = Links u ∧
    customers m' = customers m ∧ addresses m' = addresses m ∧ cards m' = cards m.
Proof.
  intros Ha Hc Hgo.
  assert (H0 : flt (ncall m) = None) by exact (goes_through_0 _ _ Hgo).
  assert (H1 : flt (S (ncall m)) = None)
    by exact (goes_through_0 _ _ (goes_through_S _ _ Hgo)).
  assert (H2 : flt (S (S (ncall m))) = None)
    by exact (goes_through_0 _ _ (goes_through_S _ _ (goes_through_S _ _ Hgo))).
  assert (H3 : flt (S (S (S (ncall m)))) = None)
    by exact (goes_through_0 _ _
                (goes_through_S _ _ (goes_through_S _ _ (goes_through_S _ _ Hgo)))).
  unfold GetUserAttributes. rewrite (addrIds_valid _ Ha).
  rewrite Find_eq, H0, All_eq. cbn [logged ncall]. rewrite H1.
  cbn [User_withAddresses Cards]. rewrite (cardIds_valid _ Hc).
  rewrite Find_eq. cbn [logged ncall]. rewrite H2, All_eq.
  cbn [logged ncall]. rewrite H3.
  eexists _, _. split; [reflexivity|].
  cbn [User_withAddresses User_withCards Addresses Cards FirstName LastName
       Username Password UserID Links logged customers addresses cards].
  split; [|split].
  - intros a. rewrite elem_of_resolved_addresses. split.
    + intros (id & d & Hin & Hd & ->).
      apply list_elem_of_In, in_map_iff in Hin as (a0 & <- & Hin).
      exists a0, d. split; [apply list_elem_of_In, Hin|]. split; [exact Hd|reflexivity].
    + intros (a0 & d & Hin & Hd & ->). exists (fromHex_ (Address_ID a0)), d.
      split; [|split; [exact Hd|reflexivity]].
      apply list_elem_of_In, in_map_iff. exists a0. split; [reflexivity|].
      apply list_elem_of_In, Hin.
  - intros c. rewrite elem_of_resolved_cards. split.
    + intros (id & d & Hin & Hd & ->).
      apply list_elem_of_In, in_map_iff in Hin as (c0 & <- & Hin).
      exists c0, d. split; [apply list_elem_of_In, Hin|]. split; [exact Hd|reflexivity].
    + intros (c0 & d & Hin & Hd & ->). exists (fromHex_ (Card_ID c0)), d.
      split; [|split; [exact Hd|reflexivity]].
      apply list_elem_of_In, in_map_iff. exists c0. split; [reflexivity|].
      apply list_elem_of_In, Hin.
  - split; [apply NoDup_resolved_addresses|].
    split; [apply NoDup_resolved_cards|]. repeat split; reflexivity.
Qed.

(** C8, amended: storage failures while resolving a user whose entries
    all carry well-formed identifiers.  Whatever driver call fails,
    GetUserAttributes returns no error.  For each attribute kind: when its
    Find fails the list is left as it was; when its Find goes through and
    draining the cursor fails, the list is replaced by the records decoded
    before the failure; otherwise by all records found. *)
Theorem GetUserAttributes_swallows_storage_failures (u : User) (m : Mongo) :
  Forall (λ a, IsValidObjectID (Address_ID a) = true) (Addresses u) →
  Forall (λ c, IsValidObjectID (Card_ID c) = true) (Cards u) →
  let foundA := map_to_list
                  (selectIn (map (λ a, fromHex_ (Address_ID a)) (Addresses u))
                            (addresses m)) in
  let foundC := map_to_list
                  (selectIn (map (λ c, fromHex_ (Card_ID c)) (Cards u)) (cards m)) in
  let n := match flt (ncall m) with
           | Some _ => S (ncall m)
           | None => S (S (ncall m))
           end in
  ∃ u' m', GetUserAttributes flt u m = (u', None, m') ∧
    Addresses u' =
      match flt (ncall m) with
      | Some _ => Addresses u
      | None =>
          match flt (S (ncall m)) with
          | Some ft => map decodeAddress (take (f_done ft) foundA)
          | None => map decodeAddress foundA
          end
      end ∧
    Cards u' =
      match flt n with
      | Some _ => Cards u
      | None =>
          match flt (S n) with
          | Some ft => map decodeCard (take (f_done ft) foundC)
          | None => map decodeCard foundC
          end
      end.
Proof.
  intros Ha Hc. cbv zeta.
  unfold GetUserAttributes. rewrite (addrIds_valid _ Ha), Find_eq.
  destruct (flt (ncall m)) as [f0|] eqn:E0.
  - cbn [logged ncall]. rewrite (cardIds_valid _ Hc), Find_eq. cbn [logged ncall].
    destruct (flt (S (ncall m))) as [f1|] eqn:E1.
    + eexists _, _. split; [reflexivity|]. split; reflexivity.
    + rewrite All_eq. cbn [logged ncall].
      destruct (flt (S (S (ncall m)))) as [f2|] eqn:E2;
        (eexists _, _; split; [reflexivity|]; split; reflexivity).
  - rewrite All_eq. cbn [logged ncall].
    destruct (flt (S (ncall m))) as [f1|] eqn:E1;
      cbn [User_withAddresses Cards]; rewrite (cardIds_valid _ Hc), Find_eq;
      cbn [logged ncall];
      (destruct (flt (S (S (ncall m)))) as [f2|] eqn:E2;
       [ eexists _, _; split; [reflexivity|]; split; reflexivity
       | rewrite All_eq; cbn [logged ncall];
         destruct (flt (S (S (S (ncall m))))) as [f3|] eqn:E3;
         (eexists _, _; split; [reflexivity|]; split; reflexivity) ]).
Qed.

(** C6, amended: a malformed identifier among the entries of a user.
    When it is in the address list, GetUserAttributes fails with
    ErrInvalidHexID at once: the user and the database state are as they
    were.  When every address identifier is well-formed and the malformed
    one is in the card list, GetUserAttributes fails with ErrInvalidHexID
    after the address fetch: the card list is left as it was and no card
    is fetched, while the address list has been treated as in a call that
    succeeds (replaced by the decoded records unless its Find failed). *)
Theorem GetUserAttributes_malformed_id (u : User) (m : Mongo) :
  (Exists (λ a, IsValidObjectID (Address_ID a) = false) (Addresses u) →
   GetUserAttributes flt u m = (u, Some ErrInvalidHexID, m)) ∧
  (Forall (λ a, IsValidObjectID (Address_ID a) = true) (Addresses u) →
   Exists (λ c, IsValidObjectID (Card_ID c) = false) (Cards u) →
   let aids := map (λ a, fromHex_ (Address_ID a)) (Addresses u) in
   let foundA := map_to_list (selectIn aids (addresses m)) in
   ∃ u' m', GetUserAttributes flt u m = (u', Some ErrInvalidHexID, m') ∧
     Cards u' = Cards u ∧
     calls m' = calls m ++ CFind "addresses" aids ::
                  match flt (ncall m) with
                  | Some _ => []
                  | None => [CAll "addresses"]
                  end ∧
     Addresses u' =
       match flt (ncall m) with
       | Some _ => Addresses u
       | None =>
           match flt (S (ncall m)) with
           | Some ft => map decodeAddress (take (f_done ft) foundA)
           | None => map decodeAddress foundA
           end
       end).
Proof.
  split.
  - intros Hbad. unfold GetUserAttributes. rewrite (addrIds_invalid _ Hbad).
    reflexivity.
  - intros Ha Hbad. cbv zeta. unfold GetUserAttributes.
    rewrite (addrIds_valid _ Ha), Find_eq.
    destruct (flt (ncall m)) as [f0|] eqn:E0.
    + rewrite (cardIds_invalid _ Hbad). eexists _, _.
      split; [reflexivity|]. repeat split; reflexivity.
    + rewrite All_eq. cbn [logged ncall User_withAddresses Cards].
      rewrite (cardIds_invalid _ Hbad). eexists _, _.
      split; [reflexivity|]. split; [reflexivity|].
      split; [cbn; rewrite <- app_assoc; reflexivity|].
      cbn [Addresses logged]. destruct (flt (S (ncall m))); reflexivity.
Qed.

(** ** CreateUser when a sub-entity could not be created *)

Lemma createCards_ids cs : ∀ m cs' ids err m',
  createCards gen flt cs m = (cs', ids, err, m') →
  map Card_ID (take (length ids) cs') = map Hex ids ∧
  drop (length ids) cs' = drop (length ids) cs.
Proof.
  induction cs as [|ca rest IH]; intros m cs' ids err m' H.
  - injection H as <- <- <- <-. split; reflexivity.
  - cbn [createCards NewObjectID] in H.
    destruct (ReplaceOne_cards flt _ _) as [[e|] m0].
    + injection H as <- <- <- <-. split; reflexivity.
    + destruct (createCards gen flt rest m0) as [[[rest' ids'] err'] m''] eqn:E.
      injection H as <- <- <- <-. apply IH in E as [Hid Hdrop].
      cbn [length take drop map Card_withID Card_ID]. rewrite Hid, Hdrop.
      split; reflexivity.
Qed.

Lemma createAddresses_ids adrs : ∀ m adrs' ids err m',
  createAddresses gen flt adrs m = (adrs', ids, err, m') →
  map Address_ID (take (length ids) adrs') = map Hex ids ∧
  drop (length ids) adrs' = drop (length ids) adrs.
Proof.
  induction adrs as [|a rest IH]; intros m adrs' ids err m' H.
  - injection H as <- <- <- <-. split; reflexivity.
  - cbn [createAddresses NewObjectID] in H.
    destruct (ReplaceOne_addresses flt _ _) as [[e|] m0].
    + injection H as <- <- <- <-. split; reflexivity.
    + destruct (createAddresses gen flt rest m0) as [[[rest' ids'] err'] m''] eqn:E.
      injection H as <- <- <- <-. apply IH in E as [Hid Hdrop].
      cbn [length take drop map Address_withID Address_ID]. rewrite Hid, Hdrop.
      split; reflexivity.
Qed.

Lemma ReplaceOne_customers_stored mu m m' :
  ReplaceOne_customers flt mu m = (None, m') →
  customers m' !! MU_ID mu = Some (marshalUser mu).
Proof.
  unfold ReplaceOne_customers, call. destruct (flt _); [discriminate|].
  destruct (_ && _); [discriminate|]. intros H. injection H as <-.
  cbn. apply lookup_insert_eq.
Qed.

(** C2, amended: when createCards or createAddresses reported an error
    and the upsert of the customer record goes through, CreateUser returns
    the error that combines the two, having stored the customer under the
    generated identifier with the references created so far.  The caller's
    user is not overwritten: the entries of its lists that were created
    carry their new identifiers, written in place, and every other field,
    the UserID among them, is as it was passed in. *)
Theorem CreateUser_partial_failure_keeps_UserID
    (u : User) (m : Mongo) (cs : list Card) (cids : list ObjectID)
    (carderr : option error) (m1 : Mongo) (adrs : list Address)
    (aids : list ObjectID) (addrerr : option error) (m2 m3 : Mongo) :
  createCards gen flt (Cards u) (NewObjectID gen m).2 = (cs, cids, carderr, m1) →
  createAddresses gen flt (Addresses u) m1 = (adrs, aids, addrerr, m2) →
  ReplaceOne_customers flt
    (mkMongoUser (User_withAddresses (User_withCards u cs) adrs)
                 (NewObjectID gen m).1 aids cids) m2 = (None, m3) →
  carderr ≠ None ∨ addrerr ≠ None →
  ∃ u', CreateUser gen flt u m = (u', Some (ErrAttributes carderr addrerr), m3) ∧
    u' = User_withAddresses (User_withCards u cs) adrs ∧
    UserID u' = UserID u ∧
    map Card_ID (take (length cids) (Cards u')) = map Hex cids ∧
    drop (length cids) (Cards u') = drop (length cids) (Cards u) ∧
    map Address_ID (take (length aids) (Addresses u')) = map Hex aids ∧
    drop (length aids) (Addresses u') = drop (length aids) (Addresses u) ∧
    ∃ d, customers m3 !! gen (noid m) = Some d ∧
         d_cards d = cids ∧ d_addresses d = aids.
Proof.
  intros Hc Ha Hr Herr. unfold CreateUser.
  destruct (NewObjectID gen m) as [uid m0] eqn:E0.
  cbn [fst snd] in Hc, Hr. rewrite Hc, Ha, Hr.
  unfold NewObjectID in E0. injection E0 as <- <-.
  apply createCards_ids in Hc as [Hc Hc']. apply createAddresses_ids in Ha as [Ha Ha'].
  apply ReplaceOne_customers_stored in Hr. cbn [MU_ID] in Hr.
  exists (User_withAddresses (User_withCards u cs) adrs). split.
  - destruct carderr, addrerr; try reflexivity. destruct Herr; congruence.
  - cbn [User_withAddresses User_withCards UserID Cards Addresses].
    split; [reflexivity|]. split; [reflexivity|]. split; [exact Hc|].
    split; [exact Hc'|]. split; [exact Ha|]. split; [exact Ha'|].
    eexists. split; [exact Hr|]. split; reflexivity.
Qed.

End Properties.

(** * The theorems at concrete inputs *)

Lemma malformed_id_is_rejected_first_witness :
  ObjectIDFromHex "not-an-id" = None ∧
  GetUser healthy "not-an-id" emptyMongo = (users.New, Some ErrInvalidHexID, emptyMongo) ∧
  GetCard healthy "not-an-id" emptyMongo = (zeroCard, Some ErrInvalidHexID, emptyMongo) ∧
  GetAddress healthy "not-an-id" emptyMongo = (zeroAddress, Some ErrInvalidHexID, emptyMongo) ∧
  Delete healthy "cards" "not-an-id" emptyMongo = (Some ErrInvalidHexID, emptyMongo) ∧
  ("not-an-id" ≠ "" →
   CreateCard counting healthy visa "not-an-id" emptyMongo
     = (visa, Some ErrInvalidHexID, emptyMongo) ∧
   CreateAddress counting healthy mainSt "not-an-id" emptyMongo
     = (mainSt, Some ErrInvalidHexID, emptyMongo)).
Proof.
  split; [reflexivity|].
  apply (malformed_id_is_rejected_first counting healthy "not-an-id" "cards"
           visa mainSt emptyMongo).
  reflexivity.
Defined.

(** The upsert of alice fails: the third driver call is the one on
    customers. *)
Lemma CreateUser_failed_upsert_cleans_up_witness :
  let flt := failing_at 2 outage in
  let uid := counting 0 in
  let cids := [counting 1] in
  let aids := [counting 2] in
  let m3 := (ReplaceOne_customers flt
               (mkMongoUser
                  (User_withAddresses
                     (User_withCards alice [Card_withID visa (Hex (counting 1))])
                     [Address_withID mainSt (Hex (counting 2))])
                  uid aids cids)
               (createAddresses counting flt (Addresses alice)
                  (createCards counting flt (Cards alice)
                     (NewObjectID counting emptyMongo).2).2).2).2 in
  ∃ u' m', CreateUser counting flt alice emptyMongo = (u', Some (ErrBackend 7), m') ∧
    length cids = length (Cards alice) ∧ length aids = length (Addresses alice) ∧
    calls m3 = calls emptyMongo ++ map (CReplaceOne "cards") cids
                 ++ map (CReplaceOne "addresses") aids
                 ++ [CReplaceOne "customers" uid] ∧
    calls m' = calls m3 ++ [CDeleteMany "addresses" aids; CDeleteMany "cards" cids] ∧
    (flt (ncall m3) = None → ∀ id, id ∈ aids → addresses m' !! id = None) ∧
    (flt (S (ncall m3)) = None → ∀ id, id ∈ cids → cards m' !! id = None) ∧
    customers m' = customers emptyMongo.
Proof.
  cbv zeta.
  apply (CreateUser_failed_upsert_cleans_up counting (failing_at 2 outage)
           alice emptyMongo
           [Card_withID visa (Hex (counting 1))] [counting 1]
           (createCards counting (failing_at 2 outage) (Cards alice)
              (NewObjectID counting emptyMongo).2).2
           [Address_withID mainSt (Hex (counting 2))] [counting 2]
           (createAddresses counting (failing_at 2 outage) (Addresses alice)
              (createCards counting (failing_at 2 outage) (Cards alice)
                 (NewObjectID counting emptyMongo).2).2).2
           (ErrBackend 7)); vm_compute; reflexivity.
Defined.

Lemma healthy_goes_through (n k : nat) : goes_through healthy n k.
Proof. intros i _. reflexivity. Defined.

(** Deleting alice on a healthy backend. *)
Lemma Delete_customers_cascades_witness :
  ObjectIDFromHex (Hex (counting 0)) = Some (counting 0) ∧
  healthy (ncall aliceStore) = None ∧
  customers aliceStore !! counting 0
    = Some (mkCustomerDoc "Alice" "A" "alice" "pw" [] [counting 2] [counting 1]) ∧
  match customers aliceStore !! counting 0 with
  | None =>
      ∃ m', Delete healthy "customers" (Hex (counting 0)) aliceStore
              = (Some ErrNoDocuments, m') ∧
            customers m' = customers aliceStore ∧ addresses m' = addresses aliceStore ∧
            cards m' = cards aliceStore ∧
            calls m' = calls aliceStore ++ [CFindOne "customers" (counting 0)]
  | Some d =>
      ∃ err m', Delete healthy "customers" (Hex (counting 0)) aliceStore = (err, m') ∧
        calls m' = calls aliceStore ++ [CFindOne "customers" (counting 0);
                                        CDeleteMany "addresses" (d_addresses d);
                                        CDeleteMany "cards" (d_cards d);
                                        CDeleteOne "customers" (counting 0)] ∧
        (goes_through healthy (S (ncall aliceStore)) 3 →
         err = None ∧
         customers m' = delete (counting 0) (customers aliceStore) ∧
         addresses m' = dropIn (d_addresses d) (addresses aliceStore) ∧
         cards m' = dropIn (d_cards d) (cards aliceStore) ∧
         (healthy (ncall m') = None →
          (∀ a, a ∈ d_addresses d →
                (GetAddress healthy (Hex a) m').1 = (zeroAddress, Some ErrNoDocuments)) ∧
          (∀ c, c ∈ d_cards d →
                (GetCard healthy (Hex c) m').1 = (zeroCard, Some ErrNoDocuments))))
  end.
Proof.
  split; [reflexivity|]. split; [reflexivity|]. split; [reflexivity|].
  apply (Delete_customers_cascades healthy (Hex (counting 0)) (counting 0) aliceStore);
    reflexivity.
Defined.

(** Deleting the address of alice, and her card, on a healthy backend. *)
Lemma Delete_attribute_pulls_reference_first_witness :
  ObjectIDFromHex (Hex (counting 2)) = Some (counting 2) ∧
  ∃ err m', Delete healthy "addresses" (Hex (counting 2)) aliceStore = (err, m') ∧
    calls m' = calls aliceStore ++ [CUpdateMany "$pull" "addresses" (counting 2);
                                    CDeleteOne "addresses" (counting 2)] ∧
    err = None ∧
    addresses m' = delete (counting 2) (addresses aliceStore) ∧
    cards m' = cards aliceStore.
Proof.
  split; [reflexivity|].
  destruct (Delete_attribute_pulls_reference_first healthy (Hex (counting 2))
              (counting 2) aliceStore eq_refl)
    as [(err & m' & HD & Hcalls & Hgo) _].
  destruct (Hgo (healthy_goes_through _ _)) as (He & Ha & Hc & _).
  exists err, m'. repeat split; assumption.
Defined.

Lemma Delete_of_missing_record_witness :
  ObjectIDFromHex (Hex (oid x05)) = Some (oid x05) ∧
  (Delete healthy "customers" (Hex (oid x05)) emptyMongo).1 = Some ErrNoDocuments ∧
  (∃ m', Delete healthy "addresses" (Hex (oid x05)) emptyMongo = (None, m')) ∧
  (∃ m', Delete healthy "cards" (Hex (oid x05)) emptyMongo = (None, m')).
Proof.
  split; [reflexivity|].
  destruct (Delete_of_missing_record healthy (Hex (oid x05)) (oid x05) emptyMongo
              eq_refl) as (Hcu & Ha & Hc).
  split; [apply Hcu; reflexivity|]. split.
  - destruct (Ha eq_refl) as [_ H].
    destruct (H (healthy_goes_through _ _)) as (m' & HD & _). exists m'. exact HD.
  - destruct (Hc eq_refl) as [_ H].
    destruct (H (healthy_goes_through _ _)) as (m' & HD & _). exists m'. exact HD.
Defined.

(** C5 as stated fails: on an empty database, deleting an address (or a
    card) under a well-formed identifier returns no error at all. *)
Lemma Delete_missing_attribute_is_not_NotFound :
  ObjectIDFromHex (Hex (oid x05)) = Some (oid x05) ∧
  addresses emptyMongo !! oid x05 = None ∧ cards emptyMongo !! oid x05 = None ∧
  (Delete healthy "addresses" (Hex (oid x05)) emptyMongo).1 = None ∧
  (Delete healthy "cards" (Hex (oid x05)) emptyMongo).1 = None ∧
  ¬ (∀ entity, entity = "customers" ∨ entity = "addresses" ∨ entity = "cards" →
       (Delete healthy entity (Hex (oid x05)) emptyMongo).1 = Some ErrNoDocuments).
Proof.
  repeat (split; [reflexivity|]).
  intros H. specialize (H "addresses" (or_intror (or_introl eq_refl))).
  vm_compute in H. discriminate H.
Defined.

Lemma Create_attribute_for_unknown_user_witness :
  ObjectIDFromHex (Hex (oid x09)) = Some (oid x09) ∧
  customers aliceStore !! oid x09 = None ∧
  (∃ m', CreateCard counting healthy visa (Hex (oid x09)) aliceStore
           = (Card_withID visa (Hex (counting (noid aliceStore))), None, m') ∧
         customers m' = customers aliceStore) ∧
  (∃ m', CreateAddress counting healthy elmSt (Hex (oid x09)) aliceStore
           = (Address_withID elmSt (Hex (counting (noid aliceStore))), None, m') ∧
         customers m' = customers aliceStore).
Proof.
  split; [reflexivity|]. split; [reflexivity|].
  destruct (Create_attribute_for_unknown_user counting healthy visa elmSt
              (Hex (oid x09)) (oid x09) aliceStore eq_refl eq_refl
              (healthy_goes_through _ _))
    as [(m1 & H1 & _ & Hc1 & _) (m2 & H2 & _ & Hc2 & _)].
  split; [exists m1|exists m2]; split; assumption.
Defined.

Lemma aliceFetched_valid :
  Forall (λ a, IsValidObjectID (Address_ID a) = true) (Addresses aliceFetched) ∧
  Forall (λ c, IsValidObjectID (Card_ID c) = true) (Cards aliceFetched).
Proof.
  change (Addresses aliceFetched) with [Address_withID zeroAddress (Hex (counting 2))].
  change (Cards aliceFetched) with [Card_withID zeroCard (Hex (counting 1))].
  split; (constructor; [reflexivity|constructor]).
Defined.

(** Resolving alice as fetched, on a healthy backend. *)
Lemma GetUserAttributes_resolves_existing_witness :
  Forall (λ a, IsValidObjectID (Address_ID a) = true) (Addresses aliceFetched) ∧
  Forall (λ c, IsValidObjectID (Card_ID c) = true) (Cards aliceFetched) ∧
  ∃ u' m', GetUserAttributes healthy aliceFetched aliceStore = (u', None, m') ∧
    (∀ a, a ∈ Addresses u' ↔
          ∃ a0 d, a0 ∈ Addresses aliceFetched ∧
                  addresses aliceStore !! fromHex_ (Address_ID a0) = Some d ∧
                  a = Address_withID d (Hex (fromHex_ (Address_ID a0)))) ∧
    NoDup (map Address_ID (Addresses u')) ∧ NoDup (map Card_ID (Cards u')).
Proof.
  destruct aliceFetched_valid as [Ha Hc].
  split; [exact Ha|]. split; [exact Hc|].
  destruct (GetUserAttributes_resolves_existing healthy aliceFetched aliceStore
              Ha Hc (healthy_goes_through _ _))
    as (u' & m' & HG & HA & _ & HnA & HnC & _).
  exists u', m'. repeat split; try assumption; apply HA.
Defined.

(** Draining the address cursor fails: the fifth driver call since the
    database was empty. *)
Lemma GetUserAttributes_swallows_storage_failures_witness :
  let flt := failing_at (S (ncall aliceStore)) outage in
  Forall (λ a, IsValidObjectID (Address_ID a) = true) (Addresses aliceFetched) ∧
  Forall (λ c, IsValidObjectID (Card_ID c) = true) (Cards aliceFetched) ∧
  ∃ u' m', GetUserAttributes flt aliceFetched aliceStore = (u', None, m') ∧
    Addresses u' = [] ∧
    Cards u' = [Card_withID visa (Hex (counting 1))].
Proof.
  cbv zeta. destruct aliceFetched_valid as [Ha Hc].
  split; [exact Ha|]. split; [exact Hc|].
  destruct (GetUserAttributes_swallows_storage_failures
              (failing_at (S (ncall aliceStore)) outage) aliceFetched aliceStore Ha Hc)
    as (u' & m' & HG & HA & HC).
  exists u', m'. split; [exact HG|]. split.
  - rewrite HA. reflexivity.
  - rewrite HC. reflexivity.
Defined.

(** C8 as stated fails: the fetch of the addresses fails for a storage
    reason while its cursor is drained; the call returns no error, and the
    address list of the user is not left as it was. *)
Lemma address_fetch_failure_changes_the_list :
  let flt := failing_at (S (ncall aliceStore)) outage in
  let r := GetUserAttributes flt aliceFetched aliceStore in
  Forall (λ a, IsValidObjectID (Address_ID a) = true) (Addresses aliceFetched) ∧
  Forall (λ c, IsValidObjectID (Card_ID c) = true) (Cards aliceFetched) ∧
  (∃ cursor m1,
     Find flt "addresses" (addresses aliceStore) [counting 2] aliceStore
       = (inr cursor, m1) ∧
     (All flt "addresses" cursor m1).1.2 = Some (ErrBackend 7)) ∧
  r.1.2 = None ∧
  Addresses aliceFetched = [Address_withID zeroAddress (Hex (counting 2))] ∧
  Addresses r.1.1 = [] ∧
  Addresses r.1.1 ≠ Addresses aliceFetched.
Proof.
  cbv zeta. destruct aliceFetched_valid as [Ha Hc].
  split; [exact Ha|]. split; [exact Hc|]. split.
  { eexists _, _. split; [reflexivity|]. reflexivity. }
  split; [reflexivity|]. split; [reflexivity|]. split; [reflexivity|].
  vm_compute. discriminate.
Defined.

Lemma GetUserAttributes_malformed_id_witness :
  Exists (λ a, IsValidObjectID (Address_ID a) = false) (Addresses aliceBadAddress) ∧
  GetUserAttributes healthy aliceBadAddress aliceStore
    = (aliceBadAddress, Some ErrInvalidHexID, aliceStore) ∧
  Forall (λ a, IsValidObjectID (Address_ID a) = true) (Addresses aliceBadCard) ∧
  Exists (λ c, IsValidObjectID (Card_ID c) = false) (Cards aliceBadCard) ∧
  ∃ u' m', GetUserAttributes healthy aliceBadCard aliceStore
             = (u', Some ErrInvalidHexID, m') ∧
    Cards u' = Cards aliceBadCard ∧
    Addresses u' = [Address_withID mainSt (Hex (counting 2))].
Proof.
  assert (H1 : Exists (λ a, IsValidObjectID (Address_ID a) = false)
                 (Addresses aliceBadAddress)) by (left; reflexivity).
  assert (H2 : Forall (λ a, IsValidObjectID (Address_ID a) = true)
                 (Addresses aliceBadCard)) by exact (proj1 aliceFetched_valid).
  assert (H3 : Exists (λ c, IsValidObjectID (Card_ID c) = false) (Cards aliceBadCard))
    by (left; reflexivity).
  split; [exact H1|]. split.
  { apply (GetUserAttributes_malformed_id healthy aliceBadAddress aliceStore), H1. }
  split; [exact H2|]. split; [exact H3|].
  destruct (GetUserAttributes_malformed_id healthy aliceBadCard aliceStore)
    as [_ H]. destruct (H H2 H3) as (u' & m' & HG & HC & _ & HA).
  exists u', m'. split; [exact HG|]. split; [exact HC|]. rewrite HA. reflexivity.
Defined.

(** C6 as stated fails: with a malformed card identifier the call aborts
    with ErrInvalidHexID, yet the address list has been resolved. *)
Lemma malformed_card_id_after_addresses_resolved :
  let r := GetUserAttributes healthy aliceBadCard aliceStore in
  Exists (λ c, IsValidObjectID (Card_ID c) = false) (Cards aliceBadCard) ∧
  r.1.2 = Some ErrInvalidHexID ∧
  Addresses aliceBadCard = [Address_withID zeroAddress (Hex (counting 2))] ∧
  Addresses r.1.1 = [Address_withID mainSt (Hex (counting 2))] ∧
  ¬ (Addresses r.1.1 = Addresses aliceBadCard ∧ Cards r.1.1 = Cards aliceBadCard).
Proof.
  cbv zeta. split; [left; reflexivity|].
  split; [reflexivity|]. split; [reflexivity|]. split; [reflexivity|].
  intros [H _]. vm_compute in H. discriminate H.
Defined.

(** The write of alice's card fails, the write of her address and the
    upsert of her record go through. *)
Lemma CreateUser_partial_failure_keeps_UserID_witness :
  let flt := failing_at 0 outage in
  ∃ u', CreateUser counting flt alice emptyMongo
          = (u', Some (ErrAttributes (Some (ErrBackend 7)) None),
             (CreateUser counting flt alice emptyMongo).2) ∧
    UserID u' = UserID alice ∧
    map Address_ID (take 1 (Addresses u')) = map Hex [counting 2] ∧
    ∃ d, customers (CreateUser counting flt alice emptyMongo).2 !! counting 0 = Some d ∧
         d_cards d = [] ∧ d_addresses d = [counting 2].
Proof.
  cbv zeta.
  destruct (CreateUser_partial_failure_keeps_UserID counting (failing_at 0 outage)
              alice emptyMongo
              [visa] [] (Some (ErrBackend 7))
              (createCards counting (failing_at 0 outage) (Cards alice)
                 (NewObjectID counting emptyMongo).2).2
              [Address_withID mainSt (Hex (counting 2))] [counting 2] None
              (createAddresses counting (failing_at 0 outage) (Addresses alice)
                 (createCards counting (failing_at 0 outage) (Cards alice)
                    (NewObjectID counting emptyMongo).2).2).2
              (CreateUser counting (failing_at 0 outage) alice emptyMongo).2)
    as (u' & HC & _ & HU & _ & _ & HA & _ & d & Hd & Hdc & Hda);
    [vm_compute; reflexivity | vm_compute; reflexivity | vm_compute; reflexivity
    | left; discriminate | ].
  exists u'. split; [exact HC|]. split; [exact HU|]. split; [exact HA|].
  exists d. split; [exact Hd|]. split; assumption.
Defined.

(** C2 as stated fails: in that run CreateUser returns the combined error,
    alice's record is stored under [counting 0] and refers to the address,
    the address entry handed back carries its new identifier, but the UserID
    handed back is still empty, not the identifier of the stored record. *)
Lemma CreateUser_partial_failure_withholds_UserID :
  let flt := failing_at 0 outage in
  let r := CreateUser counting flt alice emptyMongo in
  r.1.2 = Some (ErrAttributes (Some (ErrBackend 7)) None) ∧
  customers r.2 !! counting 0
    = Some (mkCustomerDoc "Alice" "A" "alice" "pw" [] [counting 2] []) ∧
  map Address_ID (Addresses r.1.1) = [Hex (counting 2)] ∧
  map Card_ID (Cards r.1.1) = [""] ∧
  UserID r.1.1 = "" ∧
  UserID r.1.1 ≠ Hex (counting 0).
Proof.
  cbv zeta. repeat (split; [reflexivity|]). vm_compute. discriminate.
Qed.

(** * Further properties of the repository *)

Section MoreProperties.

Variable gen : nat → ObjectID.
Variable flt : nat → option Fault.

(** ** AddUserIDs *)

(** X1: AddUserIDs writes the hexadecimal form of the record's ObjectID into
    UserID and appends to each embedded list one placeholder per reference,
    in order, keeping the entries already there; parsing the identifiers of
    the appended placeholders gives the reference lists back, and the
    reference lists and the ObjectID of the record are untouched. *)
Theorem AddUserIDs_appends_placeholders (mu : MongoUser) :
  let u := MU_User (AddUserIDs mu) in
  let old := MU_User mu in
  UserID u = Hex (MU_ID mu) ∧
  ObjectIDFromHex (UserID u) = Some (MU_ID mu) ∧
  take (length (Addresses old)) (Addresses u) = Addresses old ∧
  take (length (Cards old)) (Cards u) = Cards old ∧
  omap (λ a, ObjectIDFromHex (Address_ID a))
       (drop (length (Addresses old)) (Addresses u)) = AddressIDs mu ∧
  omap (λ c, ObjectIDFromHex (Card_ID c))
       (drop (length (Cards old)) (Cards u)) = CardIDs mu ∧
  length (Addresses u) = length (Addresses old) + length (AddressIDs mu) ∧
  length (Cards u) = length (Cards old) + length (CardIDs mu) ∧
  MU_ID (AddUserIDs mu) = MU_ID mu ∧
  AddressIDs (AddUserIDs mu) = AddressIDs mu ∧ CardIDs (AddUserIDs mu) = CardIDs mu ∧
  FirstName u = FirstName old ∧ LastName u = LastName old ∧
  Username u = Username old ∧ Password u = Password old ∧ Links u = Links old.
Proof.
  cbv zeta.
  cbn [AddUserIDs MU_User MU_ID AddressIDs CardIDs User_withUserID User_withCards
       User_withAddresses UserID Addresses Cards FirstName LastName Username
       Password Links].
  split; [reflexivity|]. split; [apply ObjectIDFromHex_Hex|].
  split; [apply take_app_length|]. split; [apply take_app_length|].
  split; [rewrite drop_app_length; apply omap_address_placeholders|].
  split; [rewrite drop_app_length; apply omap_card_placeholders|].
  split; [rewrite length_app, length_map; reflexivity|].
  split; [rewrite length_app, length_map; reflexivity|].
  repeat split; reflexivity.
Qed.

(** ** What the read operations leave alone *)

Lemma same_records_refl m : same_records m m.
Proof. repeat split; reflexivity. Qed.

Lemma same_records_logged c m : same_records m (logged c m).
Proof. repeat split; reflexivity. Qed.

Lemma same_records_counted m : same_records m (counted m).
Proof. repeat split; reflexivity. Qed.

Lemma same_records_trans m1 m2 m3 :
  same_records m1 m2 → same_records m2 m3 → same_records m1 m3.
Proof.
  intros (H1 & H2 & H3 & H4 & H5) (K1 & K2 & K3 & K4 & K5).
  repeat split; congruence.
Qed.

Lemma FindOne_reads {D} name (coll : gmap ObjectID D) id m :
  same_records m (FindOne flt name coll id m).2.
Proof.
  unfold FindOne, call. destruct (flt (ncall m)); [|destruct (coll !! id)];
    apply same_records_logged.
Qed.

Lemma Find_reads {D} name (coll : gmap ObjectID D) ids m :
  same_records m (Find flt name coll ids m).2.
Proof. rewrite Find_eq. apply same_records_logged. Qed.

Lemma All_reads {D} name (cursor : list (ObjectID * D)) m :
  same_records m (All flt name cursor m).2.
Proof. rewrite All_eq. apply same_records_logged. Qed.

Lemma FindAll_reads {D} (coll : gmap ObjectID D) m :
  same_records m (FindAll flt coll m).2.
Proof.
  unfold FindAll, call_unlisted. destruct (flt (ncall m)); apply same_records_counted.
Qed.

Lemma Close_reads m : same_records m (Close flt m).
Proof. apply same_records_counted. Qed.

Lemma GetUser_reads id m : same_records m (GetUser flt id m).2.
Proof.
  unfold GetUser. destruct (ObjectIDFromHex id) as [uid|]; [|apply same_records_refl].
  pose proof (FindOne_reads "customers" (customers m) uid m) as H.
  destruct (FindOne flt "customers" (customers m) uid m) as [[e|d] m']; exact H.
Qed.

Lemma GetCard_reads id m : same_records m (GetCard flt id m).2.
Proof.
  unfold GetCard. destruct (negb _); [apply same_records_refl|].
  pose proof (FindOne_reads "cards" (cards m) (fromHex_ id) m) as H.
  destruct (FindOne flt "cards" (cards m) (fromHex_ id) m) as [[e|d] m']; exact H.
Qed.

Lemma GetAddress_reads id m : same_records m (GetAddress flt id m).2.
Proof.
  unfold GetAddress. destruct (negb _); [apply same_records_refl|].
  pose proof (FindOne_reads "addresses" (addresses m) (fromHex_ id) m) as H.
  destruct (FindOne flt "addresses" (addresses m) (fromHex_ id) m) as [[e|d] m']; exact H.
Qed.

Lemma GetUserByName_reads name m : same_records m (GetUserByName flt name m).2.
Proof.
  unfold GetUserByName, FindOne_username, call_unlisted.
  destruct (flt (ncall m)); [apply same_records_counted|].
  destruct (list_find _ _) as [[i kd]|]; apply same_records_counted.
Qed.

Lemma GetUsers_reads m : same_records m (GetUsers flt m).2.
Proof.
  unfold GetUsers. pose proof (FindAll_reads (customers m) m) as H1.
  destruct (FindAll flt (customers m) m) as [[e|cursor] m1]; [exact H1|].
  pose proof (All_reads "customers" cursor m1) as H2.
  destruct (All flt "customers" cursor m1) as [[mus err] m2]. cbn [snd] in *.
  destruct err; cbn [snd];
    exact (same_records_trans _ _ _ H1 (same_records_trans _ _ _ H2 (Close_reads m2))).
Qed.

Lemma GetCards_reads m : same_records m (GetCards flt m).2.
Proof.
  unfold GetCards. pose proof (FindAll_reads (cards m) m) as H1.
  destruct (FindAll flt (cards m) m) as [[e|cursor] m1]; [exact H1|].
  pose proof (All_reads "cards" cursor m1) as H2.
  destruct (All flt "cards" cursor m1) as [[mcs err] m2]. cbn [snd] in *.
  destruct err; cbn [snd];
    exact (same_records_trans _ _ _ H1 (same_records_trans _ _ _ H2 (Close_reads m2))).
Qed.

Lemma GetAddresses_reads m : same_records m (GetAddresses flt m).2.
Proof.
  unfold GetAddresses. pose proof (FindAll_reads (addresses m) m) as H1.
  destruct (FindAll flt (addresses m) m) as [[e|cursor] m1]; [exact H1|].
  pose proof (All_reads "addresses" cursor m1) as H2.
  destruct (All flt "addresses" cursor m1) as [[mas err] m2]. cbn [snd] in *.
  destruct err; cbn [snd];
    exact (same_records_trans _ _ _ H1 (same_records_trans _ _ _ H2 (Close_reads m2))).
Qed.

Lemma GetUserAttributes_reads u m : same_records m (GetUserAttributes flt u m).2.
Proof.
  unfold GetUserAttributes.
  destruct (addrIds (Addresses u)) as [aids|]; [|apply same_records_refl].
  rewrite Find_eq.
  assert (HA : ∃ u1 m1,
    (let '(u0, m0) :=
       match match flt (ncall m) with
             | Some ft => inl (backend ft)
             | None => inr (map_to_list (selectIn aids (addresses m)))
             end with
       | inl _ => (u, logged (CFind "addresses" aids) m)
       | inr cursorA =>
           let '(ma, _, m0) := All flt "addresses" cursorA
                                 (logged (CFind "addresses" aids) m) in
           (User_withAddresses u (map decodeAddress ma), m0)
       end in (u0, m0)) = (u1, m1) ∧ same_records m m1).
  { destruct (flt (ncall m)).
    - eexists _, _. split; [reflexivity|]. apply same_records_logged.
    - rewrite All_eq. eexists _, _. split; [reflexivity|].
      exact (same_records_trans _ _ _ (same_records_logged _ m)
               (same_records_logged _ _)). }
  destruct HA as (u1 & m1 & HE & HS).
  destruct (match match flt (ncall m) with
                  | Some ft => inl (backend ft)
                  | None => inr (map_to_list (selectIn aids (addresses m)))
                  end with
            | inl _ => (u, logged (CFind "addresses" aids) m)
            | inr cursorA => _
            end) as [u0 m0].
  injection HE as -> ->.
  destruct (cardIds (Cards u1)) as [cids|]; [|exact HS].
  rewrite Find_eq. destruct (flt (ncall m1)).
  - cbn [snd]. exact (same_records_trans _ _ _ HS (same_records_logged _ _)).
  - rewrite All_eq. cbn [snd].
    exact (same_records_trans _ _ _ HS
             (same_records_trans _ _ _ (same_records_logged _ m1)
                (same_records_logged _ _))).
Qed.

Lemma Ping_reads m : same_records m (Ping flt m).2.
Proof.
  unfold Ping, call_unlisted. destruct (flt (ncall m)); apply same_records_counted.
Qed.

(** X2: no read operation writes.  Whatever the backend does, GetUser,
    GetUserByName, GetUsers, GetCard, GetCards, GetAddress, GetAddresses,
    GetUserAttributes and Ping leave the three collections, the index and
    the identifier supply exactly as they found them. *)
Theorem reads_never_write (id name : string) (u : User) (m : Mongo) :
  same_records m (GetUser flt id m).2 ∧
  same_records m (GetUserByName flt name m).2 ∧
  same_records m (GetUsers flt m).2 ∧
  same_records m (GetCard flt id m).2 ∧
  same_records m (GetCards flt m).2 ∧
  same_records m (GetAddress flt id m).2 ∧
  same_records m (GetAddresses flt m).2 ∧
  same_records m (GetUserAttributes flt u m).2 ∧
  same_records m (Ping flt m).2.
Proof.
  split; [apply GetUser_reads|]. split; [apply GetUserByName_reads|].
  split; [apply GetUsers_reads|]. split; [apply GetCard_reads|].
  split; [apply GetCards_reads|]. split; [apply GetAddress_reads|].
  split; [apply GetAddresses_reads|]. split; [apply GetUserAttributes_reads|].
  apply Ping_reads.
Qed.

(** ** createCards and createAddresses *)

Lemma createCards_shape cs : ∀ m cs' ids err m',
  createCards gen flt cs m = (cs', ids, err, m') →
  (length ids ≤ length cs)%nat ∧
  (err = None ↔ length ids = length cs) ∧
  ids = map gen (seq (noid m) (length ids)) ∧
  cs' = zip_with (λ c id, Card_withID c (Hex id)) (take (length ids) cs) ids
        ++ drop (length ids) cs ∧
  ncall m' = ncall m + length ids + match err with Some _ => 1 | None => 0 end ∧
  noid m' = noid m + length ids + match err with Some _ => 1 | None => 0 end ∧
  customers m' = customers m ∧ addresses m' = addresses m ∧
  usernameIndex m' = usernameIndex m.
Proof.
  induction cs as [|ca rest IH]; intros m cs' ids err m' H.
  - injection H as <- <- <- <-. cbn. repeat split; try reflexivity; lia.
  - cbn [createCards NewObjectID] in H. unfold ReplaceOne_cards, call in H.
    cbn [ncall MC_ID MC_Card] in H.
    destruct (flt (ncall m)) as [ft|].
    + injection H as <- <- <- <-. cbn.
      repeat split; try reflexivity; try lia; discriminate.
    + destruct (createCards gen flt rest _) as [[[rest' ids'] err'] m''] eqn:E.
      injection H as <- <- <- <-.
      apply IH in E as (Hle & Hiff & Hids & Hcs & Hn & Hi & Hcu & Ha & Hu).
      cbn [logged with_cards noid ncall customers addresses usernameIndex]
        in Hids, Hn, Hi, Hcu, Ha, Hu.
      cbn [length take drop seq map zip_with app].
      split; [lia|]. split; [rewrite Hiff; lia|].
      split; [f_equal; exact Hids|]. split; [f_equal; exact Hcs|].
      split; [lia|]. split; [lia|]. repeat split; assumption.
Qed.

Lemma createAddresses_shape adrs : ∀ m adrs' ids err m',
  createAddresses gen flt adrs m = (adrs', ids, err, m') →
  (length ids ≤ length adrs)%nat ∧
  (err = None ↔ length ids = length adrs) ∧
  ids = map gen (seq (noid m) (length ids)) ∧
  adrs' = zip_with (λ a id, Address_withID a (Hex id)) (take (length ids) adrs) ids
          ++ drop (length ids) adrs ∧
  ncall m' = ncall m + length ids + match err with Some _ => 1 | None => 0 end ∧
  noid m' = noid m + length ids + match err with Some _ => 1 | None => 0 end ∧
  customers m' = customers m ∧ cards m' = cards m ∧
  usernameIndex m' = usernameIndex m.
Proof.
  induction adrs as [|a rest IH]; intros m adrs' ids err m' H.
  - injection H as <- <- <- <-. cbn. repeat split; try reflexivity; lia.
  - cbn [createAddresses NewObjectID] in H. unfold ReplaceOne_addresses, call in H.
    cbn [ncall MA_ID MA_Address] in H.
    destruct (flt (ncall m)) as [ft|].
    + injection H as <- <- <- <-. cbn.
      repeat split; try reflexivity; try lia; discriminate.
    + destruct (createAddresses gen flt rest _) as [[[rest' ids'] err'] m''] eqn:E.
      injection H as <- <- <- <-.
      apply IH in E as (Hle & Hiff & Hids & Hcs & Hn & Hi & Hcu & Ha & Hu).
      cbn [logged with_addresses noid ncall customers cards usernameIndex]
        in Hids, Hn, Hi, Hcu, Ha, Hu.
      cbn [length take drop seq map zip_with app].
      split; [lia|]. split; [rewrite Hiff; lia|].
      split; [f_equal; exact Hids|]. split; [f_equal; exact Hcs|].
      split; [lia|]. split; [lia|]. repeat split; assumption.
Qed.

(** X3: createCards and createAddresses stop at the first write that fails.
    Whatever the backend does, the identifiers returned are the first ones
    drawn from the generator, one per entity written; the entities written
    carry them, in order, and the entries after them are as they were passed
    in; there is an error exactly when fewer identifiers than entities come
    back; the failed write is the last driver call made; and neither the
    customers nor the other attribute collection is touched. *)
Theorem create_attributes_stop_at_first_failure
    (cs : list Card) (adrs : list Address) (m : Mongo) :
  (∃ cs' ids err m', createCards gen flt cs m = (cs', ids, err, m') ∧
     (length ids ≤ length cs)%nat ∧
     (err = None ↔ length ids = length cs) ∧
     ids = map gen (seq (noid m) (length ids)) ∧
     cs' = zip_with (λ c id, Card_withID c (Hex id)) (take (length ids) cs) ids
           ++ drop (length ids) cs ∧
     ncall m' = ncall m + length ids + match err with Some _ => 1 | None => 0 end ∧
     customers m' = customers m ∧ addresses m' = addresses m) ∧
  (∃ adrs' ids err m', createAddresses gen flt adrs m = (adrs', ids, err, m') ∧
     (length ids ≤ length adrs)%nat ∧
     (err = None ↔ length ids = length adrs) ∧
     ids = map gen (seq (noid m) (length ids)) ∧
     adrs' = zip_with (λ a id, Address_withID a (Hex id)) (take (length ids) adrs) ids
             ++ drop (length ids) adrs ∧
     ncall m' = ncall m + length ids + match err with Some _ => 1 | None => 0 end ∧
     customers m' = customers m ∧ cards m' = cards m).
Proof.
  split.
  - destruct (createCards gen flt cs m) as [[[cs' ids] err] m'] eqn:E.
    apply createCards_shape in E as (H1 & H2 & H3 & H4 & H5 & _ & H7 & H8 & _).
    exists cs', ids, err, m'. repeat split; try assumption; apply H2.
  - destruct (createAddresses gen flt adrs m) as [[[adrs' ids] err] m'] eqn:E.
    apply createAddresses_shape in E as (H1 & H2 & H3 & H4 & H5 & _ & H7 & H8 & _).
    exists adrs', ids, err, m'. repeat split; try assumption; apply H2.
Qed.

(** ** CreateUser when every call goes through *)

Lemma goes_through_le n k k' : (k' ≤ k)%nat → goes_through flt n k → goes_through flt n k'.
Proof. intros Hle H i Hi. apply H. lia. Qed.

Lemma goes_through_shift n a b :
  goes_through flt n (a + b) → goes_through flt (n + a) b.
Proof. intros H i Hi. replace (i + (n + a)) with ((i + a) + n) by lia. apply H. lia. Qed.

Lemma goes_through_at n k i : (i < k)%nat → goes_through flt n k → flt (n + i) = None.
Proof. intros Hi H. rewrite Nat.add_comm. apply H, Hi. Qed.

Lemma createCards_no_error cs : ∀ m cs' ids err m',
  goes_through flt (ncall m) (length cs) →
  createCards gen flt cs m = (cs', ids, err, m') → err = None.
Proof.
  induction cs as [|ca rest IH]; intros m cs' ids err m' Hgo H.
  - injection H as _ _ <- _. reflexivity.
  - cbn [createCards NewObjectID] in H. unfold ReplaceOne_cards, call in H.
    cbn [ncall MC_ID MC_Card] in H.
    rewrite (goes_through_0 _ _ _ Hgo) in H.
    destruct (createCards gen flt rest _) as [[[rest' ids'] err'] m''] eqn:E.
    injection H as _ _ <- _. eapply IH; [|exact E].
    cbn [logged with_cards ncall]. apply goes_through_S, Hgo.
Qed.

Lemma createAddresses_no_error adrs : ∀ m adrs' ids err m',
  goes_through flt (ncall m) (length adrs) →
  createAddresses gen flt adrs m = (adrs', ids, err, m') → err = None.
Proof.
  induction adrs as [|a rest IH]; intros m adrs' ids err m' Hgo H.
  - injection H as _ _ <- _. reflexivity.
  - cbn [createAddresses NewObjectID] in H. unfold ReplaceOne_addresses, call in H.
    cbn [ncall MA_ID MA_Address] in H.
    rewrite (goes_through_0 _ _ _ Hgo) in H.
    destruct (createAddresses gen flt rest _) as [[[rest' ids'] err'] m''] eqn:E.
    injection H as _ _ <- _. eapply IH; [|exact E].
    cbn [logged with_addresses ncall]. apply goes_through_S, Hgo.
Qed.

Lemma createCards_cards cs : ∀ m cs' ids err m',
  createCards gen flt cs m = (cs', ids, err, m') →
  (∀ k, k ∉ ids → cards m' !! k = cards m !! k) ∧
  (NoDup ids → ∀ i c id, cs !! i = Some c → ids !! i = Some id →
               cards m' !! id = Some c).
Proof.
  induction cs as [|ca rest IH]; intros m cs' ids err m' H.
  - injection H as <- <- <- <-. split; [reflexivity|]. intros _ i c id _ Hi.
    rewrite lookup_nil in Hi. discriminate.
  - cbn [createCards NewObjectID] in H. unfold ReplaceOne_cards, call in H.
    cbn [ncall MC_ID MC_Card] in H.
    destruct (flt (ncall m)) as [ft|].
    + injection H as <- <- <- <-. split; [reflexivity|]. intros _ i c id _ Hi.
      rewrite lookup_nil in Hi. discriminate.
    + destruct (createCards gen flt rest _) as [[[rest' ids'] err'] m''] eqn:E.
      injection H as <- <- <- <-. apply IH in E as [Hout Hin].
      cbn [logged with_cards cards] in Hout. split.
      * intros k Hk. apply not_elem_of_cons in Hk as [Hne Hk].
        rewrite (Hout k Hk). apply lookup_insert_ne. congruence.
      * intros Hnd i c id Hc Hi. apply NoDup_cons in Hnd as [Hfresh Hnd].
        destruct i as [|j]; cbn in Hc, Hi.
        -- injection Hc as <-. injection Hi as <-.
           rewrite (Hout _ Hfresh). apply lookup_insert_eq.
        -- exact (Hin Hnd j c id Hc Hi).
Qed.

Lemma createAddresses_addresses adrs : ∀ m adrs' ids err m',
  createAddresses gen flt adrs m = (adrs', ids, err, m') →
  (∀ k, k ∉ ids → addresses m' !! k = addresses m !! k) ∧
  (NoDup ids → ∀ i a id, adrs !! i = Some a → ids !! i = Some id →
               addresses m' !! id = Some a).
Proof.
  induction adrs as [|a0 rest IH]; intros m adrs' ids err m' H.
  - injection H as <- <- <- <-. split; [reflexivity|]. intros _ i c id _ Hi.
    rewrite lookup_nil in Hi. discriminate.
  - cbn [createAddresses NewObjectID] in H. unfold ReplaceOne_addresses, call in H.
    cbn [ncall MA_ID MA_Address] in H.
    destruct (flt (ncall m)) as [ft|].
    + injection H as <- <- <- <-. split; [reflexivity|]. intros _ i c id _ Hi.
      rewrite lookup_nil in Hi. discriminate.
    + destruct (createAddresses gen flt rest _) as [[[rest' ids'] err'] m''] eqn:E.
      injection H as <- <- <- <-. apply IH in E as [Hout Hin].
      cbn [logged with_addresses addresses] in Hout. split.
      * intros k Hk. apply not_elem_of_cons in Hk as [Hne Hk].
        rewrite (Hout k Hk). apply lookup_insert_ne. congruence.
      * intros Hnd i c id Hc Hi. apply NoDup_cons in Hnd as [Hfresh Hnd].
        destruct i as [|j]; cbn in Hc, Hi.
        -- injection Hc as <-. injection Hi as <-.
           rewrite (Hout _ Hfresh). apply lookup_insert_eq.
        -- exact (Hin Hnd j c id Hc Hi).
Qed.

Lemma ReplaceOne_customers_through mu m :
  flt (ncall m) = None →
  usernameIndex m && usernameTaken (Username (MU_User mu)) (MU_ID mu) (customers m) = false →
  ReplaceOne_customers flt mu m =
    (None, let m := logged (CReplaceOne "customers" (MU_ID mu)) m in
           with_customers (<[MU_ID mu := marshalUser mu]> (customers m)) m).
Proof.
  intros Hf Hfree. unfold ReplaceOne_customers, call. rewrite Hf.
  cbn [logged usernameIndex customers]. rewrite Hfree. reflexivity.
Qed.

Lemma zip_with_take_all {A B} (f : A → B → A) (l : list A) (k : list B) :
  length k = length l →
  zip_with f (take (length k) l) k ++ drop (length k) l = zip_with f l k.
Proof.
  intros H. rewrite H, firstn_all, drop_all. apply app_nil_r.
Qed.

(** The run of CreateUser in which every write goes through and the
    username is free. *)
Lemma CreateUser_through (u : User) (m : Mongo) :
  goes_through flt (ncall m) (length (Cards u) + length (Addresses u) + 1) →
  usernameIndex m && usernameTaken (Username u) (gen (noid m)) (customers m) = false →
  let uid := gen (noid m) in
  let cids := map gen (seq (S (noid m)) (length (Cards u))) in
  let aids := map gen (seq (S (noid m) + length (Cards u)) (length (Addresses u))) in
  let cs' := zip_with (λ c id, Card_withID c (Hex id)) (Cards u) cids in
  let adrs' := zip_with (λ a id, Address_withID a (Hex id)) (Addresses u) aids in
  ∃ m', CreateUser gen flt u m
          = (User_withUserID (User_withAddresses (User_withCards u cs') adrs') (Hex uid),
             None, m') ∧
    customers m' = <[uid := mkCustomerDoc (FirstName u) (LastName u) (Username u)
                              (Password u) (Links u) aids cids]> (customers m) ∧
    ncall m' = ncall m + length (Cards u) + length (Addresses u) + 1 ∧
    noid m' = S (noid m) + length (Cards u) + length (Addresses u) ∧
    usernameIndex m' = usernameIndex m ∧
    (∀ k, k ∉ cids → cards m' !! k = cards m !! k) ∧
    (NoDup cids → ∀ i c id, Cards u !! i = Some c → cids !! i = Some id →
                  cards m' !! id = Some c) ∧
    (∀ k, k ∉ aids → addresses m' !! k = addresses m !! k) ∧
    (NoDup aids → ∀ i a id, Addresses u !! i = Some a → aids !! i = Some id →
                  addresses m' !! id = Some a).
Proof.
  intros Hgo Hfree. cbv zeta. unfold CreateUser. cbn [NewObjectID].
  set (m0 := mkMongo (customers m) (addresses m) (cards m) (usernameIndex m)
                     (S (noid m)) (ncall m) (calls m)).
  destruct (createCards gen flt (Cards u) m0) as [[[cs' cids] carderr] m1] eqn:Ec.
  assert (carderr = None) as ->.
  { eapply createCards_no_error; [|exact Ec]. cbn [m0 ncall].
    eapply goes_through_le; [|exact Hgo]. lia. }
  pose proof (createCards_shape _ _ _ _ _ _ Ec)
    as (_ & Hiff & Hcids & Hcs & Hn1 & Hi1 & Hcu1 & Ha1 & Hu1).
  pose proof (createCards_cards _ _ _ _ _ _ Ec) as [Hcout Hcin].
  assert (Hlc : length cids = length (Cards u)) by (apply Hiff; reflexivity).
  rewrite Hlc in Hcids. rewrite zip_with_take_all in Hcs by exact Hlc.
  cbn [m0 ncall noid customers addresses cards usernameIndex] in *.
  destruct (createAddresses gen flt (Addresses u) m1) as [[[adrs' aids] addrerr] m2] eqn:Ea.
  assert (addrerr = None) as ->.
  { eapply createAddresses_no_error; [|exact Ea]. rewrite Hn1, Hlc, Nat.add_0_r.
    apply goes_through_shift. eapply goes_through_le; [|exact Hgo]. lia. }
  pose proof (createAddresses_shape _ _ _ _ _ _ Ea)
    as (_ & Hiff2 & Haids & Has & Hn2 & Hi2 & Hcu2 & Hc2 & Hu2).
  pose proof (createAddresses_addresses _ _ _ _ _ _ Ea) as [Haout Hain].
  assert (Hla : length aids = length (Addresses u)) by (apply Hiff2; reflexivity).
  rewrite Hla in Haids. rewrite zip_with_take_all in Has by exact Hla.
  rewrite Hi1, Hlc, Nat.add_0_r in Haids.
  assert (Hf : flt (ncall m2) = None).
  { rewrite Hn2, Hn1, Hlc, Hla, !Nat.add_0_r, <- Nat.add_assoc.
    apply (goes_through_at _ (length (Cards u) + length (Addresses u) + 1)); [lia|exact Hgo]. }
  rewrite ReplaceOne_customers_through;
    [|exact Hf|cbn [MU_User MU_ID User_withAddresses User_withCards Username];
               rewrite Hu2, Hu1, Hcu2, Hcu1; exact Hfree].
  cbv zeta. cbn [fst snd MU_User MU_ID AddressIDs CardIDs].
  subst cs' adrs' cids aids. eexists. split; [reflexivity|].
  cbn [with_customers logged customers ncall noid usernameIndex cards addresses
       marshalUser MU_User MU_ID AddressIDs CardIDs User_withAddresses User_withCards
       FirstName LastName Username Password Links].
  rewrite Hcu2, Hcu1, Hn2, Hn1, Hi2, Hi1, Hu2, Hu1, Hc2, Hlc, Hla, !Nat.add_0_r.
  split; [reflexivity|]. split; [lia|]. split; [lia|]. split; [reflexivity|].
  split; [exact Hcout|]. split; [exact Hcin|].
  split; [intros k Hk; rewrite (Haout k Hk); exact (f_equal (λ x, x !! k) Ha1)|].
  intros Hnd i a id Ha Hi. exact (Hain Hnd i a id Ha Hi).
Qed.

Lemma map_Card_ID_zip (cs : list Card) : ∀ ids : list ObjectID,
  length ids = length cs →
  map Card_ID (zip_with (λ c id, Card_withID c (Hex id)) cs ids) = map Hex ids ∧
  map (λ c, Card_withID c "") (zip_with (λ c id, Card_withID c (Hex id)) cs ids)
    = map (λ c, Card_withID c "") cs.
Proof.
  induction cs as [|c cs IH]; intros [|id ids] Hl; try discriminate; [split; reflexivity|].
  injection Hl as Hl. destruct (IH ids Hl) as [H1 H2].
  cbn [zip_with map]. rewrite H1, H2. split; reflexivity.
Qed.

Lemma map_Address_ID_zip (adrs : list Address) : ∀ ids : list ObjectID,
  length ids = length adrs →
  map Address_ID (zip_with (λ a id, Address_withID a (Hex id)) adrs ids) = map Hex ids ∧
  map (λ a, Address_withID a "") (zip_with (λ a id, Address_withID a (Hex id)) adrs ids)
    = map (λ a, Address_withID a "") adrs.
Proof.
  induction adrs as [|a adrs IH]; intros [|id ids] Hl; try discriminate; [split; reflexivity|].
  injection Hl as Hl. destruct (IH ids Hl) as [H1 H2].
  cbn [zip_with map]. rewrite H1, H2. split; reflexivity.
Qed.

Lemma length_generated (n k : nat) : length (map gen (seq n k)) = k.
Proof. rewrite length_map. apply length_seq. Qed.

(** X4: CreateUser when all its writes go through and the username is
    free.  It returns no error after one write per embedded card, one per
    embedded address and the upsert.  The user handed back carries the first
    generated identifier as UserID; its cards carry the next ones, in order,
    then its addresses; apart from these identifiers its entries and fields
    are those passed in.  The customer record is stored under the user's
    identifier with the scalar fields and the two lists of references, and
    no other customer record is touched. *)
Theorem CreateUser_assigns_identifiers (u : User) (m : Mongo) :
  goes_through flt (ncall m) (length (Cards u) + length (Addresses u) + 1) →
  usernameIndex m && usernameTaken (Username u) (gen (noid m)) (customers m) = false →
  let uid := gen (noid m) in
  let cids := map gen (seq (S (noid m)) (length (Cards u))) in
  let aids := map gen (seq (S (noid m) + length (Cards u)) (length (Addresses u))) in
  ∃ u' m', CreateUser gen flt u m = (u', None, m') ∧
    UserID u' = Hex uid ∧
    map Card_ID (Cards u') = map Hex cids ∧
    map Address_ID (Addresses u') = map Hex aids ∧
    map (λ c, Card_withID c "") (Cards u') = map (λ c, Card_withID c "") (Cards u) ∧
    map (λ a, Address_withID a "") (Addresses u')
      = map (λ a, Address_withID a "") (Addresses u) ∧
    FirstName u' = FirstName u ∧ LastName u' = LastName u ∧
    Username u' = Username u ∧ Password u' = Password u ∧ Links u' = Links u ∧
    customers m' !! uid
      = Some (mkCustomerDoc (FirstName u) (LastName u) (Username u) (Password u)
                            (Links u) aids cids) ∧
    (∀ k, k ≠ uid → customers m' !! k = customers m !! k) ∧
    ncall m' = ncall m + length (Cards u) + length (Addresses u) + 1.
Proof.
  intros Hgo Hfree. cbv zeta.
  destruct (CreateUser_through u m Hgo Hfree) as (m' & HC & Hcu & Hn & _).
  eexists _, m'. split; [exact HC|].
  cbn [User_withUserID User_withAddresses User_withCards UserID Cards Addresses
       FirstName LastName Username Password Links].
  destruct (map_Card_ID_zip (Cards u) _ (length_generated (S (noid m)) _)) as [H1 H2].
  destruct (map_Address_ID_zip (Addresses u) _
              (length_generated (S (noid m) + length (Cards u)) _)) as [H3 H4].
  split; [reflexivity|]. split; [exact H1|]. split; [exact H3|].
  split; [exact H2|]. split; [exact H4|]. repeat (split; [reflexivity|]).
  rewrite Hcu. split; [apply lookup_insert_eq|]. split; [|exact Hn].
  intros k Hk. apply lookup_insert_ne. congruence.
Qed.

(** X5: GetUser after CreateUser.  When CreateUser went through as above
    and the fetch goes through as well, GetUser on the UserID handed back
    finds the user: same UserID and scalar fields, and in place of each
    embedded card and address a placeholder that carries nothing but the
    identifier CreateUser gave it, in the same order. *)
Theorem GetUser_after_CreateUser (u : User) (m : Mongo) :
  goes_through flt (ncall m) (length (Cards u) + length (Addresses u) + 2) →
  usernameIndex m && usernameTaken (Username u) (gen (noid m)) (customers m) = false →
  ∃ u1 m1 u2 m2,
    CreateUser gen flt u m = (u1, None, m1) ∧
    GetUser flt (UserID u1) m1 = (u2, None, m2) ∧
    UserID u2 = UserID u1 ∧
    FirstName u2 = FirstName u ∧ LastName u2 = LastName u ∧
    Username u2 = Username u ∧ Password u2 = Password u ∧ Links u2 = Links u ∧
    Cards u2 = map (λ c, Card_withID zeroCard (Card_ID c)) (Cards u1) ∧
    Addresses u2 = map (λ a, Address_withID zeroAddress (Address_ID a)) (Addresses u1).
Proof.
  intros Hgo Hfree.
  assert (Hgo1 : goes_through flt (ncall m) (length (Cards u) + length (Addresses u) + 1))
    by (eapply goes_through_le; [|exact Hgo]; lia).
  destruct (CreateUser_through u m Hgo1 Hfree) as (m1 & HC & Hcu & Hn & _).
  cbv zeta in HC.
  assert (Hf : flt (ncall m1) = None).
  { rewrite Hn, <- !Nat.add_assoc.
    apply (goes_through_at _ (length (Cards u) + length (Addresses u) + 2)); [lia|].
    exact Hgo. }
  eexists _, m1, _, _. split; [exact HC|].
  cbn [User_withUserID User_withAddresses User_withCards UserID Cards Addresses].
  split.
  { apply (GetUser_found flt _ (gen (noid m))); [apply ObjectIDFromHex_Hex|exact Hf|].
    rewrite Hcu. apply lookup_insert_eq. }
  cbn [AddUserIDs unmarshalUser New MU_User MU_ID AddressIDs CardIDs users.New
       User_withUserID User_withAddresses User_withCards UserID Cards Addresses
       FirstName LastName Username Password Links d_firstName d_lastName d_username
       d_password d_links d_addresses d_cards app].
  repeat (split; [reflexivity|]).
  destruct (map_Card_ID_zip (Cards u) _ (length_generated (S (noid m)) _)) as [H1 _].
  destruct (map_Address_ID_zip (Addresses u) _
              (length_generated (S (noid m) + length (Cards u)) _)) as [H3 _].
  split.
  - transitivity (map (λ s, Card_withID zeroCard s)
                    (map Hex (map gen (seq (S (noid m)) (length (Cards u)))))).
    + symmetry. apply map_map.
    + rewrite <- H1. apply map_map.
  - transitivity (map (λ s, Address_withID zeroAddress s)
                    (map Hex (map gen (seq (S (noid m) + length (Cards u))
                                           (length (Addresses u)))))).
    + symmetry. apply map_map.
    + rewrite <- H3. apply map_map.
Qed.

(** ** From CreateUser to the resolved user *)

Lemma GetUserAttributes_through (u : User) (m : Mongo) :
  Forall (λ a, IsValidObjectID (Address_ID a) = true) (Addresses u) →
  Forall (λ c, IsValidObjectID (Card_ID c) = true) (Cards u) →
  goes_through flt (ncall m) 4 →
  ∃ m', GetUserAttributes flt u m =
    (User_withCards
       (User_withAddresses u
          (map decodeAddress
             (map_to_list (selectIn (map (λ a, fromHex_ (Address_ID a)) (Addresses u))
                                    (addresses m)))))
       (map decodeCard
          (map_to_list (selectIn (map (λ c, fromHex_ (Card_ID c)) (Cards u)) (cards m)))),
     None, m') ∧ same_records m m' ∧ ncall m' = ncall m + 4.
Proof.
  intros Ha Hc Hgo.
  pose proof (goes_through_at (ncall m) 4 0 ltac:(lia) Hgo) as H0.
  pose proof (goes_through_at (ncall m) 4 1 ltac:(lia) Hgo) as H1.
  pose proof (goes_through_at (ncall m) 4 2 ltac:(lia) Hgo) as H2.
  pose proof (goes_through_at (ncall m) 4 3 ltac:(lia) Hgo) as H3.
  rewrite Nat.add_0_r in H0.
  replace (ncall m + 1) with (S (ncall m)) in H1 by lia.
  replace (ncall m + 2) with (S (S (ncall m))) in H2 by lia.
  replace (ncall m + 3) with (S (S (S (ncall m)))) in H3 by lia.
  unfold GetUserAttributes. rewrite (addrIds_valid _ Ha).
  rewrite Find_eq, H0, All_eq. cbn [logged ncall]. rewrite H1.
  cbn [User_withAddresses Cards]. rewrite (cardIds_valid _ Hc).
  rewrite Find_eq. cbn [logged ncall]. rewrite H2, All_eq.
  cbn [logged ncall]. rewrite H3.
  eexists. split; [reflexivity|]. split; [repeat split; reflexivity|cbn; lia].
Qed.

Lemma NoDup_map_source {A B} (f : A → B) (l : list A) : NoDup (map f l) → NoDup l.
Proof. exact (NoDup_fmap_1 f l). Qed.

Lemma resolved_addresses_perm (adrs : list Address) (aids : list ObjectID)
    (A : gmap ObjectID Address) :
  length aids = length adrs → NoDup aids →
  (∀ i a id, adrs !! i = Some a → aids !! i = Some id → A !! id = Some a) →
  map decodeAddress (map_to_list (selectIn aids A))
    ≡ₚ zip_with (λ a id, Address_withID a (Hex id)) adrs aids.
Proof.
  intros Hl Hnd HA. apply NoDup_Permutation.
  - apply (NoDup_map_source Address_ID), NoDup_resolved_addresses.
  - apply (NoDup_map_source Address_ID).
    rewrite (proj1 (map_Address_ID_zip adrs aids Hl)). apply NoDup_map_Hex, Hnd.
  - intros a. rewrite elem_of_resolved_addresses, elem_of_lookup_zip_with. split.
    + intros (id & d & Hin & Hd & ->). apply list_elem_of_lookup in Hin as [i Hi].
      destruct (lookup_lt_is_Some_2 adrs i) as [a0 Ha0].
      { rewrite <- Hl. apply lookup_lt_is_Some_1. eauto. }
      rewrite (HA i a0 id Ha0 Hi) in Hd. injection Hd as <-.
      exists i, a0, id. repeat split; assumption.
    + intros (i & a0 & id & -> & Ha0 & Hi). exists id, a0.
      split; [exact (list_elem_of_lookup_2 _ _ _ Hi)|].
      split; [exact (HA i a0 id Ha0 Hi)|reflexivity].
Qed.

Lemma resolved_cards_perm (cs : list Card) (cids : list ObjectID)
    (C : gmap ObjectID Card) :
  length cids = length cs → NoDup cids →
  (∀ i c id, cs !! i = Some c → cids !! i = Some id → C !! id = Some c) →
  map decodeCard (map_to_list (selectIn cids C))
    ≡ₚ zip_with (λ c id, Card_withID c (Hex id)) cs cids.
Proof.
  intros Hl Hnd HC. apply NoDup_Permutation.
  - apply (NoDup_map_source Card_ID), NoDup_resolved_cards.
  - apply (NoDup_map_source Card_ID).
    rewrite (proj1 (map_Card_ID_zip cs cids Hl)). apply NoDup_map_Hex, Hnd.
  - intros c. rewrite elem_of_resolved_cards, elem_of_lookup_zip_with. split.
    + intros (id & d & Hin & Hd & ->). apply list_elem_of_lookup in Hin as [i Hi].
      destruct (lookup_lt_is_Some_2 cs i) as [c0 Hc0].
      { rewrite <- Hl. apply lookup_lt_is_Some_1. eauto. }
      rewrite (HC i c0 id Hc0 Hi) in Hd. injection Hd as <-.
      exists i, c0, id. repeat split; assumption.
    + intros (i & c0 & id & -> & Hc0 & Hi). exists id, c0.
      split; [exact (list_elem_of_lookup_2 _ _ _ Hi)|].
      split; [exact (HC i c0 id Hc0 Hi)|reflexivity].
Qed.

Lemma placeholders_valid_addresses (ids : list ObjectID) :
  Forall (λ a, IsValidObjectID (Address_ID a) = true)
         (map (λ id, Address_withID zeroAddress (Hex id)) ids) ∧
  map (λ a, fromHex_ (Address_ID a))
      (map (λ id, Address_withID zeroAddress (Hex id)) ids) = ids.
Proof.
  induction ids as [|id ids [IH1 IH2]]; [split; [constructor|reflexivity]|].
  cbn [map Address_withID Address_ID]. split.
  - constructor; [apply IsValidObjectID_Hex|exact IH1].
  - rewrite fromHex_Hex. f_equal. exact IH2.
Qed.

Lemma placeholders_valid_cards (ids : list ObjectID) :
  Forall (λ c, IsValidObjectID (Card_ID c) = true)
         (map (λ id, Card_withID zeroCard (Hex id)) ids) ∧
  map (λ c, fromHex_ (Card_ID c))
      (map (λ id, Card_withID zeroCard (Hex id)) ids) = ids.
Proof.
  induction ids as [|id ids [IH1 IH2]]; [split; [constructor|reflexivity]|].
  cbn [map Card_withID Card_ID]. split.
  - constructor; [apply IsValidObjectID_Hex|exact IH1].
  - rewrite fromHex_Hex. f_equal. exact IH2.
Qed.

(** X6: the round trip of a user.  When the generator hands out distinct
    identifiers and every call goes through, CreateUser, then GetUser on the
    UserID handed back, then GetUserAttributes on the user fetched, end with
    a user whose cards and addresses are, up to their order, exactly the
    entries CreateUser handed back: the content submitted, each with its
    identifier; UserID and scalar fields are those of the user created. *)
Theorem CreateUser_GetUser_GetUserAttributes_roundtrip (u : User) (m : Mongo) :
  goes_through flt (ncall m) (length (Cards u) + length (Addresses u) + 6) →
  usernameIndex m && usernameTaken (Username u) (gen (noid m)) (customers m) = false →
  NoDup (map gen (seq (S (noid m)) (length (Cards u)))) →
  NoDup (map gen (seq (S (noid m) + length (Cards u)) (length (Addresses u)))) →
  ∃ u1 m1 u2 m2 u3 m3,
    CreateUser gen flt u m = (u1, None, m1) ∧
    GetUser flt (UserID u1) m1 = (u2, None, m2) ∧
    GetUserAttributes flt u2 m2 = (u3, None, m3) ∧
    Cards u3 ≡ₚ Cards u1 ∧ Addresses u3 ≡ₚ Addresses u1 ∧
    UserID u3 = UserID u1 ∧
    FirstName u3 = FirstName u ∧ LastName u3 = LastName u ∧
    Username u3 = Username u ∧ Password u3 = Password u ∧ Links u3 = Links u.
Proof.
  intros Hgo Hfree Hndc Hnda.
  assert (Hgo1 : goes_through flt (ncall m) (length (Cards u) + length (Addresses u) + 1))
    by (eapply goes_through_le; [|exact Hgo]; lia).
  destruct (CreateUser_through u m Hgo1 Hfree)
    as (m1 & HC & Hcu & Hn & _ & _ & _ & Hcin & _ & Hain).
  cbv zeta in HC, Hcu, Hcin, Hain.
  assert (Hf : flt (ncall m1) = None).
  { rewrite Hn, <- !Nat.add_assoc.
    apply (goes_through_at _ (length (Cards u) + length (Addresses u) + 6)); [lia|].
    exact Hgo. }
  pose proof (GetUser_found flt (Hex (gen (noid m))) (gen (noid m)) _ m1
                (ObjectIDFromHex_Hex _) Hf
                (eq_trans (f_equal (λ x, x !! gen (noid m)) Hcu)
                          (lookup_insert_eq _ _ _))) as HG.
  set (cids := map gen (seq (S (noid m)) (length (Cards u)))) in *.
  set (aids := map gen (seq (S (noid m) + length (Cards u)) (length (Addresses u)))) in *.
  cbn [AddUserIDs unmarshalUser New MU_User MU_ID AddressIDs CardIDs users.New
       User_withUserID User_withAddresses User_withCards UserID Cards Addresses
       FirstName LastName Username Password Links d_firstName d_lastName d_username
       d_password d_links d_addresses d_cards app] in HG.
  destruct (placeholders_valid_addresses aids) as [HvA HidA].
  destruct (placeholders_valid_cards cids) as [HvC HidC].
  set (u2 := mkUser (FirstName u) (LastName u) (Username u) (Password u)
               (map (λ id, Address_withID zeroAddress (Hex id)) aids)
               (map (λ id, Card_withID zeroCard (Hex id)) cids)
               (Hex (gen (noid m))) (Links u)) in *.
  destruct (GetUserAttributes_through u2 (logged (CFindOne "customers" (gen (noid m))) m1)
              HvA HvC) as (m3 & HR & _).
  { intros i Hi. cbn [logged ncall]. rewrite Hn.
    replace (i + S (ncall m + length (Cards u) + length (Addresses u) + 1))
      with ((i + (length (Cards u) + length (Addresses u) + 2)) + ncall m) by lia.
    apply Hgo. lia. }
  exists (User_withUserID
            (User_withAddresses
               (User_withCards u (zip_with (λ c id, Card_withID c (Hex id)) (Cards u) cids))
               (zip_with (λ a id, Address_withID a (Hex id)) (Addresses u) aids))
            (Hex (gen (noid m)))),
         m1, u2, (logged (CFindOne "customers" (gen (noid m))) m1).
  eexists _, m3. split; [exact HC|]. split; [exact HG|]. split; [exact HR|].
  cbn [u2 User_withUserID User_withAddresses User_withCards UserID Cards Addresses
       FirstName LastName Username Password Links logged cards addresses].
  rewrite HidA, HidC. split; [|split].
  - apply resolved_cards_perm; [apply length_generated|exact Hndc|exact (Hcin Hndc)].
  - apply resolved_addresses_perm; [apply length_generated|exact Hnda|exact (Hain Hnda)].
  - repeat split; reflexivity.
Qed.

(** ** The unique index on username *)

Lemma usernameTaken_true name id (cs : gmap ObjectID CustomerDoc) k d :
  cs !! k = Some d → k ≠ id → d_username d = name → usernameTaken name id cs = true.
Proof.
  intros Hk Hne Hn. unfold usernameTaken. apply existsb_exists. exists (k, d). split.
  - apply list_elem_of_In, elem_of_map_to_list, Hk.
  - cbn. rewrite bool_decide_eq_true_2 by exact Hne.
    rewrite bool_decide_eq_true_2 by exact Hn. reflexivity.
Qed.

Lemma CreateUser_taken (u : User) (m : Mongo) (k : ObjectID) (d : CustomerDoc) :
  usernameIndex m = true →
  customers m !! k = Some d → d_username d = Username u → k ≠ gen (noid m) →
  goes_through flt (ncall m) (length (Cards u) + length (Addresses u) + 1) →
  ∃ u' m', CreateUser gen flt u m = (u', Some ErrDuplicateKey, m') ∧
    customers m' = customers m ∧ usernameIndex m' = usernameIndex m ∧
    UserID u' = UserID u.
Proof.
  intros Hidx Hk Hname Hne Hgo. unfold CreateUser. cbn [NewObjectID].
  set (m0 := mkMongo (customers m) (addresses m) (cards m) (usernameIndex m)
                     (S (noid m)) (ncall m) (calls m)).
  destruct (createCards gen flt (Cards u) m0) as [[[cs' cids] carderr] m1] eqn:Ec.
  assert (carderr = None) as ->.
  { eapply createCards_no_error; [|exact Ec]. cbn [m0 ncall].
    eapply goes_through_le; [|exact Hgo]. lia. }
  pose proof (createCards_shape _ _ _ _ _ _ Ec)
    as (_ & Hiff & _ & _ & Hn1 & _ & Hcu1 & _ & Hu1).
  assert (Hlc : length cids = length (Cards u)) by (apply Hiff; reflexivity).
  cbn [m0 ncall noid customers usernameIndex] in *.
  destruct (createAddresses gen flt (Addresses u) m1) as [[[adrs' aids] addrerr] m2] eqn:Ea.
  assert (addrerr = None) as ->.
  { eapply createAddresses_no_error; [|exact Ea]. rewrite Hn1, Hlc, Nat.add_0_r.
    apply goes_through_shift. eapply goes_through_le; [|exact Hgo]. lia. }
  pose proof (createAddresses_shape _ _ _ _ _ _ Ea)
    as (_ & Hiff2 & _ & _ & Hn2 & _ & Hcu2 & _ & Hu2).
  assert (Hla : length aids = length (Addresses u)) by (apply Hiff2; reflexivity).
  assert (Hf : flt (ncall m2) = None).
  { rewrite Hn2, Hn1, Hlc, Hla, !Nat.add_0_r, <- Nat.add_assoc.
    apply (goes_through_at _ (length (Cards u) + length (Addresses u) + 1)); [lia|exact Hgo]. }
  unfold ReplaceOne_customers, call. rewrite Hf.
  cbn [logged usernameIndex customers MU_User MU_ID User_withAddresses User_withCards
       Username].
  rewrite Hu2, Hu1, Hidx, Hcu2, Hcu1.
  rewrite (usernameTaken_true _ _ _ k d Hk Hne Hname). cbn [andb].
  match goal with |- context [cleanAttributes flt ?mu ?mm] =>
    destruct (cleanAttributes_effect flt mu mm) as (m' & Hcl & _ & Hcust & _) end.
  rewrite Hcl. eexists _, m'. split; [reflexivity|].
  cbn [logged customers] in Hcust. rewrite Hcust, Hcu2, Hcu1.
  split; [reflexivity|]. split; [|reflexivity].
  unfold cleanAttributes in Hcl. rewrite DeleteMany_addresses in Hcl.
  destruct (flt _) in Hcl; rewrite DeleteMany_cards in Hcl;
    destruct (flt _) in Hcl; injection Hcl as <-; cbn; congruence.
Qed.

(** X7: a username that is taken.  With the unique index in place and
    another customer holding the username, a CreateUser whose writes go
    through fails with ErrDuplicateKey at the upsert; the customers
    collection is as before and the caller's UserID is the one passed in. *)
Theorem CreateUser_rejects_taken_username
    (u : User) (m : Mongo) (k : ObjectID) (d : CustomerDoc) :
  usernameIndex m = true →
  customers m !! k = Some d → d_username d = Username u → k ≠ gen (noid m) →
  goes_through flt (ncall m) (length (Cards u) + length (Addresses u) + 1) →
  ∃ u' m', CreateUser gen flt u m = (u', Some ErrDuplicateKey, m') ∧
    customers m' = customers m ∧ UserID u' = UserID u.
Proof.
  intros Hidx Hk Hname Hne Hgo.
  destruct (CreateUser_taken u m k d Hidx Hk Hname Hne Hgo) as (u' & m' & H & Hc & _ & Hu).
  exists u', m'. repeat split; assumption.
Qed.

Lemma EnsureIndexes_done m0 m :
  EnsureIndexes flt m0 = (None, m) →
  usernameIndex m = true ∧ customers m = customers m0 ∧
  addresses m = addresses m0 ∧ cards m = cards m0 ∧ noid m = noid m0 ∧
  ncall m = S (ncall m0).
Proof.
  unfold EnsureIndexes, call_unlisted. destruct (flt (ncall m0)); [discriminate|].
  cbn [counted usernameIndex customers]. destruct (usernameIndex m0) eqn:Hi.
  - intros H. injection H as <-. cbn. repeat split; assumption || reflexivity.
  - destruct (usernamesUnique (customers m0)); [|discriminate].
    intros H. injection H as <-. cbn. repeat split; reflexivity.
Qed.

(** X8: EnsureIndexes can be repeated.  After a call that succeeded the
    unique index is in place, and a further call that reaches the backend
    succeeds again and changes nothing: records, index and identifier supply
    are as the first call left them.  No call of EnsureIndexes, successful or
    not, alters a record. *)
Theorem EnsureIndexes_is_idempotent (m0 m : Mongo) :
  EnsureIndexes flt m0 = (None, m) →
  usernameIndex m = true ∧
  customers m = customers m0 ∧ addresses m = addresses m0 ∧ cards m = cards m0 ∧
  (flt (ncall m) = None →
   ∃ m', EnsureIndexes flt m = (None, m') ∧ same_records m m') ∧
  (∀ m1, customers (EnsureIndexes flt m1).2 = customers m1 ∧
         addresses (EnsureIndexes flt m1).2 = addresses m1 ∧
         cards (EnsureIndexes flt m1).2 = cards m1).
Proof.
  intros H. destruct (EnsureIndexes_done _ _ H) as (Hi & Hc & Ha & Hcd & _ & _).
  split; [exact Hi|]. split; [exact Hc|]. split; [exact Ha|]. split; [exact Hcd|].
  split.
  - intros Hf. unfold EnsureIndexes, call_unlisted. rewrite Hf.
    cbn [counted usernameIndex]. rewrite Hi. eexists. split; [reflexivity|].
    apply same_records_counted.
  - intros m1. unfold EnsureIndexes, call_unlisted.
    destruct (flt (ncall m1)); [repeat split; reflexivity|].
    cbn [counted usernameIndex customers].
    destruct (usernameIndex m1); [repeat split; reflexivity|].
    destruct (usernamesUnique (customers m1)); repeat split; reflexivity.
Qed.

Lemma length_zip_same {A B} (f : A → B → A) (l : list A) : ∀ k : list B,
  length k = length l → length (zip_with f l k) = length l.
Proof.
  induction l as [|x l IH]; intros [|y k] H; try discriminate; [reflexivity|].
  injection H as H. cbn [zip_with length]. rewrite (IH k H). reflexivity.
Qed.

(** X9: creating the same user twice.  Once EnsureIndexes has succeeded,
    a CreateUser of a user whose username is free succeeds; handing the
    user it returned to CreateUser again, with a fresh identifier drawn for
    it, fails with ErrDuplicateKey, and the customers collection still holds
    the record of the first call, unchanged. *)
Theorem CreateUser_twice_fails_the_second_time (u : User) (m0 m : Mongo) :
  EnsureIndexes flt m0 = (None, m) →
  usernameTaken (Username u) (gen (noid m)) (customers m) = false →
  goes_through flt (ncall m)
    (2 * (length (Cards u) + length (Addresses u) + 1)) →
  gen (noid m + (length (Cards u) + length (Addresses u) + 1)) ≠ gen (noid m) →
  ∃ u1 m1 u2 m2,
    CreateUser gen flt u m = (u1, None, m1) ∧
    CreateUser gen flt u1 m1 = (u2, Some ErrDuplicateKey, m2) ∧
    customers m2 = customers m1 ∧
    ∃ d, customers m2 !! gen (noid m) = Some d ∧ d_username d = Username u.
Proof.
  intros HE Hfree Hgo Hne.
  destruct (EnsureIndexes_done _ _ HE) as (Hi & _).
  assert (Hfree' : usernameIndex m
                   && usernameTaken (Username u) (gen (noid m)) (customers m) = false)
    by (rewrite Hfree; apply andb_false_r).
  assert (Hgo1 : goes_through flt (ncall m) (length (Cards u) + length (Addresses u) + 1))
    by (eapply goes_through_le; [|exact Hgo]; lia).
  destruct (CreateUser_through u m Hgo1 Hfree') as (m1 & HC & Hcu & Hn & Hid & Hu & _).
  cbv zeta in HC, Hcu.
  set (u1 := User_withUserID _ _) in HC.
  assert (Hlc : length (Cards u1) = length (Cards u)).
  { cbn [u1 User_withUserID User_withAddresses User_withCards Cards].
    apply length_zip_same, length_generated. }
  assert (Hla : length (Addresses u1) = length (Addresses u)).
  { cbn [u1 User_withUserID User_withAddresses User_withCards Addresses].
    apply length_zip_same, length_generated. }
  destruct (CreateUser_taken u1 m1 (gen (noid m))
              (mkCustomerDoc (FirstName u) (LastName u) (Username u) (Password u)
                 (Links u)
                 (map gen (seq (S (noid m) + length (Cards u)) (length (Addresses u))))
                 (map gen (seq (S (noid m)) (length (Cards u))))))
    as (u2 & m2 & HC2 & Hcu2 & _).
  - rewrite Hu. exact Hi.
  - rewrite Hcu. apply lookup_insert_eq.
  - reflexivity.
  - rewrite Hid. intros Heq. apply Hne. rewrite Heq. f_equal. lia.
  - rewrite Hlc, Hla, Hn. intros i Hi'.
    replace (i + (ncall m + length (Cards u) + length (Addresses u) + 1))
      with ((i + (length (Cards u) + length (Addresses u) + 1)) + ncall m) by lia.
    apply Hgo. lia.
  - exists u1, m1, u2, m2. split; [exact HC|]. split; [exact HC2|].
    split; [exact Hcu2|]. eexists. rewrite Hcu2, Hcu.
    split; [apply lookup_insert_eq|reflexivity].
Qed.

(** ** Queries: GetUserByName, GetUsers, GetCards, GetAddresses *)

Lemma fetched_fields k d :
  UserID (fetched k d) = Hex k ∧ Username (fetched k d) = d_username d ∧
  FirstName (fetched k d) = d_firstName d ∧ LastName (fetched k d) = d_lastName d ∧
  Password (fetched k d) = d_password d ∧ Links (fetched k d) = d_links d ∧
  Addresses (fetched k d) = map (λ id, Address_withID zeroAddress (Hex id)) (d_addresses d) ∧
  Cards (fetched k d) = map (λ id, Card_withID zeroCard (Hex id)) (d_cards d).
Proof. repeat split; reflexivity. Qed.

Lemma GetUser_fetched k d m :
  flt (ncall m) = None → customers m !! k = Some d →
  (GetUser flt (Hex k) m).1 = (fetched k d, None).
Proof.
  intros Hf Hk. rewrite (GetUser_found flt (Hex k) k d m (ObjectIDFromHex_Hex k) Hf Hk).
  reflexivity.
Qed.

(** X10: GetUserByName, when its query reaches the backend.  If no customer
    has the username it fails with ErrNoDocuments.  If one does, it returns
    a customer that has this username, in the form GetUser gives: GetUser on
    the UserID returned yields the same user; and when the username is held
    by one customer only, that customer is the one returned. *)
Theorem GetUserByName_finds_the_username (name : string) (m : Mongo) :
  flt (ncall m) = None →
  ((∀ k d, customers m !! k = Some d → d_username d ≠ name) →
   GetUserByName flt name m = (users.New, Some ErrNoDocuments, counted m)) ∧
  (∀ k d, customers m !! k = Some d → d_username d = name →
   ∃ k' d', GetUserByName flt name m = (fetched k' d', None, counted m) ∧
     customers m !! k' = Some d' ∧
     Username (fetched k' d') = name ∧ UserID (fetched k' d') = Hex k' ∧
     (flt (S (ncall m)) = None →
      (GetUser flt (UserID (fetched k' d')) (counted m)).1 = (fetched k' d', None)) ∧
     ((∀ k2 d2, customers m !! k2 = Some d2 → d_username d2 = name → k2 = k) →
      k' = k ∧ d' = d)).
Proof.
  intros Hf. unfold GetUserByName, FindOne_username, call_unlisted. rewrite Hf.
  cbn [counted customers]. split.
  - intros Hno.
    destruct (list_find _ _) as [[i [k d]]|] eqn:E; [|reflexivity].
    apply list_find_Some in E as (Hl & HP & _).
    apply list_elem_of_lookup_2, elem_of_map_to_list in Hl.
    destruct (Hno k d Hl HP).
  - intros k d Hk Hname.
    destruct (list_find _ _) as [[i [k' d']]|] eqn:E.
    + apply list_find_Some in E as (Hl & HP & _).
      apply list_elem_of_lookup_2, elem_of_map_to_list in Hl. cbn in HP.
      exists k', d'. split; [reflexivity|]. split; [exact Hl|].
      split; [exact HP|]. split; [reflexivity|]. split.
      * intros Hf'. apply GetUser_fetched; [exact Hf'|exact Hl].
      * intros Huniq. pose proof (Huniq k' d' Hl HP) as ->.
        split; [reflexivity|]. congruence.
    + apply list_find_None in E. rewrite Forall_forall in E.
      destruct (E (k, d)); [apply elem_of_map_to_list, Hk|exact Hname].
Qed.

Lemma elem_of_map_map_to_list {D B} (f : ObjectID * D → B) (coll : gmap ObjectID D) b :
  b ∈ map f (map_to_list coll) ↔ ∃ k d, coll !! k = Some d ∧ b = f (k, d).
Proof.
  rewrite list_elem_of_In, in_map_iff. split.
  - intros ([k d] & <- & Hin). apply list_elem_of_In, elem_of_map_to_list in Hin.
    exists k, d. split; [exact Hin|reflexivity].
  - intros (k & d & Hk & ->). exists (k, d). split; [reflexivity|].
    apply list_elem_of_In, elem_of_map_to_list, Hk.
Qed.

Lemma NoDup_keys_Hex {D} (coll : gmap ObjectID D) :
  NoDup (map (λ kd : ObjectID * D, Hex kd.1) (map_to_list coll)).
Proof.
  rewrite <- (map_map fst Hex). apply NoDup_map_Hex.
  apply (NoDup_fst_map_to_list coll).
Qed.

(** X11: GetUsers.  When its scan and the draining of the cursor go
    through, it returns no error and exactly one user per customer record,
    none for an empty collection, each in the form GetUser gives for its
    identifier, with pairwise distinct UserIDs.  When the scan or the
    draining fails, it returns that error and no user. *)
Theorem GetUsers_lists_every_customer (m : Mongo) :
  (flt (ncall m) = None → flt (S (ncall m)) = None →
   ∃ us m', GetUsers flt m = (us, None, m') ∧
     length us = size (customers m) ∧
     NoDup (map UserID us) ∧
     (∀ u, u ∈ us ↔ ∃ k d, customers m !! k = Some d ∧ u = fetched k d) ∧
     (∀ u, u ∈ us → flt (ncall m') = None →
           (GetUser flt (UserID u) m').1 = (u, None))) ∧
  (∀ ft, flt (ncall m) = Some ft ∨
         (flt (ncall m) = None ∧ flt (S (ncall m)) = Some ft) →
         (GetUsers flt m).1 = ([], Some (backend ft))).
Proof.
  split.
  - intros H0 H1. unfold GetUsers, FindAll, call_unlisted. rewrite H0.
    rewrite All_eq. cbn [counted ncall customers]. rewrite H1.
    eexists _, _. split; [reflexivity|].
    split; [rewrite length_map; apply length_map_to_list|].
    split; [rewrite map_map; apply (NoDup_keys_Hex (customers m))|].
    split; [intros u; apply (elem_of_map_map_to_list (λ kd, fetched kd.1 kd.2))|].
    intros u Hu Hf.
    apply (elem_of_map_map_to_list (λ kd, fetched kd.1 kd.2)) in Hu
      as (k & d & Hk & ->).
    apply GetUser_fetched; [exact Hf|exact Hk].
  - intros ft [H0|[H0 H1]]; unfold GetUsers, FindAll, call_unlisted; rewrite H0.
    + reflexivity.
    + rewrite All_eq. cbn [counted ncall]. rewrite H1. reflexivity.
Qed.

Lemma GetCard_stored (k : ObjectID) (d : Card) m :
  flt (ncall m) = None → cards m !! k = Some d →
  (GetCard flt (Hex k) m).1 = (Card_withID d (Hex k), None).
Proof.
  intros Hf Hk. unfold GetCard. rewrite IsValidObjectID_Hex, fromHex_Hex. cbn [negb].
  rewrite FindOne_through, Hk by exact Hf. reflexivity.
Qed.

Lemma GetAddress_stored (k : ObjectID) (d : Address) m :
  flt (ncall m) = None → addresses m !! k = Some d →
  (GetAddress flt (Hex k) m).1 = (Address_withID d (Hex k), None).
Proof.
  intros Hf Hk. unfold GetAddress. rewrite IsValidObjectID_Hex, fromHex_Hex. cbn [negb].
  rewrite FindOne_through, Hk by exact Hf. reflexivity.
Qed.

(** X12: GetCards and GetAddresses.  When the scan and the draining go
    through, each returns no error and exactly one entity per stored record,
    with pairwise distinct identifiers, each equal to what GetCard or
    GetAddress returns for its identifier.  When the scan or the draining
    fails, each returns that error and an empty list. *)
Theorem GetCards_GetAddresses_list_every_record (m : Mongo) :
  (flt (ncall m) = None → flt (S (ncall m)) = None →
   (∃ cs m', GetCards flt m = (cs, None, m') ∧
      length cs = size (cards m) ∧ NoDup (map Card_ID cs) ∧
      (∀ c, c ∈ cs ↔ ∃ k d, cards m !! k = Some d ∧ c = Card_withID d (Hex k)) ∧
      (∀ c, c ∈ cs → flt (ncall m') = None →
            (GetCard flt (Card_ID c) m').1 = (c, None))) ∧
   (∃ adrs m', GetAddresses flt m = (adrs, None, m') ∧
      length adrs = size (addresses m) ∧ NoDup (map Address_ID adrs) ∧
      (∀ a, a ∈ adrs ↔ ∃ k d, addresses m !! k = Some d ∧ a = Address_withID d (Hex k)) ∧
      (∀ a, a ∈ adrs → flt (ncall m') = None →
            (GetAddress flt (Address_ID a) m').1 = (a, None)))) ∧
  (∀ ft, flt (ncall m) = Some ft ∨
         (flt (ncall m) = None ∧ flt (S (ncall m)) = Some ft) →
         (GetCards flt m).1 = ([], Some (backend ft)) ∧
         (GetAddresses flt m).1 = ([], Some (backend ft))).
Proof.
  split.
  - intros H0 H1. split.
    + unfold GetCards, FindAll, call_unlisted. rewrite H0.
      rewrite All_eq. cbn [counted ncall cards]. rewrite H1.
      eexists _, _. split; [reflexivity|].
      split; [rewrite length_map; apply length_map_to_list|].
      split; [rewrite map_map; apply (NoDup_keys_Hex (cards m))|].
      split; [intros c; apply (elem_of_map_map_to_list decodeCard)|].
      intros c Hc Hf.
      apply (elem_of_map_map_to_list decodeCard) in Hc as (k & d & Hk & ->).
      apply GetCard_stored; [exact Hf|exact Hk].
    + unfold GetAddresses, FindAll, call_unlisted. rewrite H0.
      rewrite All_eq. cbn [counted ncall addresses]. rewrite H1.
      eexists _, _. split; [reflexivity|].
      split; [rewrite length_map; apply length_map_to_list|].
      split; [rewrite map_map; apply (NoDup_keys_Hex (addresses m))|].
      split; [intros a; apply (elem_of_map_map_to_list decodeAddress)|].
      intros a Ha Hf.
      apply (elem_of_map_map_to_list decodeAddress) in Ha as (k & d & Hk & ->).
      apply GetAddress_stored; [exact Hf|exact Hk].
  - intros ft [H0|[H0 H1]]; unfold GetCards, GetAddresses, FindAll, call_unlisted;
      rewrite H0.
    + split; reflexivity.
    + rewrite !All_eq. cbn [counted ncall]. rewrite H1. split; reflexivity.
Qed.

(** ** CreateCard and CreateAddress, followed by a read *)

Lemma userid_cases (userid : string) :
  userid = "" ∨ IsValidObjectID userid = true →
  (bool_decide (userid ≠ "") = false) ∨
  (bool_decide (userid ≠ "") = true ∧ ∃ uid, ObjectIDFromHex userid = Some uid).
Proof.
  intros [->|Hv]; [left; reflexivity|]. right.
  unfold IsValidObjectID in Hv. destruct (ObjectIDFromHex userid) as [uid|] eqn:E;
    [|discriminate].
  split; [apply (valid_userid_nonempty _ _ E)|]. exists uid. reflexivity.
Qed.

(** X13: an entity can be read back under the identifier it was given.  For
    a userid that is empty or well-formed, when the calls go through,
    CreateCard returns no error and hands back the card with the generated
    identifier, and GetCard on that identifier returns the very same card;
    with an empty userid one write is made and no customer is touched.
    CreateAddress and GetAddress behave alike. *)
Theorem Create_then_Get_returns_the_entity
    (ca : Card) (a : Address) (userid : string) (m : Mongo) :
  userid = "" ∨ IsValidObjectID userid = true →
  goes_through flt (ncall m) 3 →
  (∃ ca' m', CreateCard gen flt ca userid m = (ca', None, m') ∧
     ca' = Card_withID ca (Hex (gen (noid m))) ∧
     (GetCard flt (Card_ID ca') m').1 = (ca', None) ∧
     addresses m' = addresses m ∧
     (userid = "" → customers m' = customers m ∧
                    calls m' = calls m ++ [CReplaceOne "cards" (gen (noid m))])) ∧
  (∃ a' m', CreateAddress gen flt a userid m = (a', None, m') ∧
     a' = Address_withID a (Hex (gen (noid m))) ∧
     (GetAddress flt (Address_ID a') m').1 = (a', None) ∧
     cards m' = cards m ∧
     (userid = "" → customers m' = customers m ∧
                    calls m' = calls m ++ [CReplaceOne "addresses" (gen (noid m))])).
Proof.
  intros Hu Hgo.
  pose proof (goes_through_at (ncall m) 3 0 ltac:(lia) Hgo) as H0.
  pose proof (goes_through_at (ncall m) 3 1 ltac:(lia) Hgo) as H1.
  pose proof (goes_through_at (ncall m) 3 2 ltac:(lia) Hgo) as H2.
  rewrite Nat.add_0_r in H0.
  replace (ncall m + 1) with (S (ncall m)) in H1 by lia.
  replace (ncall m + 2) with (S (S (ncall m))) in H2 by lia.
  destruct (userid_cases userid Hu) as [He|[Hne [uid Hid]]].
  - split.
    + unfold CreateCard. rewrite He. cbn [andb NewObjectID].
      rewrite ReplaceOne_cards_through by exact H0. cbv zeta.
      eexists _, _. split; [reflexivity|]. split; [reflexivity|].
      split; [|split; [reflexivity|intros _; split; reflexivity]].
      cbn [MongoCard_AddID MC_Card MC_ID Card_withID Card_ID].
      apply GetCard_stored; [exact H1|]. cbn. apply lookup_insert_eq.
    + unfold CreateAddress. rewrite He. cbn [andb NewObjectID].
      rewrite ReplaceOne_addresses_through by exact H0. cbv zeta.
      eexists _, _. split; [reflexivity|]. split; [reflexivity|].
      split; [|split; [reflexivity|intros _; split; reflexivity]].
      cbn [MongoAddress_AddID MA_Address MA_ID Address_withID Address_ID].
      apply GetAddress_stored; [exact H1|]. cbn. apply lookup_insert_eq.
  - destruct (IsValidObjectID_true _ _ Hid) as [Hv _]. split.
    + unfold CreateCard. rewrite Hne, Hv. cbn [negb andb NewObjectID].
      rewrite ReplaceOne_cards_through by exact H0. cbv zeta.
      unfold appendAttributeId. rewrite Hid.
      rewrite UpdateOne_addToSet_through by exact H1.
      eexists _, _. split; [reflexivity|]. split; [reflexivity|].
      split; [|split; [reflexivity|]].
      * cbn [MongoCard_AddID MC_Card MC_ID Card_withID Card_ID].
        apply GetCard_stored; [exact H2|]. cbn. apply lookup_insert_eq.
      * intros ->. rewrite empty_string_invalid in Hid. discriminate.
    + unfold CreateAddress. rewrite Hne, Hv. cbn [negb andb NewObjectID].
      rewrite ReplaceOne_addresses_through by exact H0. cbv zeta.
      unfold appendAttributeId. rewrite Hid.
      rewrite UpdateOne_addToSet_through by exact H1.
      eexists _, _. split; [reflexivity|]. split; [reflexivity|].
      split; [|split; [reflexivity|]].
      * cbn [MongoAddress_AddID MA_Address MA_ID Address_withID Address_ID].
        apply GetAddress_stored; [exact H2|]. cbn. apply lookup_insert_eq.
      * intros ->. rewrite empty_string_invalid in Hid. discriminate.
Qed.

Lemma addToSet_cards id d :
  d_cards (addToSet "cards" id d)
    = (if decide (id ∈ d_cards d) then d_cards d else d_cards d ++ [id]) ∧
  d_addresses (addToSet "cards" id d) = d_addresses d ∧
  d_firstName (addToSet "cards" id d) = d_firstName d ∧
  d_lastName (addToSet "cards" id d) = d_lastName d ∧
  d_username (addToSet "cards" id d) = d_username d ∧
  d_password (addToSet "cards" id d) = d_password d ∧
  d_links (addToSet "cards" id d) = d_links d.
Proof. unfold addToSet. destruct (decide (id ∈ d_cards d)); repeat split; reflexivity. Qed.

Lemma addToSet_addresses id d :
  d_addresses (addToSet "addresses" id d)
    = (if decide (id ∈ d_addresses d) then d_addresses d else d_addresses d ++ [id]) ∧
  d_cards (addToSet "addresses" id d) = d_cards d ∧
  d_firstName (addToSet "addresses" id d) = d_firstName d ∧
  d_lastName (addToSet "addresses" id d) = d_lastName d ∧
  d_username (addToSet "addresses" id d) = d_username d ∧
  d_password (addToSet "addresses" id d) = d_password d ∧
  d_links (addToSet "addresses" id d) = d_links d.
Proof.
  unfold addToSet. destruct (decide (id ∈ d_addresses d)); repeat split; reflexivity.
Qed.

Lemma elem_of_added (id : ObjectID) (l : list ObjectID) :
  id ∈ (if decide (id ∈ l) then l else l ++ [id]).
Proof.
  destruct (decide (id ∈ l)) as [H|H]; [exact H|].
  apply elem_of_app. right. apply list_elem_of_singleton. reflexivity.
Qed.

(** X14: linking to an existing customer.  For the userid of a stored
    customer, when the calls go through, CreateCard appends the new card's
    identifier to that customer's card references, unless it is among them
    already, and changes nothing else in that record nor any other customer;
    GetUser on the userid then lists a placeholder with the identifier
    handed back.  CreateAddress does the same with the address references. *)
Theorem Create_attribute_links_to_the_customer
    (ca : Card) (a : Address) (userid : string) (uid : ObjectID)
    (d : CustomerDoc) (m : Mongo) :
  ObjectIDFromHex userid = Some uid →
  customers m !! uid = Some d →
  goes_through flt (ncall m) 3 →
  (∃ ca' m', CreateCard gen flt ca userid m = (ca', None, m') ∧
     Card_ID ca' = Hex (gen (noid m)) ∧
     (∃ d', customers m' !! uid = Some d' ∧
        d_cards d' = (if decide (gen (noid m) ∈ d_cards d) then d_cards d
                      else d_cards d ++ [gen (noid m)]) ∧
        d_addresses d' = d_addresses d ∧ d_username d' = d_username d ∧
        d_password d' = d_password d ∧ d_firstName d' = d_firstName d ∧
        d_lastName d' = d_lastName d ∧ d_links d' = d_links d) ∧
     (∀ k, k ≠ uid → customers m' !! k = customers m !! k) ∧
     ∃ u, (GetUser flt userid m').1 = (u, None) ∧
          Card_withID zeroCard (Card_ID ca') ∈ Cards u ∧
          Addresses u = Addresses (fetched uid d)) ∧
  (∃ a' m', CreateAddress gen flt a userid m = (a', None, m') ∧
     Address_ID a' = Hex (gen (noid m)) ∧
     (∃ d', customers m' !! uid = Some d' ∧
        d_addresses d' = (if decide (gen (noid m) ∈ d_addresses d) then d_addresses d
                          else d_addresses d ++ [gen (noid m)]) ∧
        d_cards d' = d_cards d ∧ d_username d' = d_username d ∧
        d_password d' = d_password d ∧ d_firstName d' = d_firstName d ∧
        d_lastName d' = d_lastName d ∧ d_links d' = d_links d) ∧
     (∀ k, k ≠ uid → customers m' !! k = customers m !! k) ∧
     ∃ u, (GetUser flt userid m').1 = (u, None) ∧
          Address_withID zeroAddress (Address_ID a') ∈ Addresses u ∧
          Cards u = Cards (fetched uid d)).
Proof.
  intros Hid Hd Hgo.
  pose proof (goes_through_at (ncall m) 3 0 ltac:(lia) Hgo) as H0.
  pose proof (goes_through_at (ncall m) 3 1 ltac:(lia) Hgo) as H1.
  pose proof (goes_through_at (ncall m) 3 2 ltac:(lia) Hgo) as H2.
  rewrite Nat.add_0_r in H0.
  replace (ncall m + 1) with (S (ncall m)) in H1 by lia.
  replace (ncall m + 2) with (S (S (ncall m))) in H2 by lia.
  destruct (valid_userid_nonempty _ _ Hid) as [Hne Hv].
  split.
  - unfold CreateCard. rewrite Hne, Hv. cbn [negb andb NewObjectID].
    rewrite ReplaceOne_cards_through by exact H0. cbv zeta.
    unfold appendAttributeId. rewrite Hid.
    rewrite UpdateOne_addToSet_through by exact H1.
    eexists _, _. split; [reflexivity|]. split; [reflexivity|].
    cbn [with_customers with_cards logged customers MC_ID MongoCard_AddID MC_Card
         Card_withID Card_ID].
    destruct (addToSet_cards (gen (noid m)) d) as (A1 & A2 & A3 & A4 & A5 & A6 & A7).
    assert (Hd' : alter (addToSet "cards" (gen (noid m))) uid (customers m) !! uid
                  = Some (addToSet "cards" (gen (noid m)) d))
      by (rewrite lookup_alter_eq, Hd; reflexivity).
    split; [|split].
    + eexists. split; [exact Hd'|]. repeat split; assumption.
    + intros k Hk. apply lookup_alter_ne. congruence.
    + eexists. split.
      { erewrite (GetUser_found flt userid uid); [reflexivity|exact Hid|exact H2|exact Hd']. }
      fold (fetched uid (addToSet "cards" (gen (noid m)) d)).
      destruct (fetched_fields uid (addToSet "cards" (gen (noid m)) d))
        as (_ & _ & _ & _ & _ & _ & FA & FC).
      destruct (fetched_fields uid d) as (_ & _ & _ & _ & _ & _ & FA0 & _).
      rewrite FA, FC, FA0, A1, A2. split; [|reflexivity].
      apply list_elem_of_In, in_map_iff. exists (gen (noid m)).
      split; [reflexivity|]. apply list_elem_of_In, elem_of_added.
  - unfold CreateAddress. rewrite Hne, Hv. cbn [negb andb NewObjectID].
    rewrite ReplaceOne_addresses_through by exact H0. cbv zeta.
    unfold appendAttributeId. rewrite Hid.
    rewrite UpdateOne_addToSet_through by exact H1.
    eexists _, _. split; [reflexivity|]. split; [reflexivity|].
    cbn [with_customers with_addresses logged customers MA_ID MongoAddress_AddID
         MA_Address Address_withID Address_ID].
    destruct (addToSet_addresses (gen (noid m)) d) as (A1 & A2 & A3 & A4 & A5 & A6 & A7).
    assert (Hd' : alter (addToSet "addresses" (gen (noid m))) uid (customers m) !! uid
                  = Some (addToSet "addresses" (gen (noid m)) d))
      by (rewrite lookup_alter_eq, Hd; reflexivity).
    split; [|split].
    + eexists. split; [exact Hd'|]. repeat split; assumption.
    + intros k Hk. apply lookup_alter_ne. congruence.
    + eexists. split.
      { erewrite (GetUser_found flt userid uid); [reflexivity|exact Hid|exact H2|exact Hd']. }
      fold (fetched uid (addToSet "addresses" (gen (noid m)) d)).
      destruct (fetched_fields uid (addToSet "addresses" (gen (noid m)) d))
        as (_ & _ & _ & _ & _ & _ & FA & FC).
      destruct (fetched_fields uid d) as (_ & _ & _ & _ & _ & _ & _ & FC0).
      rewrite FA, FC, FC0, A1, A2. split; [|reflexivity].
      apply list_elem_of_In, in_map_iff. exists (gen (noid m)).
      split; [reflexivity|]. apply list_elem_of_In, elem_of_added.
Qed.

(** ** appendAttributeId and removeAttributeId *)

Lemma addToSet_idem attr id d : addToSet attr id (addToSet attr id d) = addToSet attr id d.
Proof.
  unfold addToSet. destruct (decide (attr = "addresses")) as [Ha|Ha].
  - destruct (decide (id ∈ d_addresses d)) as [Hin|Hin].
    + rewrite decide_True by exact Hin. reflexivity.
    + cbn [d_addresses]. rewrite decide_True; [reflexivity|].
      apply elem_of_app. right. apply list_elem_of_singleton. reflexivity.
  - destruct (decide (attr = "cards")) as [Hc|Hc]; [|reflexivity].
    destruct (decide (id ∈ d_cards d)) as [Hin|Hin].
    + rewrite decide_True by exact Hin. reflexivity.
    + cbn [d_cards]. rewrite decide_True; [reflexivity|].
      apply elem_of_app. right. apply list_elem_of_singleton. reflexivity.
Qed.

Lemma filter_ne_snoc (id : ObjectID) (l : list ObjectID) :
  id ∉ l → filter (λ x, x ≠ id) (l ++ [id]) = l.
Proof.
  intros Hn. rewrite filter_app, (filter_ne_absent _ _ Hn).
  rewrite filter_cons_False by (intros H; apply H; reflexivity).
  rewrite filter_nil. apply app_nil_r.
Qed.

Lemma pull_addToSet_cards id d :
  id ∉ d_cards d → pull "cards" id (addToSet "cards" id d) = d.
Proof.
  intros Hn. destruct (pull_cards id (addToSet "cards" id d))
    as (P1 & P2 & P3 & P4 & P5 & P6 & P7).
  destruct (addToSet_cards id d) as (A1 & A2 & A3 & A4 & A5 & A6 & A7).
  rewrite decide_False in A1 by exact Hn.
  rewrite A1, filter_ne_snoc in P1 by exact Hn.
  destruct d, (pull "cards" id _). cbn in *. congruence.
Qed.

Lemma pull_addToSet_addresses id d :
  id ∉ d_addresses d → pull "addresses" id (addToSet "addresses" id d) = d.
Proof.
  intros Hn. destruct (pull_addresses id (addToSet "addresses" id d))
    as (P1 & P2 & P3 & P4 & P5 & P6 & P7).
  destruct (addToSet_addresses id d) as (A1 & A2 & A3 & A4 & A5 & A6 & A7).
  rewrite decide_False in A1 by exact Hn.
  rewrite A1, filter_ne_snoc in P1 by exact Hn.
  destruct d, (pull "addresses" id _). cbn in *. congruence.
Qed.

Lemma UpdateOne_pull_through uid attr id m :
  flt (ncall m) = None →
  UpdateOne_pull flt uid attr id m =
    (None, let m := logged (CUpdateOne uid "$pull" attr id) m in
           with_customers (alter (pull attr id) uid (customers m)) m).
Proof. intros H. unfold UpdateOne_pull, call. rewrite H. reflexivity. Qed.

Lemma added_members (id : ObjectID) (l : list ObjectID) :
  (∀ x, x ∈ (if decide (id ∈ l) then l else l ++ [id]) ↔ x = id ∨ x ∈ l) ∧
  (NoDup l → NoDup (if decide (id ∈ l) then l else l ++ [id])).
Proof.
  destruct (decide (id ∈ l)) as [Hin|Hin]; split.
  - intros x. split; [tauto|]. intros [->|H]; assumption.
  - tauto.
  - intros x. rewrite elem_of_app, list_elem_of_singleton. tauto.
  - intros Hnd. apply NoDup_app. split; [exact Hnd|]. split.
    + intros x Hx Hx'. apply list_elem_of_singleton in Hx' as ->. contradiction.
    + apply NoDup_singleton.
Qed.

(** X15: appendAttributeId adds to a set.  With a malformed userid it
    fails with the driver's invalid-hex error and makes no driver call.  With
    the userid of a customer, when the update goes through, the identifier
    is among that customer's references afterwards, the references it had
    are all kept, none is duplicated, and no other customer changes; a
    second, identical call changes no customer at all.  With a well-formed
    userid that no customer has, nothing changes and no error is returned. *)
Theorem appendAttributeId_adds_to_a_set
    (attr : string) (id : ObjectID) (userid : string) (m : Mongo) :
  (ObjectIDFromHex userid = None →
   appendAttributeId flt attr id userid m = (Some ErrInvalidHex, m)) ∧
  (∀ uid, ObjectIDFromHex userid = Some uid →
     flt (ncall m) = None → flt (S (ncall m)) = None →
     ∃ m1 m2,
       appendAttributeId flt attr id userid m = (None, m1) ∧
       appendAttributeId flt attr id userid m1 = (None, m2) ∧
       customers m2 = customers m1 ∧
       addresses m1 = addresses m ∧ cards m1 = cards m ∧
       (∀ k, k ≠ uid → customers m1 !! k = customers m !! k) ∧
       (customers m !! uid = None → customers m1 = customers m) ∧
       (∀ d, customers m !! uid = Some d →
          ∃ d1, customers m1 !! uid = Some d1 ∧
            (attr = "cards" →
               (∀ x, x ∈ d_cards d1 ↔ x = id ∨ x ∈ d_cards d) ∧
               (NoDup (d_cards d) → NoDup (d_cards d1)) ∧
               d_addresses d1 = d_addresses d) ∧
            (attr = "addresses" →
               (∀ x, x ∈ d_addresses d1 ↔ x = id ∨ x ∈ d_addresses d) ∧
               (NoDup (d_addresses d) → NoDup (d_addresses d1)) ∧
               d_cards d1 = d_cards d))).
Proof.
  split.
  - intros Hbad. unfold appendAttributeId. rewrite Hbad. reflexivity.
  - intros uid Hid H0 H1. eexists _, _.
    split; [unfold appendAttributeId; rewrite Hid;
            rewrite UpdateOne_addToSet_through by exact H0; reflexivity|].
    split; [unfold appendAttributeId; rewrite Hid;
            rewrite UpdateOne_addToSet_through by exact H1; reflexivity|].
    cbn [with_customers logged customers addresses cards].
    split.
    { apply map_eq. intros k. destruct (decide (k = uid)) as [->|Hk].
      - rewrite !lookup_alter_eq. destruct (customers m !! uid) as [d|]; [|reflexivity].
        cbn. rewrite addToSet_idem. reflexivity.
      - rewrite lookup_alter_ne by congruence. reflexivity. }
    split; [reflexivity|]. split; [reflexivity|].
    split; [intros k Hk; apply lookup_alter_ne; congruence|].
    split; [intros Hnone; apply alter_id', Hnone|].
    intros d Hd. exists (addToSet attr id d).
    split; [rewrite lookup_alter_eq, Hd; reflexivity|]. split.
    + intros ->. destruct (addToSet_cards id d) as (A1 & A2 & _).
      rewrite A1, A2. destruct (added_members id (d_cards d)) as [M1 M2].
      split; [exact M1|]. split; [exact M2|reflexivity].
    + intros ->. destruct (addToSet_addresses id d) as (A1 & A2 & _).
      rewrite A1, A2. destruct (added_members id (d_addresses d)) as [M1 M2].
      split; [exact M1|]. split; [exact M2|reflexivity].
Qed.

(** X16: removeAttributeId takes a reference out of one customer.  With a
    malformed userid it fails with the driver's invalid-hex error and makes
    no driver call.  With the userid of a customer, when the update goes
    through, every occurrence of the identifier is gone from that customer's
    references, the others keep their order, and no other customer changes.
    It undoes appendAttributeId: appending an identifier the customer did
    not refer to and removing it again leaves the customers collection as it
    was. *)
Theorem removeAttributeId_undoes_appendAttributeId
    (id : ObjectID) (userid : string) (m : Mongo) :
  (ObjectIDFromHex userid = None →
   ∀ attr, removeAttributeId flt attr id userid m = (Some ErrInvalidHex, m)) ∧
  (∀ uid d, ObjectIDFromHex userid = Some uid → customers m !! uid = Some d →
     flt (ncall m) = None → flt (S (ncall m)) = None →
     (∃ m1 d1, removeAttributeId flt "cards" id userid m = (None, m1) ∧
        customers m1 !! uid = Some d1 ∧
        d_cards d1 = filter (λ x, x ≠ id) (d_cards d) ∧ (id ∉ d_cards d1) ∧
        d_addresses d1 = d_addresses d ∧
        (∀ k, k ≠ uid → customers m1 !! k = customers m !! k)) ∧
     (∃ m1 d1, removeAttributeId flt "addresses" id userid m = (None, m1) ∧
        customers m1 !! uid = Some d1 ∧
        d_addresses d1 = filter (λ x, x ≠ id) (d_addresses d) ∧
        (id ∉ d_addresses d1) ∧
        d_cards d1 = d_cards d ∧
        (∀ k, k ≠ uid → customers m1 !! k = customers m !! k)) ∧
     (id ∉ d_cards d →
      ∃ m1 m2, appendAttributeId flt "cards" id userid m = (None, m1) ∧
               removeAttributeId flt "cards" id userid m1 = (None, m2) ∧
               customers m2 = customers m) ∧
     (id ∉ d_addresses d →
      ∃ m1 m2, appendAttributeId flt "addresses" id userid m = (None, m1) ∧
               removeAttributeId flt "addresses" id userid m1 = (None, m2) ∧
               customers m2 = customers m)).
Proof.
  split.
  - intros Hbad attr. unfold removeAttributeId. rewrite Hbad. reflexivity.
  - intros uid d Hid Hd H0 H1.
    assert (Hnotin : ∀ l : list ObjectID, id ∉ filter (λ x, x ≠ id) l).
    { intros l Hin. apply list_elem_of_filter in Hin as [Hne _]. apply Hne. reflexivity. }
    split; [|split; [|split]].
    + unfold removeAttributeId. rewrite Hid, UpdateOne_pull_through by exact H0.
      eexists _, (pull "cards" id d). split; [reflexivity|].
      cbn [with_customers logged customers].
      split; [rewrite lookup_alter_eq, Hd; reflexivity|].
      destruct (pull_cards id d) as (P1 & P2 & _). rewrite P1, P2.
      split; [reflexivity|]. split; [apply Hnotin|]. split; [reflexivity|].
      intros k Hk. apply lookup_alter_ne. congruence.
    + unfold removeAttributeId. rewrite Hid, UpdateOne_pull_through by exact H0.
      eexists _, (pull "addresses" id d). split; [reflexivity|].
      cbn [with_customers logged customers].
      split; [rewrite lookup_alter_eq, Hd; reflexivity|].
      destruct (pull_addresses id d) as (P1 & P2 & _). rewrite P1, P2.
      split; [reflexivity|]. split; [apply Hnotin|]. split; [reflexivity|].
      intros k Hk. apply lookup_alter_ne. congruence.
    + intros Hn. eexists _, _.
      split; [unfold appendAttributeId; rewrite Hid;
              rewrite UpdateOne_addToSet_through by exact H0; reflexivity|].
      split; [unfold removeAttributeId; rewrite Hid;
              rewrite UpdateOne_pull_through by exact H1; reflexivity|].
      cbn [with_customers logged customers]. apply map_eq. intros k.
      destruct (decide (k = uid)) as [->|Hk].
      * rewrite !lookup_alter_eq, Hd. cbn. rewrite pull_addToSet_cards by exact Hn.
        reflexivity.
      * rewrite !lookup_alter_ne by congruence. reflexivity.
    + intros Hn. eexists _, _.
      split; [unfold appendAttributeId; rewrite Hid;
              rewrite UpdateOne_addToSet_through by exact H0; reflexivity|].
      split; [unfold removeAttributeId; rewrite Hid;
              rewrite UpdateOne_pull_through by exact H1; reflexivity|].
      cbn [with_customers logged customers]. apply map_eq. intros k.
      destruct (decide (k = uid)) as [->|Hk].
      * rewrite !lookup_alter_eq, Hd. cbn. rewrite pull_addToSet_addresses by exact Hn.
        reflexivity.
      * rewrite !lookup_alter_ne by congruence. reflexivity.
Qed.

(** ** What Delete never does *)

Lemma only_removes_refl m : only_removes m m.
Proof.
  split; [reflexivity|]. split; [reflexivity|]. split; [|split; reflexivity].
  intros k d' Hk. exists d'. repeat split; try assumption; reflexivity.
Qed.

Lemma only_removes_trans m1 m2 m3 :
  only_removes m1 m2 → only_removes m2 m3 → only_removes m1 m3.
Proof.
  intros (A1 & C1 & U1 & I1 & N1) (A2 & C2 & U2 & I2 & N2).
  split; [etrans; eassumption|]. split; [etrans; eassumption|].
  split; [|split; congruence].
  intros k d3 Hk. destruct (U2 k d3 Hk) as (d2 & Hk2 & F1 & F2 & F3 & F4 & F5 & F6 & F7).
  destruct (U1 k d2 Hk2) as (d1 & Hk1 & G1 & G2 & G3 & G4 & G5 & G6 & G7).
  exists d1. split; [exact Hk1|].
  repeat split; try congruence; etrans; eassumption.
Qed.

Lemma same_records_only_removes m m' : same_records m m' → only_removes m m'.
Proof.
  intros (Hc & Ha & Hcd & Hi & Hn). split; [rewrite Ha; reflexivity|].
  split; [rewrite Hcd; reflexivity|]. split; [|split; assumption].
  intros k d' Hk. rewrite Hc in Hk. exists d'.
  repeat split; try assumption; reflexivity.
Qed.

Lemma only_removes_customers (x : gmap ObjectID CustomerDoc) m :
  x ⊆ customers m → only_removes m (with_customers x m).
Proof.
  intros Hsub. split; [reflexivity|]. split; [reflexivity|]. split; [|split; reflexivity].
  intros k d' Hk. cbn in Hk. exists d'.
  split; [exact (lookup_weaken _ _ _ _ Hk Hsub)|]. repeat split; reflexivity.
Qed.

Lemma only_removes_addresses (x : gmap ObjectID Address) m :
  x ⊆ addresses m → only_removes m (with_addresses x m).
Proof.
  intros Hsub. split; [exact Hsub|]. split; [reflexivity|]. split; [|split; reflexivity].
  intros k d' Hk. exists d'. repeat split; try assumption; reflexivity.
Qed.

Lemma only_removes_cards (x : gmap ObjectID Card) m :
  x ⊆ cards m → only_removes m (with_cards x m).
Proof.
  intros Hsub. split; [reflexivity|]. split; [exact Hsub|]. split; [|split; reflexivity].
  intros k d' Hk. exists d'. repeat split; try assumption; reflexivity.
Qed.

Lemma DeleteMany_only_removes name ids m :
  only_removes m (DeleteMany flt name ids m).2.
Proof.
  unfold DeleteMany, call. destruct (flt (ncall m)); cbn [snd].
  - apply same_records_only_removes, same_records_logged.
  - eapply only_removes_trans;
      [apply same_records_only_removes, (same_records_logged (CDeleteMany name ids))|].
    repeat case_decide.
    + apply only_removes_customers, map_filter_subseteq.
    + apply only_removes_addresses, map_filter_subseteq.
    + apply only_removes_cards, map_filter_subseteq.
    + apply only_removes_refl.
Qed.

Lemma DeleteOne_only_removes name id m :
  only_removes m (DeleteOne flt name id m).2.
Proof.
  unfold DeleteOne, call. destruct (flt (ncall m)); cbn [snd].
  - apply same_records_only_removes, same_records_logged.
  - eapply only_removes_trans;
      [apply same_records_only_removes, (same_records_logged (CDeleteOne name id))|].
    repeat case_decide.
    + apply only_removes_customers, delete_subseteq.
    + apply only_removes_addresses, delete_subseteq.
    + apply only_removes_cards, delete_subseteq.
    + apply only_removes_refl.
Qed.

Lemma filter_ne_subseteq (id : ObjectID) (l : list ObjectID) :
  filter (λ x, x ≠ id) l ⊆ l.
Proof. intros x Hx. apply list_elem_of_filter in Hx as [_ Hx]. exact Hx. Qed.

Lemma pull_shrinks attr id d :
  d_firstName (pull attr id d) = d_firstName d ∧
  d_lastName (pull attr id d) = d_lastName d ∧
  d_username (pull attr id d) = d_username d ∧
  d_password (pull attr id d) = d_password d ∧
  d_links (pull attr id d) = d_links d ∧
  d_addresses (pull attr id d) ⊆ d_addresses d ∧
  d_cards (pull attr id d) ⊆ d_cards d.
Proof.
  unfold pull. repeat case_decide; cbn; repeat split;
    try reflexivity; apply filter_ne_subseteq.
Qed.

Lemma UpdateMany_pull_only_removes attr id m :
  only_removes m (UpdateMany_pull flt attr id m).2.
Proof.
  unfold UpdateMany_pull, call. destruct (flt (ncall m)); cbn [snd].
  - apply same_records_only_removes, same_records_logged.
  - split; [reflexivity|]. split; [reflexivity|]. split; [|split; reflexivity].
    intros k d' Hk. cbn in Hk. rewrite lookup_fmap in Hk.
    destruct (customers m !! k) as [d|]; [|discriminate]. injection Hk as <-.
    exists d. split; [reflexivity|]. apply pull_shrinks.
Qed.

(** X17: Delete only removes.  For every entity name, every identifier and
    whatever the backend does, the state after Delete holds no address or
    card record that was not there before, and every customer it holds was
    there before with the same scalar fields and with no reference it did
    not have; the index and the identifier supply are untouched. *)
Theorem Delete_only_removes (entity id : string) (m : Mongo) :
  only_removes m (Delete flt entity id m).2.
Proof.
  unfold Delete. destruct (negb (IsValidObjectID id)); [apply only_removes_refl|].
  destruct (decide (entity = "customers")) as [->|Hne].
  - pose proof (GetUser_reads id m) as HG.
    destruct (GetUser flt id m) as [[u err] m1]. cbn [snd] in HG.
    destruct err as [e|]; [exact (same_records_only_removes _ _ HG)|].
    pose proof (DeleteMany_only_removes "addresses"
                  (omap (λ a, ObjectIDFromHex (Address_ID a)) (Addresses u)) m1) as H1.
    destruct (DeleteMany flt "addresses" _ m1) as [e1 m2]. cbn [snd] in H1.
    pose proof (DeleteMany_only_removes "cards"
                  (omap (λ c, ObjectIDFromHex (Card_ID c)) (Cards u)) m2) as H2.
    destruct (DeleteMany flt "cards" _ m2) as [e2 m3]. cbn [snd] in H2.
    exact (only_removes_trans _ _ _ (same_records_only_removes _ _ HG)
             (only_removes_trans _ _ _ H1
                (only_removes_trans _ _ _ H2 (DeleteOne_only_removes _ _ m3)))).
  - pose proof (UpdateMany_pull_only_removes entity (fromHex_ id) m) as H1.
    destruct (UpdateMany_pull flt entity (fromHex_ id) m) as [e1 m1]. cbn [snd] in H1.
    exact (only_removes_trans _ _ _ H1 (DeleteOne_only_removes _ _ m1)).
Qed.

Lemma pull_other attr id d :
  attr ≠ "addresses" → attr ≠ "cards" → pull attr id d = d.
Proof.
  intros Ha Hc. unfold pull. rewrite decide_False by exact Ha.
  rewrite decide_False by exact Hc. reflexivity.
Qed.

(** X18: an entity name that is none of the three.  Delete does not check
    the name: with a well-formed identifier it issues the broadcast $pull and
    the DeleteOne under that name all the same, neither of which finds
    anything to change; the three collections are exactly as before,
    whatever the backend does, and no error is returned when the DeleteOne
    goes through. *)
Theorem Delete_accepts_any_entity_name (entity id : string) (oid : ObjectID) (m : Mongo) :
  entity ≠ "customers" → entity ≠ "addresses" → entity ≠ "cards" →
  ObjectIDFromHex id = Some oid →
  ∃ err m', Delete flt entity id m = (err, m') ∧
    customers m' = customers m ∧ addresses m' = addresses m ∧ cards m' = cards m ∧
    calls m' = calls m ++ [CUpdateMany "$pull" entity oid; CDeleteOne entity oid] ∧
    (flt (S (ncall m)) = None → err = None).
Proof.
  intros Hcu Ha Hc Hid.
  rewrite (Delete_attribute_unfold flt entity id oid m Hcu Hid).
  assert (Hpull : pull entity oid <$> customers m = customers m).
  { apply map_eq. intros k. rewrite lookup_fmap.
    destruct (customers m !! k) as [d|]; [|reflexivity].
    cbn. rewrite (pull_other _ _ _ Ha Hc). reflexivity. }
  unfold UpdateMany_pull, DeleteOne, call.
  destruct (flt (ncall m)) as [f0|]; cbn [snd logged with_customers ncall];
    destruct (flt (S (ncall m))) as [f1|];
    rewrite ?decide_False by assumption;
    (eexists _, _; split; [reflexivity|]);
    cbn [logged with_customers customers addresses cards calls];
    rewrite ?Hpull, <- app_assoc;
    repeat split; try reflexivity; discriminate.
Qed.

(** ** Delete, followed by a read *)

(** X19: a customer that was deleted is gone.  When the four calls of a
    Delete on an existing customer go through, it returns no error; a GetUser
    on the same identifier then fails with ErrNoDocuments, and so does a
    second Delete, which removes nothing more. *)
Theorem Delete_customers_then_not_found
    (id : string) (uid : ObjectID) (d : CustomerDoc) (m : Mongo) :
  ObjectIDFromHex id = Some uid →
  customers m !! uid = Some d →
  goes_through flt (ncall m) 5 →
  ∃ m', Delete flt "customers" id m = (None, m') ∧
    customers m' !! uid = None ∧
    (GetUser flt id m').1.2 = Some ErrNoDocuments ∧
    ∃ m'', Delete flt "customers" id m' = (Some ErrNoDocuments, m'') ∧
           same_records m' m''.
Proof.
  intros Hid Hd Hgo.
  pose proof (goes_through_at (ncall m) 5 0 ltac:(lia) Hgo) as H0.
  pose proof (goes_through_at (ncall m) 5 1 ltac:(lia) Hgo) as H1.
  pose proof (goes_through_at (ncall m) 5 2 ltac:(lia) Hgo) as H2.
  pose proof (goes_through_at (ncall m) 5 3 ltac:(lia) Hgo) as H3.
  pose proof (goes_through_at (ncall m) 5 4 ltac:(lia) Hgo) as H4.
  rewrite Nat.add_0_r in H0.
  replace (ncall m + 1) with (S (ncall m)) in H1 by lia.
  replace (ncall m + 2) with (S (S (ncall m))) in H2 by lia.
  replace (ncall m + 3) with (S (S (S (ncall m)))) in H3 by lia.
  replace (ncall m + 4) with (S (S (S (S (ncall m))))) in H4 by lia.
  rewrite (Delete_customers_found flt id uid d m Hid H0 Hd). cbv zeta.
  rewrite (DeleteMany_through flt "addresses") by exact H1. cbn [snd].
  rewrite (DeleteMany_through flt "cards") by exact H2. cbn [snd].
  rewrite DeleteOne_through by exact H3.
  eexists. split; [reflexivity|].
  match goal with |- customers ?mm !! _ = _ ∧ _ => set (m' := mm) end.
  assert (Hgone : customers m' !! uid = None) by (cbn; apply lookup_delete_eq).
  assert (Hf : flt (ncall m') = None) by exact H4.
  split; [exact Hgone|].
  pose proof (GetUser_missing flt id uid m' Hid Hf Hgone) as HG.
  split; [rewrite HG; reflexivity|].
  unfold Delete. destruct (IsValidObjectID_true _ _ Hid) as [-> _]. cbn [negb].
  rewrite decide_True by reflexivity. rewrite HG.
  eexists. split; [reflexivity|]. apply same_records_logged.
Qed.

Lemma GetUser_fetched_at id k d m :
  ObjectIDFromHex id = Some k → flt (ncall m) = None → customers m !! k = Some d →
  (GetUser flt id m).1 = (fetched k d, None).
Proof.
  intros Hid Hf Hk. rewrite (GetUser_found flt id k d m Hid Hf Hk). reflexivity.
Qed.

(** X20: an address or card that was deleted is referred to by nobody.
    When the two calls of a Delete on addresses go through, GetAddress on the
    identifier fails with ErrNoDocuments, and GetUser on any customer lists
    the placeholders of its former address references without that
    identifier, in their former order, and its card placeholders as before.
    Delete on cards behaves alike. *)
Theorem Delete_attribute_then_unreferenced
    (id : string) (oid k : ObjectID) (d : CustomerDoc) (m : Mongo) :
  ObjectIDFromHex id = Some oid →
  customers m !! k = Some d →
  goes_through flt (ncall m) 3 →
  (∃ m' u, Delete flt "addresses" id m = (None, m') ∧
     (GetAddress flt id m').1.2 = Some ErrNoDocuments ∧
     (GetUser flt (Hex k) m').1 = (u, None) ∧
     Addresses u = map (λ x, Address_withID zeroAddress (Hex x))
                       (filter (λ x, x ≠ oid) (d_addresses d)) ∧
     (∀ a, a ∈ Addresses u → Address_ID a ≠ Hex oid) ∧
     Cards u = Cards (fetched k d)) ∧
  (∃ m' u, Delete flt "cards" id m = (None, m') ∧
     (GetCard flt id m').1.2 = Some ErrNoDocuments ∧
     (GetUser flt (Hex k) m').1 = (u, None) ∧
     Cards u = map (λ x, Card_withID zeroCard (Hex x))
                   (filter (λ x, x ≠ oid) (d_cards d)) ∧
     (∀ c, c ∈ Cards u → Card_ID c ≠ Hex oid) ∧
     Addresses u = Addresses (fetched k d)).
Proof.
  intros Hid Hd Hgo.
  pose proof (goes_through_at (ncall m) 3 0 ltac:(lia) Hgo) as H0.
  pose proof (goes_through_at (ncall m) 3 1 ltac:(lia) Hgo) as H1.
  pose proof (goes_through_at (ncall m) 3 2 ltac:(lia) Hgo) as H2.
  rewrite Nat.add_0_r in H0.
  replace (ncall m + 1) with (S (ncall m)) in H1 by lia.
  replace (ncall m + 2) with (S (S (ncall m))) in H2 by lia.
  destruct (IsValidObjectID_true _ _ Hid) as [Hv Hfrom].
  split.
  - rewrite (Delete_attribute_unfold flt "addresses" id oid m) by (discriminate || exact Hid).
    rewrite (UpdateMany_pull_through flt _ _ _ H0). cbn [snd].
    rewrite DeleteOne_through by exact H1.
    eexists _, (fetched k (pull "addresses" oid d)). split; [reflexivity|].
    match goal with |- (GetAddress flt id ?mm).1.2 = _ ∧ _ => set (m' := mm) end.
    assert (Hf : flt (ncall m') = None) by exact H2.
    assert (Hk : customers m' !! k = Some (pull "addresses" oid d)).
    { change (customers m') with (pull "addresses" oid <$> customers m).
      rewrite lookup_fmap, Hd. reflexivity. }
    split.
    { unfold GetAddress. rewrite Hv, Hfrom. cbn [negb].
      rewrite FindOne_through by exact Hf.
      replace (addresses m' !! oid) with (@None Address)
        by (symmetry; unfold m'; cbn; apply lookup_delete_eq).
      reflexivity. }
    split; [apply GetUser_fetched; assumption|].
    destruct (fetched_fields k (pull "addresses" oid d)) as (_ & _ & _ & _ & _ & _ & FA & FC).
    destruct (fetched_fields k d) as (_ & _ & _ & _ & _ & _ & _ & FC0).
    destruct (pull_addresses oid d) as (P1 & P2 & _).
    rewrite FA, FC, FC0, P1, P2. split; [reflexivity|]. split; [|reflexivity].
    intros a Ha. apply list_elem_of_In, in_map_iff in Ha as (x & <- & Hx).
    apply list_elem_of_In, list_elem_of_filter in Hx as [Hne _].
    cbn. intros Heq. apply Hne, Hex_inj, Heq.
  - rewrite (Delete_attribute_unfold flt "cards" id oid m) by (discriminate || exact Hid).
    rewrite (UpdateMany_pull_through flt _ _ _ H0). cbn [snd].
    rewrite DeleteOne_through by exact H1.
    eexists _, (fetched k (pull "cards" oid d)). split; [reflexivity|].
    match goal with |- (GetCard flt id ?mm).1.2 = _ ∧ _ => set (m' := mm) end.
    assert (Hf : flt (ncall m') = None) by exact H2.
    assert (Hk : customers m' !! k = Some (pull "cards" oid d)).
    { change (customers m') with (pull "cards" oid <$> customers m).
      rewrite lookup_fmap, Hd. reflexivity. }
    split.
    { unfold GetCard. rewrite Hv, Hfrom. cbn [negb].
      rewrite FindOne_through by exact Hf.
      replace (cards m' !! oid) with (@None Card)
        by (symmetry; unfold m'; cbn; apply lookup_delete_eq).
      reflexivity. }
    split; [apply GetUser_fetched; assumption|].
    destruct (fetched_fields k (pull "cards" oid d)) as (_ & _ & _ & _ & _ & _ & FA & FC).
    destruct (fetched_fields k d) as (_ & _ & _ & _ & _ & _ & FA0 & _).
    destruct (pull_cards oid d) as (P1 & P2 & _).
    rewrite FA, FC, FA0, P1, P2. split; [reflexivity|]. split; [|reflexivity].
    intros c Hc. apply list_elem_of_In, in_map_iff in Hc as (x & <- & Hx).
    apply list_elem_of_In, list_elem_of_filter in Hx as [Hne _].
    cbn. intros Heq. apply Hne, Hex_inj, Heq.
Qed.

(** ** GetUserAttributes: nothing to resolve, and resolving again *)

Lemma selectIn_nil {D} (coll : gmap ObjectID D) : map_to_list (selectIn [] coll) = [].
Proof.
  apply map_to_list_empty_iff. apply map_eq. intros k. rewrite lookup_empty.
  unfold selectIn. apply map_lookup_filter_None. right. intros d _ Hin.
  cbn in Hin. apply elem_of_nil in Hin. exact Hin.
Qed.

(** X21: a user with no addresses and no cards.  Whatever the backend
    does, GetUserAttributes returns no error and hands the user back
    unchanged. *)
Theorem GetUserAttributes_nothing_to_resolve (u : User) (m : Mongo) :
  Addresses u = [] → Cards u = [] →
  (GetUserAttributes flt u m).1 = (u, None).
Proof.
  intros Ha Hc. destruct u as [fn ln un pw adrs cs uid lk]. cbn in Ha, Hc. subst adrs cs.
  unfold GetUserAttributes. cbn [Addresses addrIds]. rewrite Find_eq.
  destruct (flt (ncall m)) as [f0|].
  - cbn [Cards cardIds]. rewrite Find_eq. cbn [logged ncall].
    destruct (flt (S (ncall m))) as [f1|]; [reflexivity|].
    rewrite All_eq, selectIn_nil. cbn [logged ncall].
    destruct (flt (S (S (ncall m)))); rewrite ?take_nil; reflexivity.
  - rewrite All_eq, selectIn_nil. cbn [logged ncall].
    assert (Hu : User_withAddresses (mkUser fn ln un pw [] [] uid lk)
                   (map decodeAddress
                      match flt (S (ncall m)) with
                      | Some ft => take (f_done ft) []
                      | None => []
                      end) = mkUser fn ln un pw [] [] uid lk)
      by (destruct (flt (S (ncall m))); rewrite ?take_nil; reflexivity).
    rewrite Hu. cbn [Cards cardIds]. rewrite Find_eq. cbn [logged ncall].
    destruct (flt (S (S (ncall m)))) as [f2|]; [reflexivity|].
    rewrite All_eq, selectIn_nil. cbn [logged ncall].
    destruct (flt (S (S (S (ncall m))))); rewrite ?take_nil; reflexivity.
Qed.

Lemma resolved_addresses_ids ids (coll : gmap ObjectID Address) :
  Forall (λ a, IsValidObjectID (Address_ID a) = true)
         (map decodeAddress (map_to_list (selectIn ids coll))) ∧
  selectIn (map (λ a, fromHex_ (Address_ID a))
                (map decodeAddress (map_to_list (selectIn ids coll)))) coll
    = selectIn ids coll.
Proof.
  split.
  - apply Forall_forall. intros a Ha.
    apply elem_of_resolved_addresses in Ha as (k & d & _ & _ & ->).
    cbn. apply IsValidObjectID_Hex.
  - apply map_eq. intros k. apply option_eq. intros v. unfold selectIn.
    rewrite !map_lookup_filter_Some. cbn [fst]. split.
    + intros [Hk Hin]. split; [exact Hk|].
      apply list_elem_of_In, in_map_iff in Hin as (a & <- & Ha).
      apply list_elem_of_In, elem_of_resolved_addresses in Ha as (k' & d & Hin & _ & ->).
      cbn. rewrite fromHex_Hex. exact Hin.
    + intros [Hk Hin]. split; [exact Hk|].
      apply list_elem_of_In, in_map_iff. exists (Address_withID v (Hex k)). split.
      * cbn. apply fromHex_Hex.
      * apply list_elem_of_In, elem_of_resolved_addresses. exists k, v.
        repeat split; assumption.
Qed.

Lemma resolved_cards_ids ids (coll : gmap ObjectID Card) :
  Forall (λ c, IsValidObjectID (Card_ID c) = true)
         (map decodeCard (map_to_list (selectIn ids coll))) ∧
  selectIn (map (λ c, fromHex_ (Card_ID c))
                (map decodeCard (map_to_list (selectIn ids coll)))) coll
    = selectIn ids coll.
Proof.
  split.
  - apply Forall_forall. intros c Hc.
    apply elem_of_resolved_cards in Hc as (k & d & _ & _ & ->).
    cbn. apply IsValidObjectID_Hex.
  - apply map_eq. intros k. apply option_eq. intros v. unfold selectIn.
    rewrite !map_lookup_filter_Some. cbn [fst]. split.
    + intros [Hk Hin]. split; [exact Hk|].
      apply list_elem_of_In, in_map_iff in Hin as (c & <- & Hc).
      apply list_elem_of_In, elem_of_resolved_cards in Hc as (k' & d & Hin & _ & ->).
      cbn. rewrite fromHex_Hex. exact Hin.
    + intros [Hk Hin]. split; [exact Hk|].
      apply list_elem_of_In, in_map_iff. exists (Card_withID v (Hex k)). split.
      * cbn. apply fromHex_Hex.
      * apply list_elem_of_In, elem_of_resolved_cards. exists k, v.
        repeat split; assumption.
Qed.

(** X22: resolving twice.  For a user whose entries all carry well-formed
    identifiers, when the eight calls go through, a second
    GetUserAttributes on the user the first one returned gives back exactly
    that user: a resolved user is a fixed point. *)
Theorem GetUserAttributes_twice (u : User) (m : Mongo) :
  Forall (λ a, IsValidObjectID (Address_ID a) = true) (Addresses u) →
  Forall (λ c, IsValidObjectID (Card_ID c) = true) (Cards u) →
  goes_through flt (ncall m) 8 →
  ∃ u1 m1 m2,
    GetUserAttributes flt u m = (u1, None, m1) ∧
    GetUserAttributes flt u1 m1 = (u1, None, m2).
Proof.
  intros Ha Hc Hgo.
  destruct (GetUserAttributes_through u m Ha Hc) as (m1 & H1 & Hs1 & Hn).
  { eapply goes_through_le; [|exact Hgo]. lia. }
  set (u1 := User_withCards _ _) in H1.
  destruct (resolved_addresses_ids (map (λ a, fromHex_ (Address_ID a)) (Addresses u))
              (addresses m)) as [Hv1 Hsel1].
  destruct (resolved_cards_ids (map (λ c, fromHex_ (Card_ID c)) (Cards u))
              (cards m)) as [Hv2 Hsel2].
  destruct Hs1 as (_ & Hadr & Hcd & _ & _).
  destruct (GetUserAttributes_through u1 m1) as (m2 & H2 & _).
  - exact Hv1.
  - exact Hv2.
  - rewrite Hn. apply goes_through_shift. exact Hgo.
  - exists u1, m1, m2. split; [exact H1|]. rewrite H2. f_equal. f_equal.
    rewrite Hadr, Hcd.
    cbn [u1 User_withCards User_withAddresses Addresses Cards].
    rewrite Hsel1, Hsel2. reflexivity.
Qed.

(** ** CreateCard and CreateAddress when a call fails *)

(** X23: the two ways CreateCard can fail at the backend, for a userid
    that is empty or well-formed.  When the write of the record fails,
    the error is returned, nothing is stored and the caller's card is as it
    was.  When the write goes through and the update that links the card to
    the customer fails, the error is returned and the caller's card is as it
    was, without the identifier, although the record has been stored under
    it and stays there; no customer is changed.  CreateAddress behaves
    alike. *)
Theorem Create_attribute_failure_modes
    (ca : Card) (a : Address) (userid : string) (m : Mongo) (ft : Fault) :
  userid = "" ∨ IsValidObjectID userid = true →
  (flt (ncall m) = Some ft →
   (∃ m', CreateCard gen flt ca userid m = (ca, Some (backend ft), m') ∧
          cards m' = cards m ∧ customers m' = customers m ∧
          addresses m' = addresses m) ∧
   (∃ m', CreateAddress gen flt a userid m = (a, Some (backend ft), m') ∧
          cards m' = cards m ∧ customers m' = customers m ∧
          addresses m' = addresses m)) ∧
  (userid ≠ "" → flt (ncall m) = None → flt (S (ncall m)) = Some ft →
   (∃ m', CreateCard gen flt ca userid m = (ca, Some (backend ft), m') ∧
          cards m' = <[gen (noid m) := ca]> (cards m) ∧
          customers m' = customers m ∧ addresses m' = addresses m) ∧
   (∃ m', CreateAddress gen flt a userid m = (a, Some (backend ft), m') ∧
          addresses m' = <[gen (noid m) := a]> (addresses m) ∧
          customers m' = customers m ∧ cards m' = cards m)).
Proof.
  intros Hu.
  assert (Hguard : bool_decide (userid ≠ "") && negb (IsValidObjectID userid) = false).
  { destruct Hu as [->|Hv]; [reflexivity|]. rewrite Hv. apply andb_false_r. }
  split.
  - intros H0. split.
    + unfold CreateCard. rewrite Hguard. cbn [NewObjectID].
      unfold ReplaceOne_cards, call. cbn [ncall]. rewrite H0.
      eexists. split; [reflexivity|]. repeat split; reflexivity.
    + unfold CreateAddress. rewrite Hguard. cbn [NewObjectID].
      unfold ReplaceOne_addresses, call. cbn [ncall]. rewrite H0.
      eexists. split; [reflexivity|]. repeat split; reflexivity.
  - intros Hne H0 H1.
    destruct Hu as [->|Hv]; [destruct Hne; reflexivity|].
    unfold IsValidObjectID in Hv.
    destruct (ObjectIDFromHex userid) as [uid|] eqn:Hid; [|discriminate].
    split.
    + unfold CreateCard. rewrite Hguard. cbn [NewObjectID].
      rewrite ReplaceOne_cards_through by exact H0. cbv zeta.
      rewrite bool_decide_eq_true_2 by exact Hne.
      unfold appendAttributeId. rewrite Hid. unfold UpdateOne_addToSet, call.
      cbn [with_cards logged ncall]. rewrite H1.
      eexists. split; [reflexivity|]. repeat split; reflexivity.
    + unfold CreateAddress. rewrite Hguard. cbn [NewObjectID].
      rewrite ReplaceOne_addresses_through by exact H0. cbv zeta.
      rewrite bool_decide_eq_true_2 by exact Hne.
      unfold appendAttributeId. rewrite Hid. unfold UpdateOne_addToSet, call.
      cbn [with_addresses logged ncall]. rewrite H1.
      eexists. split; [reflexivity|]. repeat split; reflexivity.
Qed.

(** ** GetUser, GetCard and GetAddress on a well-formed identifier *)

(** X24: what a lookup by identifier returns.  For a well-formed
    identifier, GetUser, GetCard and GetAddress each make one driver call.
    When it fails they return that error with an empty value; when it goes
    through and no record has the identifier they return ErrNoDocuments with
    an empty value; otherwise they return the record found with no error,
    its identifier field set to the lower-case hexadecimal form of the
    ObjectID, whatever the case of the letters in the string passed. *)
Theorem Get_by_identifier_outcomes (id : string) (k : ObjectID) (m : Mongo) :
  ObjectIDFromHex id = Some k →
  (∀ ft, flt (ncall m) = Some ft →
     (GetUser flt id m).1 = (users.New, Some (backend ft)) ∧
     (GetCard flt id m).1 = (zeroCard, Some (backend ft)) ∧
     (GetAddress flt id m).1 = (zeroAddress, Some (backend ft))) ∧
  (flt (ncall m) = None →
     (GetUser flt id m).1
       = match customers m !! k with
         | Some d => (fetched k d, None)
         | None => (users.New, Some ErrNoDocuments)
         end ∧
     (GetCard flt id m).1
       = match cards m !! k with
         | Some c => (Card_withID c (Hex k), None)
         | None => (zeroCard, Some ErrNoDocuments)
         end ∧
     (GetAddress flt id m).1
       = match addresses m !! k with
         | Some a => (Address_withID a (Hex k), None)
         | None => (zeroAddress, Some ErrNoDocuments)
         end) ∧
  calls (GetUser flt id m).2 = calls m ++ [CFindOne "customers" k] ∧
  calls (GetCard flt id m).2 = calls m ++ [CFindOne "cards" k] ∧
  calls (GetAddress flt id m).2 = calls m ++ [CFindOne "addresses" k].
Proof.
  intros Hid. destruct (IsValidObjectID_true _ _ Hid) as [Hv Hfrom].
  unfold GetUser, GetCard, GetAddress, FindOne, call.
  rewrite Hid, Hv, Hfrom. cbn [negb]. split; [|split].
  - intros ft Hf. rewrite Hf. repeat split; reflexivity.
  - intros Hf. rewrite Hf.
    destruct (customers m !! k), (cards m !! k), (addresses m !! k);
      repeat split; reflexivity.
  - destruct (flt (ncall m));
      [|destruct (customers m !! k), (cards m !! k), (addresses m !! k)];
      repeat split; reflexivity.
Qed.

End MoreProperties.

(** * The further properties at concrete inputs *)

Lemma alice_username_free :
  usernameIndex emptyMongo
  && usernameTaken (Username alice) (counting (noid emptyMongo)) (customers emptyMongo)
  = false.
Proof. reflexivity. Defined.

(** Creating alice on an empty database and a healthy backend. *)
Lemma CreateUser_assigns_identifiers_witness :
  goes_through healthy (ncall emptyMongo)
    (length (Cards alice) + length (Addresses alice) + 1) ∧
  ∃ u' m', CreateUser counting healthy alice emptyMongo = (u', None, m') ∧
    UserID u' = Hex (counting 0) ∧
    map Card_ID (Cards u') = [Hex (counting 1)] ∧
    map Address_ID (Addresses u') = [Hex (counting 2)] ∧
    customers m' !! counting 0 = Some aliceDoc ∧
    ncall m' = 3.
Proof.
  split; [apply healthy_goes_through|].
  destruct (CreateUser_assigns_identifiers counting healthy alice emptyMongo
              (healthy_goes_through _ _) alice_username_free)
    as (u' & m' & HC & HU & Hc & Ha & _ & _ & _ & _ & _ & _ & _ & Hd & _ & Hn).
  exists u', m'. repeat split; assumption.
Defined.

Lemma GetUser_after_CreateUser_witness :
  goes_through healthy (ncall emptyMongo)
    (length (Cards alice) + length (Addresses alice) + 2) ∧
  ∃ u1 m1 u2 m2,
    CreateUser counting healthy alice emptyMongo = (u1, None, m1) ∧
    GetUser healthy (UserID u1) m1 = (u2, None, m2) ∧
    Username u2 = "alice" ∧
    Addresses u2 = map (λ a, Address_withID zeroAddress (Address_ID a)) (Addresses u1).
Proof.
  split; [apply healthy_goes_through|].
  destruct (GetUser_after_CreateUser counting healthy alice emptyMongo
              (healthy_goes_through _ _) alice_username_free)
    as (u1 & m1 & u2 & m2 & HC & HG & _ & _ & _ & HU & _ & _ & _ & HA).
  exists u1, m1, u2, m2. repeat split; assumption.
Defined.

Lemma CreateUser_GetUser_GetUserAttributes_roundtrip_witness :
  NoDup (map counting (seq (S (noid emptyMongo)) (length (Cards alice)))) ∧
  NoDup (map counting (seq (S (noid emptyMongo) + length (Cards alice))
                           (length (Addresses alice)))) ∧
  ∃ u1 m1 u2 m2 u3 m3,
    CreateUser counting healthy alice emptyMongo = (u1, None, m1) ∧
    GetUser healthy (UserID u1) m1 = (u2, None, m2) ∧
    GetUserAttributes healthy u2 m2 = (u3, None, m3) ∧
    Cards u3 ≡ₚ Cards u1 ∧ Addresses u3 ≡ₚ Addresses u1 ∧ UserID u3 = UserID u1.
Proof.
  assert (H1 : NoDup (map counting (seq (S (noid emptyMongo)) (length (Cards alice)))))
    by apply NoDup_singleton.
  assert (H2 : NoDup (map counting (seq (S (noid emptyMongo) + length (Cards alice))
                                        (length (Addresses alice)))))
    by apply NoDup_singleton.
  split; [exact H1|]. split; [exact H2|].
  destruct (CreateUser_GetUser_GetUserAttributes_roundtrip counting healthy alice
              emptyMongo (healthy_goes_through _ _) alice_username_free H1 H2)
    as (u1 & m1 & u2 & m2 & u3 & m3 & HC & HG & HR & Hc & Ha & HU & _).
  exists u1, m1, u2, m2, u3, m3. repeat split; assumption.
Defined.

(** Creating a second alice in the store that holds the first. *)
Lemma CreateUser_rejects_taken_username_witness :
  usernameIndex aliceStore = true ∧
  customers aliceStore !! counting 0 = Some aliceDoc ∧
  d_username aliceDoc = Username alice ∧
  counting 0 ≠ counting (noid aliceStore) ∧
  ∃ u' m', CreateUser counting healthy alice aliceStore = (u', Some ErrDuplicateKey, m') ∧
    customers m' = customers aliceStore.
Proof.
  assert (Hne : counting 0 ≠ counting (noid aliceStore)) by (vm_compute; discriminate).
  split; [reflexivity|]. split; [reflexivity|]. split; [reflexivity|]. split; [exact Hne|].
  destruct (CreateUser_rejects_taken_username counting healthy alice aliceStore
              (counting 0) aliceDoc eq_refl eq_refl eq_refl Hne (healthy_goes_through _ _))
    as (u' & m' & HC & Hcu & _).
  exists u', m'. split; assumption.
Defined.

Lemma EnsureIndexes_is_idempotent_witness :
  EnsureIndexes healthy aliceStoreNoIndex = (None, (EnsureIndexes healthy aliceStoreNoIndex).2) ∧
  usernameIndex aliceStoreNoIndex = false ∧
  usernameIndex (EnsureIndexes healthy aliceStoreNoIndex).2 = true ∧
  ∃ m', EnsureIndexes healthy (EnsureIndexes healthy aliceStoreNoIndex).2 = (None, m').
Proof.
  assert (H : EnsureIndexes healthy aliceStoreNoIndex
              = (None, (EnsureIndexes healthy aliceStoreNoIndex).2))
    by (vm_compute; reflexivity).
  split; [exact H|]. split; [reflexivity|].
  destruct (EnsureIndexes_is_idempotent healthy _ _ H) as (Hi & _ & _ & _ & Hagain & _).
  split; [exact Hi|]. destruct (Hagain eq_refl) as (m' & Hm' & _).
  exists m'. exact Hm'.
Defined.

Lemma CreateUser_twice_fails_the_second_time_witness :
  EnsureIndexes healthy emptyNoIndex = (None, (EnsureIndexes healthy emptyNoIndex).2) ∧
  ∃ u1 m1 u2 m2,
    CreateUser counting healthy alice (EnsureIndexes healthy emptyNoIndex).2 = (u1, None, m1) ∧
    CreateUser counting healthy u1 m1 = (u2, Some ErrDuplicateKey, m2) ∧
    customers m2 = customers m1.
Proof.
  assert (H : EnsureIndexes healthy emptyNoIndex
              = (None, (EnsureIndexes healthy emptyNoIndex).2))
    by (vm_compute; reflexivity).
  split; [exact H|].
  destruct (CreateUser_twice_fails_the_second_time counting healthy alice _ _ H)
    as (u1 & m1 & u2 & m2 & H1 & H2 & Hc & _).
  - reflexivity.
  - apply healthy_goes_through.
  - vm_compute. discriminate.
  - exists u1, m1, u2, m2. repeat split; assumption.
Defined.

Lemma GetUserByName_finds_the_username_witness :
  healthy (ncall aliceStore) = None ∧
  GetUserByName healthy "bob" aliceStore = (users.New, Some ErrNoDocuments, counted aliceStore) ∧
  ∃ k' d', GetUserByName healthy "alice" aliceStore = (fetched k' d', None, counted aliceStore) ∧
    Username (fetched k' d') = "alice" ∧ k' = counting 0.
Proof.
  split; [reflexivity|]. split.
  - apply (GetUserByName_finds_the_username healthy "bob" aliceStore eq_refl).
    intros k d Hk Hn.
    apply elem_of_map_to_list in Hk. vm_compute in Hk.
    apply list_elem_of_singleton in Hk. injection Hk as _ ->. discriminate Hn.
  - destruct (GetUserByName_finds_the_username healthy "alice" aliceStore eq_refl)
      as [_ H].
    destruct (H (counting 0) aliceDoc eq_refl eq_refl)
      as (k' & d' & HG & _ & HU & _ & _ & Huniq).
    exists k', d'. split; [exact HG|]. split; [exact HU|].
    apply Huniq. intros k2 d2 Hk2 _.
    apply elem_of_map_to_list in Hk2. vm_compute in Hk2.
    apply list_elem_of_singleton in Hk2. injection Hk2 as -> _. reflexivity.
Defined.

Lemma GetUsers_lists_every_customer_witness :
  healthy (ncall aliceStore) = None ∧ healthy (S (ncall aliceStore)) = None ∧
  (∃ us m', GetUsers healthy aliceStore = (us, None, m') ∧
     length us = size (customers aliceStore) ∧ fetched (counting 0) aliceDoc ∈ us) ∧
  (GetUsers (failing_at (ncall aliceStore) outage) aliceStore).1 = ([], Some (ErrBackend 7)).
Proof.
  split; [reflexivity|]. split; [reflexivity|]. split.
  - destruct (GetUsers_lists_every_customer healthy aliceStore) as [H _].
    destruct (H eq_refl eq_refl) as (us & m' & HG & Hl & _ & Hin & _).
    exists us, m'. split; [exact HG|]. split; [exact Hl|].
    apply Hin. exists (counting 0), aliceDoc. split; reflexivity.
  - destruct (GetUsers_lists_every_customer (failing_at (ncall aliceStore) outage)
                aliceStore) as [_ H].
    apply (H outage). left. reflexivity.
Defined.

Lemma GetCards_GetAddresses_list_every_record_witness :
  healthy (ncall aliceStore) = None ∧ healthy (S (ncall aliceStore)) = None ∧
  (∃ cs m', GetCards healthy aliceStore = (cs, None, m') ∧
     Card_withID visa (Hex (counting 1)) ∈ cs) ∧
  (∃ adrs m', GetAddresses healthy aliceStore = (adrs, None, m') ∧
     Address_withID mainSt (Hex (counting 2)) ∈ adrs).
Proof.
  split; [reflexivity|]. split; [reflexivity|].
  destruct (GetCards_GetAddresses_list_every_record healthy aliceStore) as [H _].
  destruct (H eq_refl eq_refl)
    as [(cs & m1 & HC & _ & _ & HinC & _) (adrs & m2 & HA & _ & _ & HinA & _)].
  split.
  - exists cs, m1. split; [exact HC|]. apply HinC.
    exists (counting 1), visa. split; reflexivity.
  - exists adrs, m2. split; [exact HA|]. apply HinA.
    exists (counting 2), mainSt. split; reflexivity.
Defined.

Lemma Create_then_Get_returns_the_entity_witness :
  ("" = "" ∨ IsValidObjectID "" = true) ∧
  (∃ ca' m', CreateCard counting healthy visa "" emptyMongo = (ca', None, m') ∧
     (GetCard healthy (Card_ID ca') m').1 = (ca', None)) ∧
  (∃ a' m', CreateAddress counting healthy mainSt "" emptyMongo = (a', None, m') ∧
     (GetAddress healthy (Address_ID a') m').1 = (a', None)).
Proof.
  split; [left; reflexivity|].
  destruct (Create_then_Get_returns_the_entity counting healthy visa mainSt ""
              emptyMongo (or_introl eq_refl) (healthy_goes_through _ _))
    as [(ca' & m1 & HC & _ & HG & _) (a' & m2 & HA & _ & HG' & _)].
  split; [exists ca', m1|exists a', m2]; split; assumption.
Defined.

(** A second card and a second address for alice. *)
Lemma Create_attribute_links_to_the_customer_witness :
  ObjectIDFromHex (Hex (counting 0)) = Some (counting 0) ∧
  customers aliceStore !! counting 0 = Some aliceDoc ∧
  (∃ ca' m' d', CreateCard counting healthy visa (Hex (counting 0)) aliceStore
                  = (ca', None, m') ∧
     customers m' !! counting 0 = Some d' ∧
     d_cards d' = [counting 1; counting 3]) ∧
  (∃ a' m' d', CreateAddress counting healthy elmSt (Hex (counting 0)) aliceStore
                 = (a', None, m') ∧
     customers m' !! counting 0 = Some d' ∧
     d_addresses d' = [counting 2; counting 3]).
Proof.
  split; [reflexivity|]. split; [reflexivity|].
  destruct (Create_attribute_links_to_the_customer counting healthy visa elmSt
              (Hex (counting 0)) (counting 0) aliceDoc aliceStore eq_refl eq_refl
              (healthy_goes_through _ _))
    as [(ca' & m1 & HC & _ & (d1 & Hd1 & Hc1 & _) & _)
        (a' & m2 & HA & _ & (d2 & Hd2 & Ha2 & _) & _)].
  split.
  - exists ca', m1, d1. split; [exact HC|]. split; [exact Hd1|]. rewrite Hc1. reflexivity.
  - exists a', m2, d2. split; [exact HA|]. split; [exact Hd2|]. rewrite Ha2. reflexivity.
Defined.

Lemma appendAttributeId_adds_to_a_set_witness :
  appendAttributeId healthy "cards" (oid x09) "not-an-id" aliceStore
    = (Some ErrInvalidHex, aliceStore) ∧
  ObjectIDFromHex (Hex (counting 0)) = Some (counting 0) ∧
  ∃ m1 m2,
    appendAttributeId healthy "cards" (oid x09) (Hex (counting 0)) aliceStore = (None, m1) ∧
    appendAttributeId healthy "cards" (oid x09) (Hex (counting 0)) m1 = (None, m2) ∧
    customers m2 = customers m1 ∧
    ∃ d1, customers m1 !! counting 0 = Some d1 ∧ oid x09 ∈ d_cards d1.
Proof.
  destruct (appendAttributeId_adds_to_a_set healthy "cards" (oid x09) "not-an-id"
              aliceStore) as [Hbad _].
  split; [exact (Hbad eq_refl)|]. split; [reflexivity|].
  destruct (appendAttributeId_adds_to_a_set healthy "cards" (oid x09)
              (Hex (counting 0)) aliceStore) as [_ H].
  destruct (H (counting 0) eq_refl eq_refl eq_refl)
    as (m1 & m2 & H1 & H2 & Hc & _ & _ & _ & _ & Hd).
  destruct (Hd aliceDoc eq_refl) as (d1 & Hd1 & Hcards & _).
  exists m1, m2. split; [exact H1|]. split; [exact H2|]. split; [exact Hc|].
  exists d1. split; [exact Hd1|]. apply (Hcards eq_refl). left. reflexivity.
Defined.

Lemma removeAttributeId_undoes_appendAttributeId_witness :
  removeAttributeId healthy "cards" (oid x09) "not-an-id" aliceStore
    = (Some ErrInvalidHex, aliceStore) ∧
  ObjectIDFromHex (Hex (counting 0)) = Some (counting 0) ∧
  customers aliceStore !! counting 0 = Some aliceDoc ∧
  (oid x09 ∉ d_cards aliceDoc) ∧
  (∃ m1 d1, removeAttributeId healthy "cards" (counting 1) (Hex (counting 0)) aliceStore
              = (None, m1) ∧
            customers m1 !! counting 0 = Some d1 ∧ d_cards d1 = []) ∧
  ∃ m1 m2,
    appendAttributeId healthy "cards" (oid x09) (Hex (counting 0)) aliceStore = (None, m1) ∧
    removeAttributeId healthy "cards" (oid x09) (Hex (counting 0)) m1 = (None, m2) ∧
    customers m2 = customers aliceStore.
Proof.
  assert (Hn : oid x09 ∉ d_cards aliceDoc).
  { intros Hin. apply list_elem_of_singleton in Hin. discriminate Hin. }
  destruct (removeAttributeId_undoes_appendAttributeId healthy (oid x09) "not-an-id"
              aliceStore) as [Hbad _].
  split; [exact (Hbad eq_refl "cards")|]. split; [reflexivity|].
  split; [reflexivity|]. split; [exact Hn|]. split.
  - destruct (removeAttributeId_undoes_appendAttributeId healthy (counting 1)
                (Hex (counting 0)) aliceStore) as [_ H].
    destruct (H (counting 0) aliceDoc eq_refl eq_refl eq_refl eq_refl)
      as ((m1 & d1 & HR & Hd1 & Hc1 & _) & _).
    exists m1, d1. split; [exact HR|]. split; [exact Hd1|]. rewrite Hc1. reflexivity.
  - destruct (removeAttributeId_undoes_appendAttributeId healthy (oid x09)
                (Hex (counting 0)) aliceStore) as [_ H].
    destruct (H (counting 0) aliceDoc eq_refl eq_refl eq_refl eq_refl)
      as (_ & _ & Hround & _).
    exact (Hround Hn).
Defined.

Lemma Delete_accepts_any_entity_name_witness :
  "orders" ≠ "customers" ∧ "orders" ≠ "addresses" ∧ "orders" ≠ "cards" ∧
  ObjectIDFromHex (Hex (counting 0)) = Some (counting 0) ∧
  ∃ m', Delete healthy "orders" (Hex (counting 0)) aliceStore = (None, m') ∧
    customers m' = customers aliceStore ∧ addresses m' = addresses aliceStore ∧
    cards m' = cards aliceStore.
Proof.
  assert (H1 : "orders" ≠ "customers") by discriminate.
  assert (H2 : "orders" ≠ "addresses") by discriminate.
  assert (H3 : "orders" ≠ "cards") by discriminate.
  split; [exact H1|]. split; [exact H2|]. split; [exact H3|]. split; [reflexivity|].
  destruct (Delete_accepts_any_entity_name healthy "orders" (Hex (counting 0))
              (counting 0) aliceStore H1 H2 H3 eq_refl)
    as (err & m' & HD & Hc & Ha & Hcd & _ & He).
  rewrite (He eq_refl) in HD. exists m'. repeat split; assumption.
Defined.

Lemma Delete_customers_then_not_found_witness :
  ObjectIDFromHex (Hex (counting 0)) = Some (counting 0) ∧
  customers aliceStore !! counting 0 = Some aliceDoc ∧
  ∃ m', Delete healthy "customers" (Hex (counting 0)) aliceStore = (None, m') ∧
    (GetUser healthy (Hex (counting 0)) m').1.2 = Some ErrNoDocuments ∧
    (Delete healthy "customers" (Hex (counting 0)) m').1 = Some ErrNoDocuments.
Proof.
  split; [reflexivity|]. split; [reflexivity|].
  destruct (Delete_customers_then_not_found healthy (Hex (counting 0)) (counting 0)
              aliceDoc aliceStore eq_refl eq_refl (healthy_goes_through _ _))
    as (m' & HD & _ & HG & m'' & HD2 & _).
  exists m'. split; [exact HD|]. split; [exact HG|]. rewrite HD2. reflexivity.
Defined.

Lemma Delete_attribute_then_unreferenced_witness :
  ObjectIDFromHex (Hex (counting 2)) = Some (counting 2) ∧
  customers aliceStore !! counting 0 = Some aliceDoc ∧
  ∃ m' u, Delete healthy "addresses" (Hex (counting 2)) aliceStore = (None, m') ∧
    (GetAddress healthy (Hex (counting 2)) m').1.2 = Some ErrNoDocuments ∧
    (GetUser healthy (Hex (counting 0)) m').1 = (u, None) ∧
    Addresses u = [] ∧
    Cards u = [Card_withID zeroCard (Hex (counting 1))].
Proof.
  split; [reflexivity|]. split; [reflexivity|].
  destruct (Delete_attribute_then_unreferenced healthy (Hex (counting 2)) (counting 2)
              (counting 0) aliceDoc aliceStore eq_refl eq_refl (healthy_goes_through _ _))
    as [(m' & u & HD & HGA & HGU & HA & _ & HC) _].
  exists m', u. split; [exact HD|]. split; [exact HGA|]. split; [exact HGU|].
  split; [rewrite HA; reflexivity|rewrite HC; reflexivity].
Defined.

Lemma GetUserAttributes_nothing_to_resolve_witness :
  Addresses users.New = [] ∧ Cards users.New = [] ∧
  (GetUserAttributes (failing_at 4 outage) users.New aliceStore).1 = (users.New, None).
Proof.
  split; [reflexivity|]. split; [reflexivity|].
  apply GetUserAttributes_nothing_to_resolve; reflexivity.
Defined.

Lemma GetUserAttributes_twice_witness :
  Forall (λ a, IsValidObjectID (Address_ID a) = true) (Addresses aliceFetched) ∧
  Forall (λ c, IsValidObjectID (Card_ID c) = true) (Cards aliceFetched) ∧
  ∃ u1 m1 m2,
    GetUserAttributes healthy aliceFetched aliceStore = (u1, None, m1) ∧
    GetUserAttributes healthy u1 m1 = (u1, None, m2).
Proof.
  destruct aliceFetched_valid as [Ha Hc]. split; [exact Ha|]. split; [exact Hc|].
  exact (GetUserAttributes_twice healthy aliceFetched aliceStore Ha Hc
           (healthy_goes_through _ _)).
Defined.

Lemma Create_attribute_failure_modes_witness :
  ("" = "" ∨ IsValidObjectID "" = true) ∧
  (∃ m', CreateCard counting (failing_at 0 outage) visa "" emptyMongo
           = (visa, Some (ErrBackend 7), m') ∧ cards m' = cards emptyMongo) ∧
  (Hex (counting 0) = "" ∨ IsValidObjectID (Hex (counting 0)) = true) ∧
  (∃ m', CreateCard counting (failing_at (S (ncall aliceStore)) outage) visa
           (Hex (counting 0)) aliceStore
           = (visa, Some (ErrBackend 7), m') ∧
         cards m' !! counting 3 = Some visa ∧
         customers m' = customers aliceStore).
Proof.
  split; [left; reflexivity|]. split.
  - destruct (Create_attribute_failure_modes counting (failing_at 0 outage) visa mainSt
                "" emptyMongo outage (or_introl eq_refl)) as [H _].
    destruct (H eq_refl) as [(m' & HC & Hcd & _) _]. exists m'. split; assumption.
  - split; [right; reflexivity|].
    destruct (Create_attribute_failure_modes counting
                (failing_at (S (ncall aliceStore)) outage) visa mainSt
                (Hex (counting 0)) aliceStore outage (or_intror eq_refl)) as [_ H].
    destruct H as [(m' & HC & Hcd & Hcu & _) _];
      [vm_compute; discriminate|reflexivity|reflexivity|].
    exists m'. split; [exact HC|]. split; [|exact Hcu].
    rewrite Hcd. apply lookup_insert_eq.
Defined.

Lemma Get_by_identifier_outcomes_witness :
  ObjectIDFromHex (Hex (counting 1)) = Some (counting 1) ∧
  healthy (ncall aliceStore) = None ∧
  (GetUser healthy (Hex (counting 1)) aliceStore).1 = (users.New, Some ErrNoDocuments) ∧
  (GetCard healthy (Hex (counting 1)) aliceStore).1
    = (Card_withID visa (Hex (counting 1)), None) ∧
  (GetAddress healthy (Hex (counting 1)) aliceStore).1
    = (zeroAddress, Some ErrNoDocuments).
Proof.
  split; [reflexivity|]. split; [reflexivity|].
  destruct (Get_by_identifier_outcomes healthy (Hex (counting 1)) (counting 1)
              aliceStore eq_refl) as (_ & H & _).
  destruct (H eq_refl) as (HU & HC & HA).
  split; [rewrite HU; reflexivity|]. split; [rewrite HC; reflexivity|].
  rewrite HA. reflexivity.
Defined.
